(** * Autoencoder and attention notebooks: a shallow embedding

    The two notebooks [03_autoencoders.ipynb] and [04_attention.ipynb] build
    small networks from framework layers and train them with a hand written
    loop.  This development embeds

    - the tensor primitives the notebooks call (1-d convolution, transposed
      convolution, ReLU, flatten, unsqueeze, transpose, matmul, softmax),
    - the module classes [MyEncoder], [MyDecoder], [MyAutoencoder],
      [RegressionFCN], [SelfAttention] and [CustomAttn],
    - the training loops [train_autoencoder] and [train_regression], with
      the loss buffers they overwrite in place,
    - the parameter store shared by models and optimizers.

    Tensor entries are floating point numbers in the notebooks; here they
    are real numbers.  The statements quantified over all inputs are
    therefore about what rounding, overflow and NaN do not touch: shapes,
    which primitive is applied to which result, which entries a result is
    determined by, the control flow of the loops and the objects they
    write to.  Values of entries are computed at the small inputs of the
    examples only, where they show that two computations differ.  Shapes
    are lists of natural numbers and compute. *)

From Stdlib Require Import Reals Lra Lia List Arith.
From stdpp Require Import base option list strings gmap.
Import ListNotations.

(** ** Tensors: a shape and the entries in row-major order *)

Record Tensor := mkTensor { shape : list nat; data : list R }.

Definition ndim (t : Tensor) : nat := length (shape t).

(** Finite sums of reals, [Rsum n f = f 0 + ... + f (n-1)]. *)
Fixpoint Rsum (n : nat) (f : nat -> R) : R :=
  match n with
  | O => 0%R
  | S k => (Rsum k f + f k)%R
  end.

(** A 3-d tensor given by its entries. *)
Definition build3 (B C L : nat) (f : nat -> nat -> nat -> R) : Tensor :=
  {| shape := [B; C; L];
     data := map (fun i => f (i / (C * L)) ((i / L) mod C) (i mod L))
                 (seq 0 (B * C * L)) |}.

(** Entry [t[b, c, l]] of a 3-d tensor; 0 for any other rank, and for an
    index outside the data. *)
Definition get3 (t : Tensor) (b c l : nat) : R :=
  match shape t with
  | [_; C; L] => nth ((b * C + c) * L + l) (data t) 0%R
  | _ => 0%R
  end.

(** A tensor is well formed when it holds one entry per index. *)
Definition wf (t : Tensor) : Prop :=
  length (data t) = fold_right Nat.mul 1 (shape t).

(** ** The framework primitives the notebooks call

    Each primitive is modelled on the ranks the notebooks feed it: the
    batched 3-d layout [(batch, channels, length)] and, as the framework
    does, the unbatched 2-d layout [(channels, length)], treated as a batch
    of one.  [None] stands for the exception the framework raises.  Layers
    without channels are degenerate; the statements of the properties part
    leave them out.  Sums, quotients and exponentials are those of the real
    numbers: where the floating point primitives round, underflow to 0 or
    return NaN these do not, which is why no statement over all inputs
    speaks of the value of an entry. *)

Module Torch.

(** [torch.unsqueeze(x, dim)] for a non-negative [dim]: a new axis of size 1
    at position [dim]; the entries are untouched. *)
Definition unsqueeze (x : Tensor) (dim : nat) : option Tensor :=
  if dim <=? ndim x
  then Some {| shape := take dim (shape x) ++ 1 :: drop dim (shape x);
               data := data x |}
  else None.

(** View an unbatched 2-d tensor as a batch of one, run [f], and drop the
    batch axis again; 3-d tensors go through unchanged. *)
Definition batched (f : Tensor -> option Tensor) (x : Tensor) : option Tensor :=
  match shape x with
  | [_; _; _] => f x
  | [C; L] =>
      y ← f {| shape := [1; C; L]; data := data x |};
      Some {| shape := tail (shape y); data := data y |}
  | _ => None
  end.

(** *** [torch.nn.Conv1d] (dilation 1, groups 1) *)

Record Conv1d := mkConv1d {
  in_channels : nat;
  out_channels : nat;
  kernel_size : nat;
  stride : nat;
  padding : nat;
  weight : nat -> nat -> nat -> R;      (* weight[o, c, k] *)
  bias : option (nat -> R)              (* bias[o], absent with bias=False *)
}.

Definition bias_at (b : option (nat -> R)) (o : nat) : R :=
  match b with Some f => f o | None => 0%R end.

(** Entry [i] of row [(b, c)] after zero padding by [p] on both sides. *)
Definition padded (x : Tensor) (p L b c i : nat) : R :=
  if (p <=? i) && (i <? p + L) then get3 x b c (i - p) else 0%R.

Definition conv_out_len (L k s p : nat) : nat := (L + 2 * p - k) / s + 1.

(** The checks of the framework: the channel count matches, kernel size
    and stride are positive, and the kernel fits into the padded input. *)
Definition conv1d_ok (m : Conv1d) (C L : nat) : bool :=
  (C =? in_channels m) && (1 <=? kernel_size m) && (1 <=? stride m)
  && (kernel_size m <=? L + 2 * padding m).

Definition conv1d3 (m : Conv1d) (x : Tensor) : option Tensor :=
  match shape x with
  | [B; C; L] =>
      if conv1d_ok m C L
      then Some (build3 B (out_channels m)
                   (conv_out_len L (kernel_size m) (stride m) (padding m))
                   (fun b o l =>
                      (bias_at (bias m) o +
                       Rsum C (fun c => Rsum (kernel_size m) (fun k =>
                         weight m o c k *
                         padded x (padding m) L b c (l * stride m + k))))%R))
      else None
  | _ => None
  end.

Definition conv1d (m : Conv1d) : Tensor -> option Tensor := batched (conv1d3 m).

(** *** [torch.nn.ConvTranspose1d] (dilation 1, groups 1) *)

Record ConvTranspose1d := mkConvTranspose1d {
  t_in_channels : nat;
  t_out_channels : nat;
  t_kernel_size : nat;
  t_stride : nat;
  t_padding : nat;
  t_output_padding : nat;
  t_weight : nat -> nat -> nat -> R;    (* weight[c, o, k] *)
  t_bias : option (nat -> R)
}.

Definition convT_out_len (L k s p op : nat) : nat :=
  (L - 1) * s + (k - 1) + op + 1 - 2 * p.

(** The channel count matches, the output padding is smaller than the
    stride and the output is not empty.  Empty sequences are rejected. *)
Definition conv_transpose1d_ok (m : ConvTranspose1d) (C L : nat) : bool :=
  (C =? t_in_channels m) && (1 <=? t_kernel_size m) && (1 <=? t_stride m)
  && (1 <=? L) && (t_output_padding m <? t_stride m)
  && (2 * t_padding m <? (L - 1) * t_stride m + (t_kernel_size m - 1)
                         + t_output_padding m + 1).

Definition conv_transpose1d3 (m : ConvTranspose1d) (x : Tensor) : option Tensor :=
  match shape x with
  | [B; C; L] =>
      if conv_transpose1d_ok m C L
      then Some (build3 B (t_out_channels m)
                   (convT_out_len L (t_kernel_size m) (t_stride m)
                      (t_padding m) (t_output_padding m))
                   (fun b o j =>
                      (bias_at (t_bias m) o +
                       Rsum C (fun c => Rsum L (fun i =>
                         Rsum (t_kernel_size m) (fun k =>
                           if i * t_stride m + k =? j + t_padding m
                           then get3 x b c i * t_weight m c o k
                           else 0))))%R))
      else None
  | _ => None
  end.

Definition conv_transpose1d (m : ConvTranspose1d) : Tensor -> option Tensor :=
  batched (conv_transpose1d3 m).

(** *** Pointwise and reshaping layers *)

(** [torch.nn.ReLU]: [max(0, x)] entry by entry, any shape. *)
Definition relu (x : Tensor) : Tensor :=
  {| shape := shape x; data := map (Rmax 0) (data x) |}.

(** [torch.nn.Flatten()] (start_dim=1, end_dim=-1): all axes after the first
    are merged; a tensor without a second axis is rejected. *)
Definition flatten (x : Tensor) : option Tensor :=
  match shape x with
  | B :: d :: rest =>
      Some {| shape := [B; fold_right Nat.mul 1 (d :: rest)]; data := data x |}
  | _ => None
  end.

(** *** The matrix primitives of the attention layer *)

(** [torch.transpose(x, -1, -2)]. *)
Definition transpose3 (x : Tensor) : option Tensor :=
  match shape x with
  | [B; n; m] => Some (build3 B m n (fun b i j => get3 x b j i))
  | _ => None
  end.

Definition transpose_last2 : Tensor -> option Tensor := batched transpose3.

(** [torch.matmul(a, b)] on two tensors of the same rank (2 or 3) and, for
    rank 3, the same batch size: the cases [SelfAttention.forward] reaches,
    where both operands come from one input.  Batch broadcasting is not
    modelled. *)
Definition matmul3 (a b : Tensor) : option Tensor :=
  match shape a, shape b with
  | [B; n; m], [B'; m'; p] =>
      if (B =? B') && (m =? m')
      then Some (build3 B n p (fun b0 i j =>
                   Rsum m (fun k => (get3 a b0 i k * get3 b b0 k j)%R)))
      else None
  | _, _ => None
  end.

Definition matmul (a b : Tensor) : option Tensor :=
  match shape a, shape b with
  | [_; _; _], [_; _; _] => matmul3 a b
  | [n; m], [m'; p] =>
      y ← matmul3 {| shape := [1; n; m]; data := data a |}
                  {| shape := [1; m'; p]; data := data b |};
      Some {| shape := tail (shape y); data := data y |}
  | _, _ => None
  end.

(** [torch.nn.functional.softmax(x, dim)] on a 3-d tensor, for the negative
    axes [dim = -1, -2, -3]: the exponentials are divided by their sum
    along axis [dim]. *)
Definition softmax3 (dim : Z) (x : Tensor) : option Tensor :=
  match shape x with
  | [B; n; m] =>
      if (dim =? -1)%Z then
        Some (build3 B n m (fun b i j =>
          (exp (get3 x b i j) / Rsum m (fun j' => exp (get3 x b i j')))%R))
      else if (dim =? -2)%Z then
        Some (build3 B n m (fun b i j =>
          (exp (get3 x b i j) / Rsum n (fun i' => exp (get3 x b i' j)))%R))
      else if (dim =? -3)%Z then
        Some (build3 B n m (fun b i j =>
          (exp (get3 x b i j) / Rsum B (fun b' => exp (get3 x b' i j)))%R))
      else None
  | _ => None
  end.

(** On an unbatched matrix the axes [-1] and [-2] are the same two axes. *)
Definition softmax (x : Tensor) (dim : Z) : option Tensor :=
  match shape x with
  | [_; _; _] => softmax3 dim x
  | [_; _] => if (dim =? -3)%Z then None else batched (softmax3 dim) x
  | _ => None
  end.

End Torch.

(** ** Modules and [torch.nn.Sequential]

    A module is anything with a [forward]; a [Sequential] is the list of
    the modules appended to it and feeds each one the output of the one
    before. *)

Class Module (M : Type) := forward : M -> Tensor -> option Tensor.

Definition Sequential_forward {M} `{Module M} (layers : list M) (x : Tensor)
  : option Tensor :=
  fold_left (fun acc l => acc ≫= forward l) layers (Some x).

#[global] Instance Sequential_Module {M} `{Module M} : Module (list M) :=
  Sequential_forward.

#[global] Instance Conv1d_Module : Module Torch.Conv1d := Torch.conv1d.

#[global] Instance ConvTranspose1d_Module : Module Torch.ConvTranspose1d :=
  Torch.conv_transpose1d.

(** The values a constructor draws for the parameters of the [i]-th
    parametrised layer it creates: [w_init i] is that layer's weight and
    [b_init i] its bias.  The framework draws them at random; here they are
    an argument of the constructor. *)
Record Init := mkInit {
  w_init : nat -> nat -> nat -> nat -> R;
  b_init : nat -> nat -> R
}.

(** ** Notebook 03: the convolutional autoencoder *)

Module Autoencoders.

Inductive Layer :=
| Conv1d (m : Torch.Conv1d)
| ConvTranspose1d (m : Torch.ConvTranspose1d)
| ReLU
| Flatten.

#[global] Instance Layer_Module : Module Layer := fun l x =>
  match l with
  | Conv1d m => forward m x
  | ConvTranspose1d m => forward m x
  | ReLU => Some (Torch.relu x)
  | Flatten => Torch.flatten x
  end.

(** [class MyEncoder]: [nlayers - 1] strided convolutions, each followed by
    a ReLU, then a width preserving convolution to one channel and a
    flatten. *)
Record MyEncoder := { enc_layers : list Layer }.

Definition MyEncoder_init (nlayers nchannels : nat) (θ : Init) : MyEncoder :=
  {| enc_layers :=
       flat_map (fun i =>
         let inchannels := if i =? 0 then 1 else nchannels in
         [ Conv1d (Torch.mkConv1d inchannels nchannels 5 2 2
                     (w_init θ i) (Some (b_init θ i)));
           ReLU ]) (seq 0 (nlayers - 1))
       ++ [ Conv1d (Torch.mkConv1d nchannels 1 3 1 1
                      (w_init θ (nlayers - 1)) (Some (b_init θ (nlayers - 1))));
            Flatten ] |}.

(** The channel axis the convolutions need is inserted when the input is
    2-d. *)
Definition add_channel_dim (x : Tensor) : option Tensor :=
  if ndim x =? 2 then Torch.unsqueeze x 1 else Some x.

#[global] Instance MyEncoder_forward : Module MyEncoder := fun self x =>
  x' ← add_channel_dim x; forward (enc_layers self) x'.

(** [class MyDecoder]: [nlayers - 1] transposed convolutions doubling the
    width, each followed by a ReLU, then a width preserving convolution to
    one channel. *)
Record MyDecoder := { dec_layers : list Layer }.

Definition MyDecoder_init (nlayers nchannels : nat) (θ : Init) : MyDecoder :=
  {| dec_layers :=
       flat_map (fun i =>
         let inchannels := if i =? 0 then 1 else nchannels in
         [ ConvTranspose1d (Torch.mkConvTranspose1d inchannels nchannels 5 2 2 1
                              (w_init θ i) (Some (b_init θ i)));
           ReLU ]) (seq 0 (nlayers - 1))
       ++ [ Conv1d (Torch.mkConv1d nchannels 1 3 1 1
                      (w_init θ (nlayers - 1)) (Some (b_init θ (nlayers - 1)))) ] |}.

#[global] Instance MyDecoder_forward : Module MyDecoder := fun self x =>
  x' ← add_channel_dim x; forward (dec_layers self) x'.

(** [class MyAutoencoder]: encoder and decoder built with the same
    arguments; the two draw their own parameters. *)
Record MyAutoencoder := { enc : MyEncoder; dec : MyDecoder }.

Definition MyAutoencoder_init (nlayers nchannels : nat) (θe θd : Init)
  : MyAutoencoder :=
  {| enc := MyEncoder_init nlayers nchannels θe;
     dec := MyDecoder_init nlayers nchannels θd |}.

#[global] Instance MyAutoencoder_forward : Module MyAutoencoder := fun self x =>
  h ← forward (enc self) x;
  forward (dec self) h.

(** The defaults of the three constructors. *)
Definition default_nlayers : nat := 3.
Definition default_nchannels : nat := 16.

(** [x.squeeze(1)]: axis 1 is dropped when its size is 1. *)
Definition squeeze1 (x : Tensor) : Tensor :=
  match shape x with
  | b :: 1 :: rest => {| shape := b :: rest; data := data x |}
  | _ => x
  end.

End Autoencoders.

(** ** What the two training loops share

    The loops thread one mutable world through every call: the parameters
    and gradients of the models and the state of the optimizer.  That world
    is the type [State]; the objects handed to a loop are records of the
    operations the loop invokes on them. *)

(** A [DataLoader]: [len(dl)] and the batches its [k]-th traversal yields
    (with [shuffle=True] every traversal draws a new order). *)
Record DataLoader := mkDataLoader {
  dl_len : nat;
  dl_batches : nat -> list (Tensor * Tensor)
}.

(** The framework yields [len(dl)] batches on every traversal. *)
Definition dl_wf (dl : DataLoader) : Prop :=
  forall k, length (dl_batches dl k) = dl_len dl.

(** [buf[idx] = v] on a 1-d tensor: an index past the end raises. *)
Definition set_item (buf : list R) (idx : nat) (v : R) : option (list R) :=
  if idx <? length buf then Some (<[idx := v]> buf) else None.

(** [buf.mean()]; on the empty buffer the framework yields NaN, here the
    quotient by zero of the reals. *)
Definition mean (buf : list R) : R :=
  (fold_right Rplus 0 buf / INR (length buf))%R.

(** [d[k].append(v)] on a dictionary of lists. *)
Definition dict_append (k : string) (v : R) (d : gmap string (list R))
  : option (gmap string (list R)) :=
  l ← d !! k; Some (<[k := l ++ [v]]> d).

(** [for x in xs: s = body x s], stopping at the first exception. *)
Fixpoint for_each {A S : Type} (body : A -> S -> option S) (xs : list A) (s : S)
  : option S :=
  match xs with
  | [] => Some s
  | x :: rest => s' ← body x s; for_each body rest s'
  end.

Section Loops.
Context {State : Type}.

(** The model as the loop sees it: calling it, switching between training
    and evaluation mode, and back-propagating the loss of one call. *)
Record Model := mkModel {
  call : State -> Tensor -> option Tensor;
  set_training : bool -> State -> State;
  (** [loss.backward()] for [loss = crit(model(X), target)] *)
  backward : State -> Tensor -> Tensor -> State
}.

Record Optimizer := mkOptimizer {
  step : State -> State;
  zero_grad : State -> State
}.

Definition Criterion := Tensor -> Tensor -> option R.

(** What a loop holds between two statements. *)
Record Loop := mkLoop {
  world : State;
  train_loss : list R;
  test_loss : list R;
  results : gmap string (list R);
  printed : list (nat * R * R)
}.

Variables (model : Model) (opt : Optimizer) (crit : Criterion).

(** One pass of the training [for idx, (X, y) in enumerate(...)] loop;
    [target] picks what the prediction is compared with. *)
Fixpoint fit_batches (target : Tensor * Tensor -> Tensor) (idx : nat)
    (bs : list (Tensor * Tensor)) (σ : State) (buf : list R)
  : option (State * list R) :=
  match bs with
  | [] => Some (σ, buf)
  | Xy :: rest =>
      y_hat ← call model σ (fst Xy);
      loss ← crit y_hat (target Xy);
      let σ1 := backward model σ (fst Xy) (target Xy) in
      let σ2 := step opt σ1 in
      let σ3 := zero_grad opt σ2 in
      buf' ← set_item buf idx loss;
      fit_batches target (S idx) rest σ3 buf'
  end.

(** One pass of the test [for idx, (X_test, y_test) in enumerate(...)]
    loop: both notebooks compare the prediction with [X_test]. *)
Fixpoint eval_batches (idx : nat) (bs : list (Tensor * Tensor)) (σ : State)
    (buf : list R) : option (list R) :=
  match bs with
  | [] => Some buf
  | (X_test, y_test) :: rest =>
      X_prime_test ← call model σ X_test;
      loss_ ← crit X_prime_test X_test;
      buf' ← set_item buf idx loss_;
      eval_batches (S idx) rest σ buf'
  end.

(** The tail of an epoch: append the two means and print every
    [log_every]-th epoch and the last one ([epoch % 0] raises). *)
Definition record_epoch (max_epochs log_every epoch : nat) (st : Loop)
  : option Loop :=
  r1 ← dict_append "train_losses" (mean (train_loss st)) (results st);
  r2 ← dict_append "test_losses" (mean (test_loss st)) r1;
  if log_every =? 0 then None
  else
    Some (mkLoop (world st) (train_loss st) (test_loss st) r2
            (if (epoch mod log_every =? 0) || (epoch + 1 =? max_epochs)
             then printed st ++ [(epoch + 1, mean (train_loss st),
                                  mean (test_loss st))]
             else printed st)).

Definition init_loop (train_dataloader test_dataloader : DataLoader)
    (σ : State) : Loop :=
  mkLoop σ (replicate (dl_len train_dataloader) 0%R)
           (replicate (dl_len test_dataloader) 0%R)
           {[ "train_losses" := []; "test_losses" := [] ]} [].

(** [train_autoencoder] of notebook 03. *)
Definition autoencoder_epoch (train_dataloader test_dataloader : DataLoader)
    (max_epochs log_every epoch : nat) (st : Loop) : option Loop :=
  '(σ, tr) ← fit_batches fst 0 (dl_batches train_dataloader epoch)
               (world st) (train_loss st);
  te ← eval_batches 0 (dl_batches test_dataloader epoch) σ (test_loss st);
  record_epoch max_epochs log_every epoch
    (mkLoop σ tr te (results st) (printed st)).

Definition train_autoencoder (train_dataloader test_dataloader : DataLoader)
    (max_epochs log_every : nat) (σ : State) : option Loop :=
  for_each (autoencoder_epoch train_dataloader test_dataloader
              max_epochs log_every)
    (seq 0 max_epochs) (init_loop train_dataloader test_dataloader σ).

(** [train_regression] of notebook 04: the prediction is compared with
    [y] while training, the model is switched to training mode before and
    to evaluation mode after the training pass. *)
Definition regression_epoch (train_dataloader test_dataloader : DataLoader)
    (max_epochs log_every epoch : nat) (st : Loop) : option Loop :=
  '(σ, tr) ← fit_batches snd 0 (dl_batches train_dataloader epoch)
               (set_training model true (world st)) (train_loss st);
  let σ' := set_training model false σ in
  te ← eval_batches 0 (dl_batches test_dataloader epoch) σ' (test_loss st);
  record_epoch max_epochs log_every epoch
    (mkLoop σ' tr te (results st) (printed st)).

Definition train_regression (train_dataloader test_dataloader : DataLoader)
    (max_epochs log_every : nat) (σ : State) : option Loop :=
  for_each (regression_epoch train_dataloader test_dataloader
              max_epochs log_every)
    (seq 0 max_epochs) (init_loop train_dataloader test_dataloader σ).

End Loops.

Arguments Model : clear implicits.
Arguments Optimizer : clear implicits.
Arguments Loop : clear implicits.

(** ** Notebook 04: the regression networks and the attention layer *)

Module Attention.

(** [class SelfAttention]: three bias free convolutions of kernel size 1. *)
Record SelfAttention := mkSelfAttention {
  conv_Q : Torch.Conv1d;
  conv_K : Torch.Conv1d;
  conv_V : Torch.Conv1d
}.

Definition SelfAttention_init (in_channels out_channels key_channels : nat)
    (θ : Init) : SelfAttention :=
  {| conv_Q := Torch.mkConv1d in_channels key_channels 1 1 0 (w_init θ 0) None;
     conv_K := Torch.mkConv1d in_channels key_channels 1 1 0 (w_init θ 1) None;
     conv_V := Torch.mkConv1d in_channels out_channels 1 1 0 (w_init θ 2) None |}.

#[global] Instance SelfAttention_forward : Module SelfAttention := fun self x =>
  Q ← forward (conv_Q self) x;
  K ← forward (conv_K self) x;
  V ← forward (conv_V self) x;
  K_t ← Torch.transpose_last2 K;
  A_ ← Torch.matmul Q K_t;
  A ← Torch.softmax A_ (-2);
  Torch.matmul A V.

Inductive Layer :=
| Conv1d (m : Torch.Conv1d)
| ReLU
| Attn (m : SelfAttention).

#[global] Instance Layer_Module : Module Layer := fun l x =>
  match l with
  | Conv1d m => forward m x
  | ReLU => Some (Torch.relu x)
  | Attn m => forward m x
  end.

(** The parameters drawn from position [k] on. *)
Definition shift_init (k : nat) (θ : Init) : Init :=
  {| w_init := fun i => w_init θ (k + i); b_init := fun i => b_init θ (k + i) |}.

(** [class RegressionFCN]; [inshape[0]] raises on an empty shape. *)
Record RegressionFCN := { fcn_layers : list Layer }.

Definition RegressionFCN_init (inshape : list nat)
    (num_channels ksize num_layers : nat) (θ : Init) : option RegressionFCN :=
  c0 ← head inshape;
  let padding := ksize / 2 in
  Some {| fcn_layers :=
    flat_map (fun i =>
      let num_inchannels := if i =? 0 then c0 else num_channels in
      [ Conv1d (Torch.mkConv1d num_inchannels num_channels ksize 1 padding
                  (w_init θ i) (Some (b_init θ i)));
        ReLU ]) (seq 0 num_layers)
    ++ [ Conv1d (Torch.mkConv1d num_channels c0 1 1 0
                   (w_init θ num_layers) (Some (b_init θ num_layers))) ] |}.

#[global] Instance RegressionFCN_forward : Module RegressionFCN := fun self x =>
  forward (fcn_layers self) x.

(** [class CustomAttn]. *)
Record CustomAttn := { attn_layers : list Layer }.

Definition CustomAttn_init (inshape : list nat) (num_channels ksize : nat)
    (θ : Init) : option CustomAttn :=
  num_inchannels ← head inshape;
  let padding := ksize / 2 in
  Some {| attn_layers :=
    [ Conv1d (Torch.mkConv1d num_inchannels num_channels ksize 1 padding
                (w_init θ 0) (Some (b_init θ 0)));
      ReLU;
      Attn (SelfAttention_init num_channels num_channels num_channels
              (shift_init 1 θ));
      ReLU;
      Conv1d (Torch.mkConv1d num_channels num_channels ksize 1 padding
                (w_init θ 4) (Some (b_init θ 4)));
      Conv1d (Torch.mkConv1d num_channels num_inchannels 1 1 0
                (w_init θ 5) (Some (b_init θ 5))) ] |}.

#[global] Instance CustomAttn_forward : Module CustomAttn := fun self x =>
  forward (attn_layers self) x.

(** The defaults of the constructors. *)
Definition default_num_channels : nat := 64.
Definition default_ksize : nat := 5.
Definition default_num_layers : nat := 4.

(** *** The attention formula as the specification words it

    Scaled dot-product attention on the layout of the layer: the scores
    [Q K^T] are divided by [sqrt(key_channels)] before the softmax.  The
    specification does not name the axis of the softmax; it is the
    argument [dim]. *)
Definition scale (c : R) (x : Tensor) : Tensor :=
  {| shape := shape x; data := map (fun v => (v / c)%R) (data x) |}.

Definition scaled_dot_product_attention (dim : Z) (self : SelfAttention)
    (x : Tensor) : option Tensor :=
  Q ← forward (conv_Q self) x;
  K ← forward (conv_K self) x;
  V ← forward (conv_V self) x;
  K_t ← Torch.transpose_last2 K;
  A_ ← Torch.matmul Q K_t;
  A ← Torch.softmax (scale (sqrt (INR (Torch.out_channels (conv_K self)))) A_)
        dim;
  Torch.matmul A V.

End Attention.

(** ** Parameters as shared objects

    A parameter is an object on the heap: models and optimizers hold
    references to it, not copies.  [torch.optim.AdamW(net.parameters())]
    stores the references it is given, and [step] and [zero_grad] walk that
    list and nothing else. *)

Module Store.

Record Param := mkParam { value : Tensor; grad : option Tensor }.

Section World.
(** The private state an optimizer keeps (moments, step counts) and the
    arithmetic of its update rule belong to the framework. *)
Context {O : Type}.
Variable rule : O -> nat -> Tensor -> Tensor -> Tensor * O.
Variable fresh : O.

Record World := mkWorld {
  heap : gmap nat Param;          (* address ↦ parameter object *)
  modes : gmap nat bool;          (* network ↦ its [training] flag *)
  opt_state : gmap nat O          (* optimizer ↦ its private state *)
}.

(** A network on the heap: the addresses of its parameters, in the order
    [parameters()] lists them, the function it computes from their values
    and the gradient of the loss of one call with respect to each. *)
Record Net := mkNet {
  net_id : nat;
  parameters : list nat;
  net_forward : bool -> list Tensor -> Tensor -> option Tensor;
  net_gradient : bool -> list Tensor -> Tensor -> Tensor -> list Tensor
}.

Definition values (σ : World) (addrs : list nat) : option (list Tensor) :=
  mapM (fun a => value <$> heap σ !! a) addrs.

(** Modules are created in training mode. *)
Definition training (σ : World) (net : Net) : bool :=
  default true (modes σ !! net_id net).

Definition net_call (net : Net) (σ : World) (X : Tensor) : option Tensor :=
  vals ← values σ (parameters net);
  net_forward net (training σ net) vals X.

(** [net.train(b)] writes the flag of the network and of every module
    below it at once; one flag per network stands for all of them. *)
Definition net_set_training (net : Net) (b : bool) (σ : World) : World :=
  mkWorld (heap σ) (<[net_id net := b]> (modes σ)) (opt_state σ).

Definition tadd (a b : Tensor) : Tensor :=
  {| shape := shape a; data := zip_with Rplus (data a) (data b) |}.

(** [.grad] accumulates: the first gradient is stored, later ones added. *)
Definition accumulate (g : Tensor) (p : Param) : Param :=
  mkParam (value p) (Some (match grad p with
                           | Some g0 => tadd g0 g
                           | None => g
                           end)).

Definition net_backward (net : Net) (σ : World) (X target : Tensor) : World :=
  match values σ (parameters net) with
  | Some vals =>
      mkWorld
        (fold_left (fun h ag => alter (accumulate ag.2) ag.1 h)
           (zip (parameters net)
                (net_gradient net (training σ net) vals X target))
           (heap σ))
        (modes σ) (opt_state σ)
  | None => σ
  end.

Definition model_of (net : Net) : Model World :=
  {| call := net_call net;
     set_training := net_set_training net;
     backward := net_backward net |}.

(** An [AdamW] object: the references it was constructed with. *)
Record AdamW := mkAdamW { opt_id : nat; param_group : list nat }.

(** [AdamW(net.parameters(), lr=...)]. *)
Definition AdamW_init (id : nat) (params : list nat) : AdamW :=
  mkAdamW id params.

(** One parameter of [opt.step()]: a parameter without gradient is
    skipped. *)
Definition step_param (hs : gmap nat Param * O) (a : nat) : gmap nat Param * O :=
  match hs.1 !! a with
  | Some (mkParam v (Some g)) =>
      let '(v', s') := rule hs.2 a v g in
      (<[a := mkParam v' (Some g)]> hs.1, s')
  | _ => hs
  end.

(** The private state is created on first use. *)
Definition adamw_step (opt : AdamW) (σ : World) : World :=
  let s := default fresh (opt_state σ !! opt_id opt) in
  let hs := fold_left step_param (param_group opt) (heap σ, s) in
  mkWorld hs.1 (modes σ) (<[opt_id opt := hs.2]> (opt_state σ)).

(** [opt.zero_grad()]: the gradients of the optimizer's own parameters
    are reset to [None]. *)
Definition adamw_zero_grad (opt : AdamW) (σ : World) : World :=
  mkWorld
    (fold_left (fun h a => alter (fun p => mkParam (value p) None) a h)
       (param_group opt) (heap σ))
    (modes σ) (opt_state σ).

Definition optimizer_of (opt : AdamW) : Optimizer World :=
  {| step := adamw_step opt; zero_grad := adamw_zero_grad opt |}.

(** The value stored at an address, if the address is allocated. *)
Definition value_at (σ : World) (a : nat) : option Tensor :=
  value <$> heap σ !! a.

(** Constructing a module creates its parameters: new objects, at
    addresses not in use, holding the drawn values and no gradient. *)
Definition new_parameters (vals : list Tensor) (σ : World)
  : list nat * World :=
  let addrs := fresh_list (length vals) (dom (heap σ)) in
  (addrs,
   mkWorld
     (fold_left (fun h av => <[av.1 := mkParam av.2 None]> h)
        (zip addrs vals) (heap σ))
     (modes σ) (opt_state σ)).

End World.

Arguments World : clear implicits.

End Store.

(** ** Shape inference

    What each primitive and each module does to the shape of its input,
    without looking at the entries.  The functions below compute; the
    properties part proves that they describe the shapes of the tensors
    the layers return. *)

Module Shape.

Definition unsqueeze (dim : nat) (s : list nat) : option (list nat) :=
  if dim <=? length s then Some (take dim s ++ 1 :: drop dim s) else None.

Definition batched (f : list nat -> option (list nat)) (s : list nat)
  : option (list nat) :=
  match s with
  | [_; _; _] => f s
  | [C; L] => tail <$> f [1; C; L]
  | _ => None
  end.

Definition conv1d3 (m : Torch.Conv1d) (s : list nat) : option (list nat) :=
  match s with
  | [B; C; L] =>
      if Torch.conv1d_ok m C L
      then Some [B; Torch.out_channels m;
                 Torch.conv_out_len L (Torch.kernel_size m) (Torch.stride m)
                   (Torch.padding m)]
      else None
  | _ => None
  end.

Definition conv_transpose1d3 (m : Torch.ConvTranspose1d) (s : list nat)
  : option (list nat) :=
  match s with
  | [B; C; L] =>
      if Torch.conv_transpose1d_ok m C L
      then Some [B; Torch.t_out_channels m;
                 Torch.convT_out_len L (Torch.t_kernel_size m)
                   (Torch.t_stride m) (Torch.t_padding m)
                   (Torch.t_output_padding m)]
      else None
  | _ => None
  end.

Definition flatten (s : list nat) : option (list nat) :=
  match s with
  | B :: d :: rest => Some [B; fold_right Nat.mul 1 (d :: rest)]
  | _ => None
  end.

Definition transpose3 (s : list nat) : option (list nat) :=
  match s with
  | [B; n; m] => Some [B; m; n]
  | _ => None
  end.

Definition matmul3 (sa sb : list nat) : option (list nat) :=
  match sa, sb with
  | [B; n; m], [B'; m'; p] =>
      if (B =? B') && (m =? m') then Some [B; n; p] else None
  | _, _ => None
  end.

Definition matmul (sa sb : list nat) : option (list nat) :=
  match sa, sb with
  | [_; _; _], [_; _; _] => matmul3 sa sb
  | [n; m], [m'; p] => tail <$> matmul3 [1; n; m] [1; m'; p]
  | _, _ => None
  end.

Definition softmax (dim : Z) (s : list nat) : option (list nat) :=
  match s with
  | [_; _; _] =>
      if (dim =? -1)%Z || (dim =? -2)%Z || (dim =? -3)%Z then Some s else None
  | [_; _] => if (dim =? -1)%Z || (dim =? -2)%Z then Some s else None
  | _ => None
  end.

(** A sequence of shape transformers, applied left to right. *)
Definition chain (fs : list (list nat -> option (list nat))) (s : list nat)
  : option (list nat) :=
  fold_left (fun acc f => acc ≫= f) fs (Some s).

End Shape.

(** The shape rule of every module class of the two notebooks. *)
Class ShapeRule (M : Type) := out_shape : M -> list nat -> option (list nat).

#[global] Instance Conv1d_ShapeRule : ShapeRule Torch.Conv1d :=
  fun m => Shape.batched (Shape.conv1d3 m).

#[global] Instance ConvTranspose1d_ShapeRule : ShapeRule Torch.ConvTranspose1d :=
  fun m => Shape.batched (Shape.conv_transpose1d3 m).

#[global] Instance Sequential_ShapeRule {M} `{ShapeRule M} : ShapeRule (list M) :=
  fun layers => Shape.chain (map out_shape layers).

#[global] Instance AE_Layer_ShapeRule : ShapeRule Autoencoders.Layer := fun l s =>
  match l with
  | Autoencoders.Conv1d m => out_shape m s
  | Autoencoders.ConvTranspose1d m => out_shape m s
  | Autoencoders.ReLU => Some s
  | Autoencoders.Flatten => Shape.flatten s
  end.

Definition add_channel_dim_shape (s : list nat) : option (list nat) :=
  if length s =? 2 then Shape.unsqueeze 1 s else Some s.

#[global] Instance MyEncoder_ShapeRule : ShapeRule Autoencoders.MyEncoder :=
  fun self s =>
    s' ← add_channel_dim_shape s; out_shape (Autoencoders.enc_layers self) s'.

#[global] Instance MyDecoder_ShapeRule : ShapeRule Autoencoders.MyDecoder :=
  fun self s =>
    s' ← add_channel_dim_shape s; out_shape (Autoencoders.dec_layers self) s'.

#[global] Instance MyAutoencoder_ShapeRule : ShapeRule Autoencoders.MyAutoencoder :=
  fun self s =>
    h ← out_shape (Autoencoders.enc self) s; out_shape (Autoencoders.dec self) h.

#[global] Instance SelfAttention_ShapeRule : ShapeRule Attention.SelfAttention :=
  fun self s =>
    Q ← out_shape (Attention.conv_Q self) s;
    K ← out_shape (Attention.conv_K self) s;
    V ← out_shape (Attention.conv_V self) s;
    K_t ← Shape.batched Shape.transpose3 K;
    A_ ← Shape.matmul Q K_t;
    A ← Shape.softmax (-2) A_;
    Shape.matmul A V.

#[global] Instance Attn_Layer_ShapeRule : ShapeRule Attention.Layer := fun l s =>
  match l with
  | Attention.Conv1d m => out_shape m s
  | Attention.ReLU => Some s
  | Attention.Attn m => out_shape m s
  end.

#[global] Instance RegressionFCN_ShapeRule : ShapeRule Attention.RegressionFCN :=
  fun self => out_shape (Attention.fcn_layers self).

#[global] Instance CustomAttn_ShapeRule : ShapeRule Attention.CustomAttn :=
  fun self => out_shape (Attention.attn_layers self).

(** A shape rule is sound for a module class when it predicts the shape of
    every result, and failure exactly when the module raises. *)
Class ShapeSound (M : Type) `{Module M} `{ShapeRule M} : Prop :=
  shape_sound : forall (m : M) (x : Tensor),
    shape <$> forward m x = out_shape m (shape x).

(** ** Concrete inputs used in the examples below *)

(** All parameters zero. *)
Definition zero_init : Init :=
  {| w_init := fun _ _ _ _ => 0%R; b_init := fun _ _ => 0%R |}.

(** The first eight samples of the 40 wide signal set, as the notebook
    feeds them: a 2-d tensor without channel axis (entries immaterial). *)
Definition Xtest : Tensor := {| shape := [8; 40]; data := replicate 320 0%R |}.

Definition default_autoencoder : Autoencoders.MyAutoencoder :=
  Autoencoders.MyAutoencoder_init Autoencoders.default_nlayers
    Autoencoders.default_nchannels zero_init zero_init.

(** ** The attention layer, entry by entry

    The entries of the stages of [SelfAttention.forward] in real
    arithmetic, used to evaluate the layer at the inputs of the examples.
    [x] has shape [(B, C, L)]; [wQ], [wK], [wV] are the weights of the three
    convolutions. *)

Module Formula.

(** A 1x1 convolution without bias: a linear map on the channel axis,
    applied at every position. *)
Definition proj (w : nat -> nat -> nat -> R) (C : nat) (x : Tensor)
    (b o l : nat) : R :=
  Rsum C (fun c => (w o c 0%nat * get3 x b c l)%R).

(** Entry [(i, j)] of [Q K^T]: rows [i] of [Q] and [j] of [K], multiplied
    position by position and summed over the [L] positions. *)
Definition score (wQ wK : nat -> nat -> nat -> R) (C L : nat) (x : Tensor)
    (b i j : nat) : R :=
  Rsum L (fun l => (proj wQ C x b i l * proj wK C x b j l)%R).

(** Softmax along axis [dim] (-2: the sum runs over the first matrix index,
    -1: over the second) of the scores after [pre] has been applied to each
    of them. *)
Definition weight_with (pre : R -> R) (dim : Z)
    (wQ wK : nat -> nat -> nat -> R) (C n L : nat) (x : Tensor)
    (b i j : nat) : R :=
  (exp (pre (score wQ wK C L x b i j)) /
   (if (dim =? -2)%Z
    then Rsum n (fun i' => exp (pre (score wQ wK C L x b i' j)))
    else Rsum n (fun j' => exp (pre (score wQ wK C L x b i j')))))%R.

Definition output_with (pre : R -> R) (dim : Z)
    (wQ wK wV : nat -> nat -> nat -> R) (C n L : nat) (x : Tensor)
    (b i l : nat) : R :=
  Rsum n (fun j => (weight_with pre dim wQ wK C n L x b i j
                    * proj wV C x b j l)%R).

(** The layer as written: the scores go into the softmax as they are, and
    the softmax runs along axis -2. *)
Definition weight := weight_with (fun s => s) (-2).
Definition output := output_with (fun s => s) (-2).

End Formula.

(** The claim of C3 in formulas: the output at position [l] is a
    combination of the value vectors [V[b, :, l']] at all positions [l'],
    with a positive weight for every pair of positions. *)
Definition attends_all_positions (B n L : nat) (V y : Tensor) : Prop :=
  exists w : nat -> nat -> nat -> R,
    (forall b l l', b < B -> l < L -> l' < L -> (0 < w b l l')%R) /\
    (forall b c l, b < B -> c < n -> l < L ->
       get3 y b c l = Rsum L (fun l' => (w b l l' * get3 V b c l')%R)).

(** What the layer does instead: the product [matmul(A, V)] runs over the
    channel axis.  Entry [(b, i, l)] of the output [y] is determined by
    row [i] of the weights [A] and the [n] value channels [V[b, :, l]] at
    the same position [l]: weights and values that agree with [A] and [V]
    there give the same entry, whatever they hold elsewhere. *)
Definition mixes_channels (B n L : nat) (A V y : Tensor) : Prop :=
  forall (A' V' y' : Tensor) (b i l : nat),
    shape A' = [B; n; n] -> shape V' = [B; n; L] ->
    Torch.matmul A' V' = Some y' ->
    b < B -> i < n -> l < L ->
    (forall j, j < n -> get3 A' b i j = get3 A b i j) ->
    (forall j, j < n -> get3 V' b j l = get3 V b j l) ->
    get3 y' b i l = get3 y b i l.

Module AttentionWeights.
Import Attention.

(** The matrix [A] that [SelfAttention.forward] multiplies the values
    with. *)
Definition attention_weights (self : SelfAttention) (x : Tensor)
  : option Tensor :=
  Q ← forward (conv_Q self) x;
  K ← forward (conv_K self) x;
  K_t ← Torch.transpose_last2 K;
  A_ ← Torch.matmul Q K_t;
  Torch.softmax A_ (-2).

(** The same with a map [pre] applied to the score tensor first and the
    softmax along [dim]; a device to treat the layer and the formula of the
    specification in one proof. *)
Definition attention_weights_with (pre : Tensor -> Tensor) (dim : Z)
    (self : SelfAttention) (x : Tensor) : option Tensor :=
  Q ← forward (conv_Q self) x;
  K ← forward (conv_K self) x;
  K_t ← Torch.transpose_last2 K;
  A_ ← Torch.matmul Q K_t;
  Torch.softmax (pre A_) dim.

End AttentionWeights.

(** The weights of a two channel attention layer on one input channel:
    each of the three convolutions copies the input to channel 0 and
    leaves channel 1 at zero. *)
Definition unit_init : Init :=
  {| w_init := fun _ o _ _ => if o =? 0 then 1%R else 0%R;
     b_init := fun _ _ => 0%R |}.

Definition attn2 : Attention.SelfAttention :=
  Attention.SelfAttention_init 1 2 2 unit_init.

(** One sample, one channel, one position, holding the value 1. *)
Definition x_one : Tensor := {| shape := [1; 1; 1]; data := [1%R] |}.

(** A single channel attention layer with weight 1 everywhere. *)
Definition attn1 : Attention.SelfAttention :=
  Attention.SelfAttention_init 1 1 1
    {| w_init := fun _ _ _ _ => 1%R; b_init := fun _ _ => 0%R |}.

(** One sample, one channel, two positions holding 1 and 0. *)
Definition x_step : Tensor := {| shape := [1; 1; 2]; data := [1%R; 0%R] |}.

(** The two regression networks with the constructor defaults, on a one
    channel signal, and a well formed batch with no position at all. *)
Definition default_fcn : option Attention.RegressionFCN :=
  Attention.RegressionFCN_init [1; 0] Attention.default_num_channels
    Attention.default_ksize Attention.default_num_layers zero_init.

Definition default_attn : option Attention.CustomAttn :=
  Attention.CustomAttn_init [1; 0] Attention.default_num_channels
    Attention.default_ksize zero_init.

Definition x_empty : Tensor := {| shape := [1; 1; 0]; data := [] |}.

(** ** The losses of a run, batch by batch

    What the specification calls the per-batch loss values recorded during
    an epoch, without the buffers: lists of losses in the order of the
    batches.  The loops are compared with these in the properties part. *)

Section LoopSpec.
Context {State : Type}.
Variables (model : Model State) (opt : Optimizer State) (crit : Criterion).

(** One training step: the loss of the batch and the world after the
    optimizer has run. *)
Definition fit_step (target : Tensor * Tensor -> Tensor) (Xy : Tensor * Tensor)
    (σ : State) : option (R * State) :=
  y_hat ← call model σ (fst Xy);
  loss ← crit y_hat (target Xy);
  Some (loss, zero_grad opt (step opt (backward model σ (fst Xy) (target Xy)))).

Fixpoint fit_losses (target : Tensor * Tensor -> Tensor)
    (bs : list (Tensor * Tensor)) (σ : State) : option (list R * State) :=
  match bs with
  | [] => Some ([], σ)
  | Xy :: rest =>
      '(l, σ1) ← fit_step target Xy σ;
      '(ls, σ2) ← fit_losses target rest σ1;
      Some (l :: ls, σ2)
  end.

(** The loss of one test batch: the prediction on [X_test] against
    [X_test]. *)
Definition eval_step (σ : State) (X_test : Tensor) : option R :=
  X_prime_test ← call model σ X_test; crit X_prime_test X_test.

Fixpoint eval_losses (bs : list (Tensor * Tensor)) (σ : State)
  : option (list R) :=
  match bs with
  | [] => Some []
  | Xy :: rest =>
      l ← eval_step σ (fst Xy);
      ls ← eval_losses rest σ;
      Some (l :: ls)
  end.

(** One epoch: [pre] and [post] are the mode switches around the training
    pass (none in notebook 03). *)
Definition epoch_losses (pre post : State -> State)
    (target : Tensor * Tensor -> Tensor)
    (train_dataloader test_dataloader : DataLoader) (epoch : nat) (σ : State)
  : option (list R * list R * State) :=
  '(ls, σ1) ← fit_losses target (dl_batches train_dataloader epoch) (pre σ);
  ls' ← eval_losses (dl_batches test_dataloader epoch) (post σ1);
  Some (ls, ls', post σ1).

Fixpoint run_losses (pre post : State -> State)
    (target : Tensor * Tensor -> Tensor)
    (train_dataloader test_dataloader : DataLoader) (epochs : list nat)
    (σ : State) : option (list (list R * list R) * State) :=
  match epochs with
  | [] => Some ([], σ)
  | e :: rest =>
      '(ls, ls', σ1) ← epoch_losses pre post target train_dataloader
                         test_dataloader e σ;
      '(rs, σ2) ← run_losses pre post target train_dataloader test_dataloader
                    rest σ1;
      Some ((ls, ls') :: rs, σ2)
  end.

(** The common form of the two epoch bodies. *)
Definition generic_epoch (pre post : State -> State)
    (target : Tensor * Tensor -> Tensor)
    (train_dataloader test_dataloader : DataLoader)
    (max_epochs log_every epoch : nat) (st : Loop State) : option (Loop State) :=
  '(σ, tr) ← fit_batches model opt crit target 0
                (dl_batches train_dataloader epoch)
                (pre (world st)) (train_loss st);
  let σ' := post σ in
  te ← eval_batches model crit 0 (dl_batches test_dataloader epoch) σ'
         (test_loss st);
  record_epoch max_epochs log_every epoch
    (mkLoop σ' tr te (results st) (printed st)).

End LoopSpec.

(** The state of a loop between two epochs. *)
Definition loop_ready {State : Type}
    (train_dataloader test_dataloader : DataLoader) (st : Loop State) : Prop :=
  length (train_loss st) = dl_len train_dataloader /\
  length (test_loss st) = dl_len test_dataloader /\
  is_Some (results st !! "train_losses") /\
  is_Some (results st !! "test_losses").


(** A small world for the examples about the loops: the state counts the
    optimizer steps, the model returns its input, the loss adds the first
    entries of prediction and target. *)
Definition toy_model : Model nat :=
  {| call := fun _ X => Some X;
     set_training := fun _ n => n;
     backward := fun n _ _ => n |}.

Definition toy_opt : Optimizer nat := {| step := S; zero_grad := fun n => n |}.

Definition toy_crit : Criterion :=
  fun a b => Some (nth 0 (data a) 0 + nth 0 (data b) 0)%R.

Definition toy_batch (a b : R) : Tensor * Tensor :=
  ({| shape := [1]; data := [a] |}, {| shape := [1]; data := [b] |}).

Definition toy_train : DataLoader :=
  mkDataLoader 2 (fun _ => [toy_batch 1 2; toy_batch 3 4]).

Definition toy_test : DataLoader :=
  mkDataLoader 1 (fun _ => [toy_batch 5 6]).

(** The same inputs with other targets. *)
Definition toy_test' : DataLoader :=
  mkDataLoader 1 (fun _ => [toy_batch 5 7]).

(** A loader whose traversal yields one batch fewer than its length, as an
    iterable with a [__len__] of its own may. *)
Definition toy_short : DataLoader :=
  mkDataLoader 3 (fun _ => [toy_batch 1 2; toy_batch 3 4]).

(** A small heap for the examples about optimizers: two one-parameter
    networks that return their input, created one after the other, and an
    update rule that subtracts the gradient. *)
Definition toy_rule : unit -> nat -> Tensor -> Tensor -> Tensor * unit :=
  fun s _ v g =>
    ({| shape := shape v; data := zip_with Rminus (data v) (data g) |}, s).

Definition empty_world : Store.World unit := Store.mkWorld ∅ ∅ ∅.

Definition toy_scalar (v : R) : Tensor := {| shape := [1]; data := [v] |}.

Definition world_plainfcn : list nat * Store.World unit :=
  Store.new_parameters [toy_scalar 1] empty_world.

Definition toy_plainfcn : Store.Net :=
  Store.mkNet 0 world_plainfcn.1 (fun _ _ X => Some X) (fun _ _ X _ => [X]).

Definition world_attmodel : list nat * Store.World unit :=
  Store.new_parameters [toy_scalar 2] world_plainfcn.2.

Definition toy_attmodel : Store.Net :=
  Store.mkNet 1 world_attmodel.1 (fun _ _ X => Some X) (fun _ _ X _ => [X]).

(** [attoptim = AdamW(plainfcn.parameters(), ...)]. *)
Definition toy_attoptim : Store.AdamW :=
  Store.AdamW_init 2 (Store.parameters toy_plainfcn).

(** * Further code of the two notebooks *)

(** ** Widths through the convolutional autoencoder *)

(** [ceil(L / 2^k)]: the width after [k] convolutions of stride 2. *)
Definition halved (k L : nat) : nat := (L + 2 ^ k - 1) / 2 ^ k.

(** ** Notebook 03: the autoencoder of linear layers *)

Module LinearAE.

(** [torch.nn.Linear]: [y = x W^T + b] on the last axis of an input of any
    rank from 1 on; a last axis of another size than [in_features]
    raises. *)
Record Linear := mkLinear {
  in_features : nat;
  out_features : nat;
  l_weight : nat -> nat -> R;           (* weight[o, i] *)
  l_bias : nat -> R
}.

Definition linear (m : Linear) (x : Tensor) : option Tensor :=
  match last (shape x) with
  | None => None
  | Some w =>
      if w =? in_features m
      then
        let rows := fold_right Nat.mul 1 (removelast (shape x)) in
        Some {| shape := removelast (shape x) ++ [out_features m];
                data := map (fun idx =>
                          let r := idx / out_features m in
                          let o := idx mod out_features m in
                          (l_bias m o +
                           Rsum (in_features m) (fun i =>
                             nth (r * in_features m + i) (data x) 0
                             * l_weight m o i))%R)
                        (seq 0 (rows * out_features m)) |}
      else None
  end.

#[global] Instance Linear_Module : Module Linear := linear.

Inductive Layer :=
| Lin (m : Linear)
| ReLU.

#[global] Instance Layer_Module : Module Layer := fun l x =>
  match l with
  | Lin m => forward m x
  | ReLU => Some (Torch.relu x)
  end.

(** The loop of both constructors: [todo] layers are still to come, the
    next one is the [i]-th and maps [indim] to [outdim]; [next] gives the
    output width of the layer after it.  Every layer but the last, the one
    with [i = nlayers - 2], is followed by a ReLU. *)
Fixpoint linear_stack (next : nat -> nat) (nlayers : nat) (θ : Init)
    (todo i indim outdim : nat) : list Layer :=
  match todo with
  | O => []
  | S todo' =>
      Lin (mkLinear indim outdim (fun o c => w_init θ i o c 0) (b_init θ i))
      :: (if i =? nlayers - 2 then [] else [ReLU])
      ++ linear_stack next nlayers θ todo' (S i) outdim (next outdim)
  end.

(** [class MyLinearEncoder]: every layer halves the width, rounding down;
    [nchannels] is accepted and not used. *)
Record MyLinearEncoder := { lenc_layers : list Layer }.

Definition MyLinearEncoder_init (nlayers nchannels inputdim : nat) (θ : Init)
  : MyLinearEncoder :=
  {| lenc_layers :=
       linear_stack (fun indim => indim / 2) nlayers θ (nlayers - 1) 0
         inputdim (inputdim / 2) |}.

#[global] Instance MyLinearEncoder_forward : Module MyLinearEncoder :=
  fun self x => forward (lenc_layers self) x.

(** [class MyLinearDecoder]: every layer doubles the width. *)
Record MyLinearDecoder := { ldec_layers : list Layer }.

Definition MyLinearDecoder_init (nlayers nchannels inputdim : nat) (θ : Init)
  : MyLinearDecoder :=
  {| ldec_layers :=
       linear_stack (fun indim => indim * 2) nlayers θ (nlayers - 1) 0
         inputdim (inputdim * 2) |}.

#[global] Instance MyLinearDecoder_forward : Module MyLinearDecoder :=
  fun self x => forward (ldec_layers self) x.

Definition default_encoder_inputdim : nat := 40.
Definition default_decoder_inputdim : nat := 10.

(** [class MyLinearAutoencoder]: the constructor passes [nlayers] and
    [nchannels] on and leaves both [inputdim] arguments at their
    defaults. *)
Record MyLinearAutoencoder := { enc : MyLinearEncoder; dec : MyLinearDecoder }.

Definition MyLinearAutoencoder_init (nlayers nchannels : nat) (θe θd : Init)
  : MyLinearAutoencoder :=
  {| enc := MyLinearEncoder_init nlayers nchannels default_encoder_inputdim θe;
     dec := MyLinearDecoder_init nlayers nchannels default_decoder_inputdim θd |}.

#[global] Instance MyLinearAutoencoder_forward : Module MyLinearAutoencoder :=
  fun self x =>
    h ← forward (enc self) x;
    forward (dec self) h.

(** Shape rules. *)
Definition linear_shape (m : Linear) (s : list nat) : option (list nat) :=
  match last s with
  | None => None
  | Some w =>
      if w =? in_features m
      then Some (removelast s ++ [out_features m])
      else None
  end.

#[global] Instance Linear_ShapeRule : ShapeRule Linear := linear_shape.

#[global] Instance Layer_ShapeRule : ShapeRule Layer := fun l s =>
  match l with
  | Lin m => out_shape m s
  | ReLU => Some s
  end.

#[global] Instance MyLinearEncoder_ShapeRule : ShapeRule MyLinearEncoder :=
  fun self => out_shape (lenc_layers self).

#[global] Instance MyLinearDecoder_ShapeRule : ShapeRule MyLinearDecoder :=
  fun self => out_shape (ldec_layers self).

#[global] Instance MyLinearAutoencoder_ShapeRule
  : ShapeRule MyLinearAutoencoder :=
  fun self s => h ← out_shape (enc self) s; out_shape (dec self) h.

End LinearAE.

(** The width a stack of [todo] linear layers ends with. *)
Fixpoint stack_width (next : nat -> nat) (todo indim outdim : nat) : nat :=
  match todo with
  | O => indim
  | S todo' => stack_width next todo' outdim (next outdim)
  end.

(** ** Notebook 04: normalisation of the data set

    The arrays of the data set are tensors as above; [a.min()] and
    [a.max()] run over all entries and raise on an array without
    entries.  The quotients are those of the real numbers; what is stated
    about the cell is where it raises, which rounding does not touch. *)

Module Normalise.

Fixpoint least (v : R) (vs : list R) : R :=
  match vs with
  | [] => v
  | w :: ws => Rmin v (least w ws)
  end.

Fixpoint greatest (v : R) (vs : list R) : R :=
  match vs with
  | [] => v
  | w :: ws => Rmax v (greatest w ws)
  end.

Definition amin (a : Tensor) : option R :=
  match data a with
  | [] => None
  | v :: vs => Some (least v vs)
  end.

Definition amax (a : Tensor) : option R :=
  match data a with
  | [] => None
  | v :: vs => Some (greatest v vs)
  end.

(** [(a - lo) / (hi - lo)] with the two scalars broadcast over [a]. *)
Definition rescale (lo hi : R) (a : Tensor) : Tensor :=
  {| shape := shape a;
     data := map (fun v => ((v - lo) / (hi - lo))%R) (data a) |}.

(** The normalisation cell: inputs and targets are rescaled with the
    extrema of the training inputs and of the training targets; the test
    arrays reuse the extrema of the training arrays. *)
Definition normalise (train_input train_targets test_input test_targets : Tensor)
  : option (Tensor * Tensor * Tensor * Tensor) :=
  x_min ← amin train_input;
  x_max ← amax train_input;
  let x_ := rescale x_min x_max train_input in
  y_min ← amin train_targets;
  y_max ← amax train_targets;
  let y_ := rescale y_min y_max train_targets in
  let x_test_ := rescale x_min x_max test_input in
  let y_test_ := rescale y_min y_max test_targets in
  Some (x_, y_, x_test_, y_test_).

End Normalise.

(** ** Notebook 04: [class CustomTorchAttn]

    [torch.nn.MultiheadAttention] is not unfolded: [attend Q K V] stands
    for the attention output of one call of the layer, [None] when the call
    raises.  Called with [need_weights=False] the layer returns the pair of
    that output and [None] in the place of the weights. *)

Module TorchAttn.
Import Attention.

(** What a name of [forward] may hold: a tensor, [None], or a pair. *)
Inductive Value :=
| VTensor (t : Tensor)
| VNone
| VPair (a b : Value).

(** [v.shape]: only a tensor has the attribute. *)
Definition shape_of (v : Value) : option (list nat) :=
  match v with
  | VTensor t => Some (shape t)
  | _ => None
  end.

(** [for it in v]: the items of a pair; iterating over a tensor or over
    [None] is not needed here. *)
Definition items_of (v : Value) : option (list Value) :=
  match v with
  | VPair a b => Some [a; b]
  | _ => None
  end.

(** A [Sequential] that starts with a convolution, called on a value: the
    convolution rejects everything but a tensor. *)
Definition call_layers (layers : list Layer) (v : Value) : option Tensor :=
  match v with
  | VTensor t => forward layers t
  | _ => None
  end.

Record CustomTorchAttn := {
  head_layers : list Layer;
  tail_layers : list Layer
}.

Definition CustomTorchAttn_init (inshape : list nat) (num_channels ksize : nat)
    (θ : Init) : option CustomTorchAttn :=
  num_inchannels ← head inshape;
  let padding := ksize / 2 in
  Some {| head_layers :=
            [ Conv1d (Torch.mkConv1d num_inchannels num_channels ksize 1 padding
                        (w_init θ 0) (Some (b_init θ 0)));
              ReLU;
              Conv1d (Torch.mkConv1d num_channels num_channels ksize 1 padding
                        (w_init θ 2) (Some (b_init θ 2)));
              ReLU ];
          tail_layers :=
            [ Conv1d (Torch.mkConv1d num_channels num_channels ksize 1 padding
                        (w_init θ 5) (Some (b_init θ 5)));
              ReLU;
              Conv1d (Torch.mkConv1d num_channels num_inchannels 1 1 0
                        (w_init θ 7) (Some (b_init θ 7))) ] |}.

Section Forward.
Variable attend : Tensor -> Tensor -> Tensor -> option Tensor.

(** [self.attn_layer(Q, K, V, need_weights=False)]. *)
Definition attn_layer (Q K V : Tensor) : option Value :=
  attn_output ← attend Q K V;
  Some (VPair (VTensor attn_output) VNone).

(** [CustomTorchAttn.forward]; the shapes of the items of [embedded] are
    computed for the [print]. *)
Definition CustomTorchAttn_forward (self : CustomTorchAttn) (x : Tensor)
  : option Tensor :=
  Q ← forward (head_layers self) x;
  K ← forward (head_layers self) x;
  V ← forward (head_layers self) x;
  embedded ← attn_layer Q K V;
  its ← items_of embedded;
  shapes ← mapM shape_of its;
  call_layers (tail_layers self) embedded.


End Forward.

End TorchAttn.

(** ** The training loops: which epochs are printed *)

Definition logged (max_epochs log_every epoch : nat) : bool :=
  (epoch mod log_every =? 0) || (epoch + 1 =? max_epochs).

(** Sample objects for the loops: a loader that yields one batch more than
    its length, and an optimizer without state. *)
Definition toy_long : DataLoader :=
  mkDataLoader 1 (fun _ => [toy_batch 1 2; toy_batch 3 4]).


(** A world that counts the optimizer steps and holds the training flag of
    the model, which [train()] and [eval()] write. *)
Definition flag_model : Model (nat * bool) :=
  {| call := fun _ X => Some X;
     set_training := fun b s => (s.1, b);
     backward := fun s _ _ => s |}.

Definition flag_opt : Optimizer (nat * bool) :=
  {| step := fun s => (S s.1, s.2); zero_grad := fun s => s |}.

Definition x_signal : Tensor :=
  {| shape := [2; 1; 64]; data := replicate 128 0%R |}.


(** ** Gradients on the heap

    The parameters at the addresses [ps] hold no gradient. *)
Definition no_grads (ps : list nat) (h : gmap nat Store.Param) : Prop :=
  forall a q, a ∈ ps -> h !! a = Some q -> Store.grad q = None.

(** A 1-d sample, as iterating over a data set without a loader yields. *)
Definition x_flat : Tensor := {| shape := [40]; data := replicate 40 0%R |}.

(** * Properties *)

(** ** Sums and indexing *)

Lemma Rsum_ext n f g :
  (forall i, i < n -> f i = g i) -> Rsum n f = Rsum n g.
Proof.
  induction n as [|n IH]; intros H; simpl; [reflexivity|].
  rewrite IH by (intros; apply H; lia).
  rewrite (H n) by lia. reflexivity.
Qed.

Lemma Rsum_pos n f :
  0 < n -> (forall i, i < n -> (0 < f i)%R) -> (0 < Rsum n f)%R.
Proof.
  induction n as [|n IH]; intros Hn H; [lia|].
  simpl. destruct n as [|n].
  - simpl. specialize (H 0 ltac:(lia)). lra.
  - assert (0 < Rsum (S n) f)%R by (apply IH; [lia|intros; apply H; lia]).
    specialize (H (S n) ltac:(lia)). lra.
Qed.

Lemma index3_div (B C L b c l : nat) :
  c < C -> l < L ->
  ((b * C + c) * L + l) / (C * L) = b /\
  (((b * C + c) * L + l) / L) mod C = c /\
  ((b * C + c) * L + l) mod L = l.
Proof.
  intros Hc Hl.
  assert (HL : L <> 0) by lia. assert (HC : C <> 0) by lia.
  assert (E1 : ((b * C + c) * L + l) / L = b * C + c).
  { rewrite Nat.div_add_l by lia. rewrite Nat.div_small by lia. lia. }
  repeat split.
  - replace ((b * C + c) * L + l) with (b * (C * L) + (c * L + l)) by lia.
    rewrite Nat.div_add_l by lia.
    rewrite Nat.div_small; [lia|]. nia.
  - rewrite E1. rewrite Nat.add_comm, Nat.Div0.mod_add.
    apply Nat.mod_small; lia.
  - rewrite Nat.add_comm, Nat.Div0.mod_add. apply Nat.mod_small; lia.
Qed.

Lemma index3_lt (B C L b c l : nat) :
  b < B -> c < C -> l < L -> (b * C + c) * L + l < B * C * L.
Proof.
  intros Hb Hc Hl.
  assert (H1 : b * C + c + 1 <= B * C) by nia.
  assert (H2 : (b * C + c + 1) * L <= B * C * L)
    by (apply Nat.mul_le_mono_r; exact H1).
  lia.
Qed.

Lemma get3_build3 (B C L : nat) f b c l :
  b < B -> c < C -> l < L -> get3 (build3 B C L f) b c l = f b c l.
Proof.
  intros Hb Hc Hl. unfold get3, build3; simpl.
  assert (Hi : (b * C + c) * L + l < B * C * L) by (apply index3_lt; lia).
  set (g := fun i => f (i / (C * L)) ((i / L) mod C) (i mod L)).
  rewrite (nth_indep _ 0%R (g 0)) by (rewrite length_map, length_seq; lia).
  rewrite (map_nth g (seq 0 (B * C * L)) 0).
  rewrite seq_nth by lia. unfold g; simpl.
  destruct (index3_div B C L b c l Hc Hl) as (-> & -> & ->). reflexivity.
Qed.

Lemma shape_build3 B C L f : shape (build3 B C L f) = [B; C; L].
Proof. reflexivity. Qed.

Lemma wf_build3 B C L f : wf (build3 B C L f).
Proof.
  unfold wf, build3; simpl. rewrite length_map, length_seq. lia.
Qed.

(** ** Soundness of shape inference *)

Lemma batched_sound f fs :
  (forall x, shape <$> f x = fs (shape x)) ->
  forall x, shape <$> Torch.batched f x = Shape.batched fs (shape x).
Proof.
  intros Hf x. unfold Torch.batched, Shape.batched.
  destruct (shape x) as [|a [|b [|c [|d r]]]] eqn:E; try reflexivity.
  - pose proof (Hf {| shape := [1; a; b]; data := data x |}) as H1.
    simpl in H1. rewrite <- H1. destruct (f _); reflexivity.
  - rewrite <- E. apply Hf.
Qed.

Lemma conv1d3_sound m x :
  shape <$> Torch.conv1d3 m x = Shape.conv1d3 m (shape x).
Proof.
  unfold Torch.conv1d3, Shape.conv1d3.
  destruct (shape x) as [|a [|b [|c [|d r]]]]; try reflexivity.
  destruct (Torch.conv1d_ok _ _ _); reflexivity.
Qed.

Lemma conv_transpose1d3_sound m x :
  shape <$> Torch.conv_transpose1d3 m x = Shape.conv_transpose1d3 m (shape x).
Proof.
  unfold Torch.conv_transpose1d3, Shape.conv_transpose1d3.
  destruct (shape x) as [|a [|b [|c [|d r]]]]; try reflexivity.
  destruct (Torch.conv_transpose1d_ok _ _ _); reflexivity.
Qed.

#[global] Instance Conv1d_ShapeSound : ShapeSound Torch.Conv1d.
Proof. intros m x. apply batched_sound, conv1d3_sound. Qed.

#[global] Instance ConvTranspose1d_ShapeSound : ShapeSound Torch.ConvTranspose1d.
Proof. intros m x. apply batched_sound, conv_transpose1d3_sound. Qed.

Lemma flatten_sound x : shape <$> Torch.flatten x = Shape.flatten (shape x).
Proof.
  unfold Torch.flatten, Shape.flatten.
  destruct (shape x) as [|a [|b r]]; reflexivity.
Qed.

Lemma unsqueeze_sound x dim :
  shape <$> Torch.unsqueeze x dim = Shape.unsqueeze dim (shape x).
Proof.
  unfold Torch.unsqueeze, Shape.unsqueeze, ndim.
  destruct (dim <=? _); reflexivity.
Qed.

Lemma transpose_last2_sound x :
  shape <$> Torch.transpose_last2 x = Shape.batched Shape.transpose3 (shape x).
Proof.
  apply batched_sound. intros y. unfold Torch.transpose3, Shape.transpose3.
  destruct (shape y) as [|a [|b [|c [|d r]]]]; reflexivity.
Qed.

Lemma matmul3_sound a b :
  shape <$> Torch.matmul3 a b = Shape.matmul3 (shape a) (shape b).
Proof.
  unfold Torch.matmul3, Shape.matmul3.
  destruct (shape a) as [|a1 [|a2 [|a3 [|a4 ra]]]]; try reflexivity.
  destruct (shape b) as [|b1 [|b2 [|b3 [|b4 rb]]]]; try reflexivity.
  destruct (_ && _); reflexivity.
Qed.

Lemma matmul_sound a b :
  shape <$> Torch.matmul a b = Shape.matmul (shape a) (shape b).
Proof.
  unfold Torch.matmul, Shape.matmul.
  destruct (shape a) as [|a1 [|a2 [|a3 [|a4 ra]]]] eqn:Ea; try reflexivity;
    destruct (shape b) as [|b1 [|b2 [|b3 [|b4 rb]]]] eqn:Eb; try reflexivity.
  - pose proof (matmul3_sound {| shape := [1; a1; a2]; data := data a |}
                               {| shape := [1; b1; b2]; data := data b |}) as H1.
    simpl shape in H1. rewrite <- H1. destruct (Torch.matmul3 _ _); reflexivity.
  - rewrite <- Ea, <- Eb. apply matmul3_sound.
Qed.

Lemma softmax_sound x dim :
  shape <$> Torch.softmax x dim = Shape.softmax dim (shape x).
Proof.
  unfold Torch.softmax, Shape.softmax, Torch.batched, Torch.softmax3.
  destruct (shape x) as [|a [|b [|c [|d r]]]] eqn:E; try reflexivity.
  - simpl. destruct (dim =? -1)%Z eqn:E1, (dim =? -2)%Z eqn:E2,
      (dim =? -3)%Z eqn:E3; try reflexivity; lia.
  - destruct (dim =? -1)%Z, (dim =? -2)%Z, (dim =? -3)%Z; reflexivity.
Qed.

Lemma chain_none fs : fold_left (fun acc f => acc ≫= f) fs None = @None (list nat).
Proof. induction fs; simpl; auto. Qed.

Lemma forward_none {M} `{Module M} (layers : list M) :
  fold_left (fun acc l => acc ≫= forward l) layers None = None.
Proof. induction layers; simpl; auto. Qed.

#[global] Instance Sequential_ShapeSound {M} `{ShapeSound M} : ShapeSound (list M).
Proof.
  intros layers. unfold forward, Sequential_Module, Sequential_forward,
    out_shape, Sequential_ShapeRule, Shape.chain.
  induction layers as [|l layers IH]; intros x; simpl; [reflexivity|].
  pose proof (shape_sound l x) as Hl.
  destruct (forward l x) as [y|] eqn:Ey; simpl in Hl; rewrite <- Hl.
  - apply IH.
  - rewrite forward_none, chain_none. reflexivity.
Qed.

#[global] Instance AE_Layer_ShapeSound : ShapeSound Autoencoders.Layer.
Proof.
  intros [m|m| |] x; simpl.
  - apply (shape_sound m).
  - apply (shape_sound m).
  - reflexivity.
  - apply flatten_sound.
Qed.

Lemma add_channel_dim_sound x :
  shape <$> Autoencoders.add_channel_dim x = add_channel_dim_shape (shape x).
Proof.
  unfold Autoencoders.add_channel_dim, add_channel_dim_shape, ndim.
  destruct (length (shape x) =? 2); [apply unsqueeze_sound|reflexivity].
Qed.

(** Two stages in a row: the shape of the result is the shape rule of the
    second applied to the shape rule of the first. *)
Lemma bind_sound (f g : Tensor -> option Tensor)
    (fs gs : list nat -> option (list nat)) :
  (forall x, shape <$> f x = fs (shape x)) ->
  (forall x, shape <$> g x = gs (shape x)) ->
  forall x, shape <$> (f x ≫= g) = fs (shape x) ≫= gs.
Proof.
  intros Hf Hg x. rewrite <- Hf. destruct (f x) as [y|]; simpl; [apply Hg|reflexivity].
Qed.

#[global] Instance MyEncoder_ShapeSound : ShapeSound Autoencoders.MyEncoder.
Proof.
  intros m x.
  apply (bind_sound Autoencoders.add_channel_dim
           (forward (Autoencoders.enc_layers m)) add_channel_dim_shape
           (out_shape (Autoencoders.enc_layers m))).
  - apply add_channel_dim_sound.
  - apply shape_sound.
Qed.

#[global] Instance MyDecoder_ShapeSound : ShapeSound Autoencoders.MyDecoder.
Proof.
  intros m x.
  apply (bind_sound Autoencoders.add_channel_dim
           (forward (Autoencoders.dec_layers m)) add_channel_dim_shape
           (out_shape (Autoencoders.dec_layers m))).
  - apply add_channel_dim_sound.
  - apply shape_sound.
Qed.

#[global] Instance MyAutoencoder_ShapeSound : ShapeSound Autoencoders.MyAutoencoder.
Proof.
  intros m x.
  apply (bind_sound (forward (Autoencoders.enc m)) (forward (Autoencoders.dec m))
           (out_shape (Autoencoders.enc m)) (out_shape (Autoencoders.dec m)));
    apply shape_sound.
Qed.

(** ** Notebook 03: encoder, decoder, autoencoder *)

Section AutoencoderShapes.
Import Autoencoders.

Lemma forward_shape_Some {M} `{ShapeSound M} (m : M) x s :
  out_shape m (shape x) = Some s ->
  exists y, forward m x = Some y /\ shape y = s.
Proof.
  intros Hs. pose proof (shape_sound m x) as Hm. rewrite Hs in Hm.
  destruct (forward m x) as [y|]; simpl in Hm; [|discriminate].
  exists y. split; [reflexivity|congruence].
Qed.

Lemma encoder_default_shape θ B :
  out_shape (MyEncoder_init default_nlayers default_nchannels θ) [B; 40]
    = Some [B; 10] /\
  out_shape (MyEncoder_init default_nlayers default_nchannels θ) [B; 1; 40]
    = Some [B; 10].
Proof. split; reflexivity. Qed.

Lemma decoder_default_shape θ B :
  out_shape (MyDecoder_init default_nlayers default_nchannels θ) [B; 10]
    = Some [B; 1; 40].
Proof. reflexivity. Qed.

Lemma autoencoder_default_shape θe θd B :
  out_shape (MyAutoencoder_init default_nlayers default_nchannels θe θd) [B; 40]
    = Some [B; 1; 40] /\
  out_shape (MyAutoencoder_init default_nlayers default_nchannels θe θd) [B; 1; 40]
    = Some [B; 1; 40].
Proof. split; reflexivity. Qed.

End AutoencoderShapes.

Section AutoencoderClaims.
Import Autoencoders.

(** C5, as stated, fails: on the 2-d batch [Xtest] of shape (8, 40) the
    autoencoder returns a tensor whose shape differs from the shape of
    its input (it is (8, 1, 40)). *)
Lemma MyAutoencoder_shape_2d_differs :
  exists y, forward default_autoencoder Xtest = Some y /\
            shape y = [8; 1; 40] /\ shape y <> shape Xtest.
Proof.
  destruct (forward_shape_Some default_autoencoder Xtest [8; 1; 40])
    as (y & Hy & Hs); [reflexivity|].
  exists y. repeat split; [exact Hy|exact Hs|]. rewrite Hs. discriminate.
Qed.

(** C5, amended: with the default configuration, for every batch size and
    every input of shape (batch, 40) or (batch, 1, 40) the autoencoder
    returns a tensor of shape (batch, 1, 40).  That is the shape of a 3-d
    input; for a 2-d input it is the input shape with a channel axis
    added, which [squeeze(1)] removes again. *)
Theorem MyAutoencoder_output_shape (θe θd : Init) (B : nat) (d : list R) :
  let m := MyAutoencoder_init default_nlayers default_nchannels θe θd in
  (exists y, forward m (mkTensor [B; 1; 40] d) = Some y /\
             shape y = [B; 1; 40]) /\
  (exists y, forward m (mkTensor [B; 40] d) = Some y /\
             shape y = [B; 1; 40] /\ shape (squeeze1 y) = [B; 40]).
Proof.
  intros m. split.
  - apply (forward_shape_Some m). reflexivity.
  - destruct (forward_shape_Some m (mkTensor [B; 40] d) [B; 1; 40])
      as (y & Hy & Hs); [reflexivity|].
    exists y. repeat split; [exact Hy|exact Hs|].
    unfold squeeze1. rewrite Hs. reflexivity.
Qed.

(** C6: the autoencoder is the decoder applied to the output of the
    encoder, and with the default configuration the encoder maps inputs
    of width 40, with or without channel axis, to latent vectors of
    width 10, which is less than 40. *)
Theorem MyAutoencoder_bottleneck :
  (forall (m : MyAutoencoder) (x : Tensor),
      forward m x = forward (enc m) x ≫= forward (dec m)) /\
  (forall (θ : Init) (B : nat) (d : list R),
      let e := MyEncoder_init default_nlayers default_nchannels θ in
      (exists h, forward e (mkTensor [B; 40] d) = Some h /\ shape h = [B; 10]) /\
      (exists h, forward e (mkTensor [B; 1; 40] d) = Some h /\
                 shape h = [B; 10])) /\
  10 < 40.
Proof.
  split; [|split].
  - intros m x. reflexivity.
  - intros θ B d e. split; apply (forward_shape_Some e); reflexivity.
  - lia.
Qed.

Lemma unsqueeze_2d (x : Tensor) :
  ndim x = 2 ->
  exists x3, Torch.unsqueeze x 1 = Some x3 /\ ndim x3 = 3 /\ data x3 = data x.
Proof.
  intros H. unfold Torch.unsqueeze. rewrite H. simpl.
  eexists. split; [reflexivity|]. split; [|reflexivity].
  unfold ndim in *. simpl.
  destruct (shape x) as [|a [|b [|c r]]]; try discriminate. reflexivity.
Qed.

Lemma add_channel_dim_2d (x x3 : Tensor) :
  ndim x = 2 -> Torch.unsqueeze x 1 = Some x3 ->
  add_channel_dim x = Some x3 /\ add_channel_dim x3 = Some x3.
Proof.
  intros H2 Hu. destruct (unsqueeze_2d x H2) as (x3' & Hu' & H3 & _).
  assert (x3' = x3) as -> by congruence.
  unfold add_channel_dim. rewrite H2, H3. simpl. auto.
Qed.

(** C9: on a 2-d input the encoder and the decoder return what they
    return on the 3-d tensor [unsqueeze(x, dim=1)]. *)
Theorem forward_channel_dim_optional
    (e : MyEncoder) (dc : MyDecoder) (x : Tensor) :
  ndim x = 2 ->
  exists x3, Torch.unsqueeze x 1 = Some x3 /\
             forward e x = forward e x3 /\
             forward dc x = forward dc x3.
Proof.
  intros H2. destruct (unsqueeze_2d x H2) as (x3 & Hu & _).
  destruct (add_channel_dim_2d x x3 H2 Hu) as [Hx Hx3].
  exists x3. split; [exact Hu|].
  split.
  - change (add_channel_dim x ≫= forward (enc_layers e)
            = add_channel_dim x3 ≫= forward (enc_layers e)).
    rewrite Hx, Hx3. reflexivity.
  - change (add_channel_dim x ≫= forward (dec_layers dc)
            = add_channel_dim x3 ≫= forward (dec_layers dc)).
    rewrite Hx, Hx3. reflexivity.
Qed.

Lemma forward_channel_dim_optional_witness :
  ndim Xtest = 2 /\
  exists x3, Torch.unsqueeze Xtest 1 = Some x3 /\
    forward (enc default_autoencoder) Xtest
      = forward (enc default_autoencoder) x3 /\
    forward (dec default_autoencoder) Xtest
      = forward (dec default_autoencoder) x3.
Proof.
  split; [reflexivity|].
  apply (forward_channel_dim_optional (enc default_autoencoder)
           (dec default_autoencoder) Xtest).
  reflexivity.
Defined.

End AutoencoderClaims.

(** ** Notebook 04: the attention layer *)

Section AttentionEntries.
Import Attention.

Lemma conv1d_3d (m : Torch.Conv1d) (x : Tensor) (B C L : nat) :
  shape x = [B; C; L] ->
  forward m x = Torch.conv1d3 m x.
Proof.
  intros Hs. unfold forward, Conv1d_Module, Torch.conv1d, Torch.batched.
  rewrite Hs. reflexivity.
Qed.

(** A bias free 1x1 convolution on a non-empty sequence. *)
Lemma conv1x1_forward (cin cout : nat) w (x : Tensor) (B L : nat) :
  shape x = [B; cin; L] -> 1 <= L ->
  exists y, forward (Torch.mkConv1d cin cout 1 1 0 w None) x = Some y /\
    shape y = [B; cout; L] /\
    forall b o l, b < B -> o < cout -> l < L ->
      get3 y b o l = Formula.proj w cin x b o l.
Proof.
  intros Hs HL. rewrite (conv1d_3d _ x B cin L Hs).
  unfold Torch.conv1d3. rewrite Hs.
  assert (Hok : Torch.conv1d_ok (Torch.mkConv1d cin cout 1 1 0 w None) cin L
                = true).
  { unfold Torch.conv1d_ok. cbn [Torch.in_channels Torch.kernel_size
      Torch.stride Torch.padding]. rewrite Nat.eqb_refl.
    replace (1 <=? L + 2 * 0) with true
      by (symmetry; apply Nat.leb_le; lia). reflexivity. }
  rewrite Hok.
  cbn [Torch.in_channels Torch.out_channels Torch.kernel_size Torch.stride
       Torch.padding Torch.weight Torch.bias Torch.bias_at].
  assert (Hlen : Torch.conv_out_len L 1 1 0 = L).
  { unfold Torch.conv_out_len. rewrite Nat.div_1_r. lia. }
  rewrite Hlen. eexists. split; [reflexivity|]. split; [reflexivity|].
  intros b o l Hb Ho Hl. rewrite get3_build3 by assumption.
  unfold Formula.proj. rewrite Rplus_0_l. apply Rsum_ext. intros c Hc.
  simpl. unfold Torch.padded. simpl.
  replace (l * 1 + 0) with l by lia.
  destruct (l <? L) eqn:E2; [|apply Nat.ltb_ge in E2; lia].
  replace (l - 0) with l by lia. lra.
Qed.

Lemma transpose_3d (x : Tensor) (B n m : nat) :
  shape x = [B; n; m] ->
  Torch.transpose_last2 x = Some (build3 B m n (fun b i j => get3 x b j i)).
Proof.
  intros Hs. unfold Torch.transpose_last2, Torch.batched, Torch.transpose3.
  rewrite Hs. reflexivity.
Qed.

Lemma matmul_3d (a b : Tensor) (B n m p : nat) :
  shape a = [B; n; m] -> shape b = [B; m; p] ->
  Torch.matmul a b =
    Some (build3 B n p (fun b0 i j =>
            Rsum m (fun k => (get3 a b0 i k * get3 b b0 k j)%R))).
Proof.
  intros Ha Hb. unfold Torch.matmul, Torch.matmul3. rewrite Ha, Hb.
  rewrite !Nat.eqb_refl. reflexivity.
Qed.

Lemma softmax_3d_rows (x : Tensor) (B n m : nat) :
  shape x = [B; n; m] ->
  Torch.softmax x (-2) =
    Some (build3 B n m (fun b i j =>
            (exp (get3 x b i j) / Rsum n (fun i' => exp (get3 x b i' j)))%R)).
Proof.
  intros Hs. unfold Torch.softmax, Torch.softmax3. rewrite Hs. reflexivity.
Qed.

Lemma softmax_3d_last (x : Tensor) (B n m : nat) :
  shape x = [B; n; m] ->
  Torch.softmax x (-1) =
    Some (build3 B n m (fun b i j =>
            (exp (get3 x b i j) / Rsum m (fun j' => exp (get3 x b i j')))%R)).
Proof.
  intros Hs. unfold Torch.softmax, Torch.softmax3. rewrite Hs. reflexivity.
Qed.

Lemma get3_scale (c : R) (t : Tensor) (b i j : nat) :
  get3 (scale c t) b i j = (get3 t b i j / c)%R.
Proof.
  unfold get3, scale; simpl.
  destruct (shape t) as [|s1 [|s2 [|s3 [|s4 r]]]]; try (unfold Rdiv; ring).
  rewrite <- (map_nth (fun v => (v / c)%R)). f_equal. unfold Rdiv; ring.
Qed.

(** The matrix of attention weights and its entries, for a score map
    [pre] acting entry by entry as [h], and a softmax along -1 or -2. *)
Lemma attention_weights_with_entries (pre : Tensor -> Tensor) (h : R -> R)
    (dim : Z) (C n : nat) (θ : Init) (x : Tensor) (B L : nat) :
  (forall t, shape (pre t) = shape t) ->
  (forall t b i j, get3 (pre t) b i j = h (get3 t b i j)) ->
  dim = (-1)%Z \/ dim = (-2)%Z ->
  shape x = [B; C; L] -> 1 <= L ->
  exists A, AttentionWeights.attention_weights_with pre dim
              (SelfAttention_init C n n θ) x = Some A /\
    shape A = [B; n; n] /\
    forall b i j, b < B -> i < n -> j < n ->
      get3 A b i j =
        Formula.weight_with h dim (w_init θ 0) (w_init θ 1) C n L x b i j.
Proof.
  intros Hps Hpg Hdim Hs HL.
  destruct (conv1x1_forward C n (w_init θ 0) x B L Hs HL) as (Q & HQ & sQ & eQ).
  destruct (conv1x1_forward C n (w_init θ 1) x B L Hs HL) as (K & HK & sK & eK).
  unfold AttentionWeights.attention_weights_with, SelfAttention_init.
  cbn [conv_Q conv_K conv_V]. rewrite HQ, HK. cbn [mbind option_bind].
  rewrite (transpose_3d K B n L sK). cbn [mbind option_bind].
  rewrite (matmul_3d Q _ B n L n sQ (shape_build3 _ _ _ _)).
  cbn [mbind option_bind].
  set (S := build3 B n n _).
  assert (Hsc : forall i' j', i' < n -> j' < n ->
    forall b, b < B ->
    get3 (pre S) b i' j' =
      h (Formula.score (w_init θ 0) (w_init θ 1) C L x b i' j')).
  { intros i' j' Hi' Hj' b Hb. rewrite Hpg. f_equal. unfold S.
    rewrite get3_build3 by assumption.
    unfold Formula.score. apply Rsum_ext. intros l Hl.
    rewrite get3_build3 by assumption. rewrite eQ, eK by assumption.
    reflexivity. }
  assert (HS : shape (pre S) = [B; n; n]) by (rewrite Hps; reflexivity).
  destruct Hdim as [-> | ->].
  - rewrite (softmax_3d_last _ B n n HS).
    eexists. split; [reflexivity|]. split; [reflexivity|].
    intros b i j Hb Hi Hj. rewrite get3_build3 by assumption.
    unfold Formula.weight_with. simpl (_ =? _)%Z. cbv iota.
    rewrite (Hsc i j Hi Hj b Hb).
    rewrite (Rsum_ext n _ (fun j' =>
       exp (h (Formula.score (w_init θ 0) (w_init θ 1) C L x b i j'))));
      [reflexivity|].
    intros j' Hj'. rewrite (Hsc i j' Hi Hj' b Hb). reflexivity.
  - rewrite (softmax_3d_rows _ B n n HS).
    eexists. split; [reflexivity|]. split; [reflexivity|].
    intros b i j Hb Hi Hj. rewrite get3_build3 by assumption.
    unfold Formula.weight_with. simpl (_ =? _)%Z. cbv iota.
    rewrite (Hsc i j Hi Hj b Hb).
    rewrite (Rsum_ext n _ (fun i' =>
       exp (h (Formula.score (w_init θ 0) (w_init θ 1) C L x b i' j))));
      [reflexivity|].
    intros i' Hi'. rewrite (Hsc i' j Hi' Hj b Hb). reflexivity.
Qed.

Lemma attention_weights_entries (C n : nat) (θ : Init) (x : Tensor) (B L : nat) :
  shape x = [B; C; L] -> 1 <= L ->
  exists A, AttentionWeights.attention_weights (SelfAttention_init C n n θ) x
              = Some A /\
    shape A = [B; n; n] /\
    forall b i j, b < B -> i < n -> j < n ->
      get3 A b i j = Formula.weight (w_init θ 0) (w_init θ 1) C n L x b i j.
Proof.
  intros Hs HL.
  apply (attention_weights_with_entries (fun t => t) (fun s => s) (-2)
           C n θ x B L); auto.
Qed.

Lemma forward_factor (self : SelfAttention) (x : Tensor) :
  forward self x =
    (V ← forward (conv_V self) x;
     A ← AttentionWeights.attention_weights self x;
     Torch.matmul A V).
Proof.
  unfold forward at 1, SelfAttention_forward,
    AttentionWeights.attention_weights.
  destruct (forward (conv_Q self) x) as [Q|];
    destruct (forward (conv_K self) x) as [K|];
    destruct (forward (conv_V self) x) as [V|]; simpl; try reflexivity.
  destruct (Torch.transpose_last2 K) as [K_t|]; simpl; [|reflexivity].
  destruct (Torch.matmul Q K_t) as [A_|]; simpl; [|reflexivity].
  destruct (Torch.softmax A_ (-2)); reflexivity.
Qed.

Lemma scaled_factor (dim : Z) (self : SelfAttention) (x : Tensor) :
  scaled_dot_product_attention dim self x =
    (V ← forward (conv_V self) x;
     A ← AttentionWeights.attention_weights_with
           (scale (sqrt (INR (Torch.out_channels (conv_K self))))) dim self x;
     Torch.matmul A V).
Proof.
  unfold scaled_dot_product_attention,
    AttentionWeights.attention_weights_with.
  destruct (forward (conv_Q self) x) as [Q|];
    destruct (forward (conv_K self) x) as [K|];
    destruct (forward (conv_V self) x) as [V|]; simpl; try reflexivity.
  destruct (Torch.transpose_last2 K) as [K_t|]; simpl; [|reflexivity].
  destruct (Torch.matmul Q K_t) as [A_|]; simpl; [|reflexivity].
  destruct (Torch.softmax _ dim); reflexivity.
Qed.

(** Weights times values. *)
Lemma attention_output_entries (pre : Tensor -> Tensor) (h : R -> R)
    (dim : Z) (C n : nat) (θ : Init) (x : Tensor) (B L : nat) :
  (forall t, shape (pre t) = shape t) ->
  (forall t b i j, get3 (pre t) b i j = h (get3 t b i j)) ->
  dim = (-1)%Z \/ dim = (-2)%Z ->
  shape x = [B; C; L] -> 1 <= L ->
  exists y,
    (V ← forward (conv_V (SelfAttention_init C n n θ)) x;
     A ← AttentionWeights.attention_weights_with pre dim
           (SelfAttention_init C n n θ) x;
     Torch.matmul A V) = Some y /\
    shape y = [B; n; L] /\
    forall b i l, b < B -> i < n -> l < L ->
      get3 y b i l =
        Formula.output_with h dim (w_init θ 0) (w_init θ 1) (w_init θ 2)
          C n L x b i l.
Proof.
  intros Hps Hpg Hdim Hs HL.
  destruct (conv1x1_forward C n (w_init θ 2) x B L Hs HL) as (V & HV & sV & eV).
  destruct (attention_weights_with_entries pre h dim C n θ x B L
              Hps Hpg Hdim Hs HL) as (A & HA & sA & eA).
  rewrite HA. unfold SelfAttention_init at 1. cbn [conv_V]. rewrite HV.
  cbn [mbind option_bind].
  rewrite (matmul_3d A V B n n L sA sV).
  eexists. split; [reflexivity|]. split; [reflexivity|].
  intros b i l Hb Hi Hl. rewrite get3_build3 by assumption.
  unfold Formula.output_with. apply Rsum_ext. intros j Hj.
  rewrite eA, eV by assumption. reflexivity.
Qed.

(** The stages of [SelfAttention.forward] on a batch with at least one
    position: every primitive returns, with these shapes, and the result
    of each is what the next one is called on. *)
Lemma forward_stages (C n : nat) (θ : Init) (x : Tensor) (B L : nat) :
  shape x = [B; C; L] -> 1 <= L ->
  exists Q K V K_t S A y,
    (forward (conv_Q (SelfAttention_init C n n θ)) x = Some Q /\
     forward (conv_K (SelfAttention_init C n n θ)) x = Some K /\
     forward (conv_V (SelfAttention_init C n n θ)) x = Some V) /\
    (shape Q = [B; n; L] /\ shape K = [B; n; L] /\ shape V = [B; n; L]) /\
    (Torch.transpose_last2 K = Some K_t /\ shape K_t = [B; L; n]) /\
    (Torch.matmul Q K_t = Some S /\ shape S = [B; n; n]) /\
    (Torch.softmax S (-2) = Some A /\ shape A = [B; n; n]) /\
    (Torch.matmul A V = Some y /\ shape y = [B; n; L]) /\
    forward (SelfAttention_init C n n θ) x = Some y.
Proof.
  intros Hs HL.
  destruct (conv1x1_forward C n (w_init θ 0) x B L Hs HL) as (Q & HQ & sQ & _).
  destruct (conv1x1_forward C n (w_init θ 1) x B L Hs HL) as (K & HK & sK & _).
  destruct (conv1x1_forward C n (w_init θ 2) x B L Hs HL) as (V & HV & sV & _).
  pose proof (transpose_3d K B n L sK) as HKt.
  set (K_t := build3 B L n (fun b i j => get3 K b j i)) in HKt.
  assert (sKt : shape K_t = [B; L; n]) by reflexivity.
  pose proof (matmul_3d Q K_t B n L n sQ sKt) as HS.
  set (S := build3 B n n _) in HS.
  assert (sS : shape S = [B; n; n]) by reflexivity.
  pose proof (softmax_3d_rows S B n n sS) as HA.
  set (A := build3 B n n _) in HA.
  assert (sA : shape A = [B; n; n]) by reflexivity.
  pose proof (matmul_3d A V B n n L sA sV) as Hy.
  set (y := build3 B n L _) in Hy.
  exists Q, K, V, K_t, S, A, y.
  unfold SelfAttention_init. cbn [conv_Q conv_K conv_V].
  repeat split; try assumption; try reflexivity.
  unfold forward at 1, SelfAttention_forward. cbn [conv_Q conv_K conv_V].
  rewrite HQ, HK, HV. cbn [mbind option_bind].
  rewrite HKt. cbn [mbind option_bind].
  rewrite HS. cbn [mbind option_bind].
  rewrite HA. cbn [mbind option_bind]. exact Hy.
Qed.

(** An entry of a matrix product is determined by one row of the left and
    one column of the right factor. *)
Lemma matmul_entry_local (A V y : Tensor) (B n L : nat) :
  shape A = [B; n; n] -> shape V = [B; n; L] ->
  Torch.matmul A V = Some y ->
  mixes_channels B n L A V y.
Proof.
  intros sA sV Hy A' V' y' b i l sA' sV' Hy' Hb Hi Hl HA HV.
  rewrite (matmul_3d A V B n n L sA sV) in Hy. injection Hy as <-.
  rewrite (matmul_3d A' V' B n n L sA' sV') in Hy'. injection Hy' as <-.
  rewrite !get3_build3 by assumption.
  apply Rsum_ext. intros j Hj. rewrite HA, HV by exact Hj. reflexivity.
Qed.

End AttentionEntries.

Section AttentionExamples.
Import Attention.

(** The output formula on [attn2] and [x_one], for any entrywise score
    map and both softmax axes: the scores are [[1, 0], [0, 0]] and the
    values [1, 0]. *)
Lemma output_attn2_x_one (pre : R -> R) (dim : Z) :
  dim = (-1)%Z \/ dim = (-2)%Z ->
  Formula.output_with pre dim (w_init unit_init 0) (w_init unit_init 1)
    (w_init unit_init 2) 1 2 1 x_one 0 0 0
  = (exp (pre 1) / (exp (pre 1) + exp (pre 0)))%R.
Proof.
  intros Hdim.
  assert (Hp : (0 < exp (pre 1) + exp (pre 0))%R).
  { pose proof (exp_pos (pre 1%R)). pose proof (exp_pos (pre 0%R)). lra. }
  assert (Hq : (0 < exp (pre 0) + exp (pre 0))%R).
  { pose proof (exp_pos (pre 0%R)). lra. }
  unfold Formula.output_with, Formula.weight_with, Formula.score, Formula.proj.
  destruct Hdim as [-> | ->]; simpl; unfold get3; simpl;
    replace (0 + (0 + 1 * 1) * (0 + 1 * 1))%R with 1%R by lra;
    replace (0 + (0 + 0 * 1) * (0 + 1 * 1))%R with 0%R by lra;
    replace (0 + (0 + 1 * 1) * (0 + 0 * 1))%R with 0%R by lra;
    replace (0 + (0 + 0 * 1) * (0 + 0 * 1))%R with 0%R by lra;
    field; lra.
Qed.

Lemma sqrt2_neq_1 : sqrt (INR 2) <> 1%R.
Proof.
  intros H. pose proof (sqrt_sqrt (INR 2)) as Hs.
  rewrite H in Hs. simpl in Hs. lra.
Qed.

(** [t / (t + 1)] is injective on the positive reals. *)
Lemma ratio_inj (s t u : R) :
  (0 < s)%R -> (0 < t)%R -> (0 < u)%R ->
  (s / (s + u) = t / (t + u))%R -> s = t.
Proof.
  intros Hs Ht Hu H.
  apply (f_equal (fun v => (v * (s + u) * (t + u))%R)) in H.
  field_simplify in H; try lra. nra.
Qed.

Lemma Rsum_scale (n : nat) (f : nat -> R) (c : R) :
  Rsum n (fun i => (f i / c)%R) = (Rsum n f / c)%R.
Proof.
  induction n as [|n IH]; simpl.
  - unfold Rdiv. ring.
  - rewrite IH. unfold Rdiv. ring.
Qed.

(** What the softmax along axis -2 does guarantee: every column of the
    weight matrix sums to 1. *)
Lemma weight_columns_sum wQ wK C n L x b j :
  0 < n -> Rsum n (fun i => Formula.weight wQ wK C n L x b i j) = 1%R.
Proof.
  intros Hn. unfold Formula.weight, Formula.weight_with. simpl (_ =? _)%Z.
  cbv iota.
  rewrite (Rsum_scale n (fun i => exp (Formula.score wQ wK C L x b i j))).
  apply Rdiv_diag.
  assert (0 < Rsum n (fun i => exp (Formula.score wQ wK C L x b i j)))%R
    by (apply Rsum_pos; [lia|intros; apply exp_pos]).
  lra.
Qed.

End AttentionExamples.

Section AttentionClaims.
Import Attention.

(** C1, amended: for an input of shape (batch, C, L) with at least one
    channel and one position, and a layer whose key and output channel
    counts are both [n >= 1], [SelfAttention.forward] returns a tensor of
    shape (batch, n, L), computed in these stages: queries, keys and
    values, each of shape (batch, n, L), are the results of the three bias
    free 1x1 convolutions on the input; the scores are
    [matmul(Q, transpose(K))], of shape (batch, n, n); the softmax is
    called on the scores as they are, nothing divides them by
    [sqrt(key_channels)]; and the output is [matmul(A, V)] for the matrix
    [A] the softmax call returns.  Along which axis that call normalises
    is the matter of C2 and no part of this statement. *)
Theorem SelfAttention_forward_formula
    (C n : nat) (θ : Init) (x : Tensor) (B L : nat) :
  shape x = [B; C; L] -> 1 <= C -> 1 <= n -> 1 <= L ->
  let self := SelfAttention_init C n n θ in
  exists Q K V K_t S A y,
    (forward (conv_Q self) x = Some Q /\
     forward (conv_K self) x = Some K /\
     forward (conv_V self) x = Some V) /\
    (shape Q = [B; n; L] /\ shape K = [B; n; L] /\ shape V = [B; n; L]) /\
    Torch.transpose_last2 K = Some K_t /\
    (Torch.matmul Q K_t = Some S /\ shape S = [B; n; n]) /\
    ((exists dim, Torch.softmax S dim = Some A) /\ shape A = [B; n; n]) /\
    (Torch.matmul A V = Some y /\ shape y = [B; n; L]) /\
    forward self x = Some y.
Proof.
  intros Hs _ _ HL self.
  destruct (forward_stages C n θ x B L Hs HL)
    as (Q & K & V & K_t & S & A & y & Hconv & Hshapes & [HKt _] & HS
        & [HA sA] & Hy & Hfwd).
  exists Q, K, V, K_t, S, A, y.
  split; [exact Hconv|]. split; [exact Hshapes|]. split; [exact HKt|].
  split; [exact HS|]. split; [|split; [exact Hy|exact Hfwd]].
  split; [exists (-2)%Z; exact HA|exact sA].
Qed.

Lemma SelfAttention_forward_formula_witness :
  exists Q K V K_t S A y,
    (forward (conv_Q attn2) x_one = Some Q /\
     forward (conv_K attn2) x_one = Some K /\
     forward (conv_V attn2) x_one = Some V) /\
    (shape Q = [1; 2; 1] /\ shape K = [1; 2; 1] /\ shape V = [1; 2; 1]) /\
    Torch.transpose_last2 K = Some K_t /\
    (Torch.matmul Q K_t = Some S /\ shape S = [1; 2; 2]) /\
    ((exists dim, Torch.softmax S dim = Some A) /\ shape A = [1; 2; 2]) /\
    (Torch.matmul A V = Some y /\ shape y = [1; 2; 1]) /\
    forward attn2 x_one = Some y.
Proof.
  apply (SelfAttention_forward_formula 1 2 unit_init x_one 1 1);
    [reflexivity|lia|lia|lia].
Defined.

(** The formula of the specification on the same inputs. *)
Lemma scaled_attention_formula
    (dim : Z) (C n : nat) (θ : Init) (x : Tensor) (B L : nat) :
  dim = (-1)%Z \/ dim = (-2)%Z ->
  shape x = [B; C; L] -> 1 <= L ->
  exists y, scaled_dot_product_attention dim (SelfAttention_init C n n θ) x
              = Some y /\
    forall b i l, b < B -> i < n -> l < L ->
      get3 y b i l =
        Formula.output_with (fun s => (s / sqrt (INR n))%R) dim
          (w_init θ 0) (w_init θ 1) (w_init θ 2) C n L x b i l.
Proof.
  intros Hdim Hs HL. rewrite scaled_factor.
  destruct (attention_output_entries (scale (sqrt (INR n)))
              (fun s => (s / sqrt (INR n))%R) dim C n θ x B L)
    as (y & Hy & _ & Ey); auto.
  - intros t b i j. apply get3_scale.
  - exists y. split; [exact Hy|exact Ey].
Qed.

Lemma forward_differs_from_scaled (dim : Z) :
  dim = (-1)%Z \/ dim = (-2)%Z ->
  forward attn2 x_one <> scaled_dot_product_attention dim attn2 x_one.
Proof.
  intros Hdim Heq.
  destruct (attention_output_entries (fun t => t) (fun s => s) (-2)
              1 2 unit_init x_one 1 1)
    as (y & Hy0 & _ & Ey); auto.
  assert (Hy : forward attn2 x_one = Some y)
    by (rewrite forward_factor; exact Hy0).
  destruct (scaled_attention_formula dim 1 2 unit_init x_one 1 1 Hdim)
    as (y' & Hy' & Ey'); [reflexivity|lia|].
  fold attn2 in Hy'. rewrite Hy, Hy' in Heq.
  assert (y = y') as <- by congruence.
  specialize (Ey 0 0 0 ltac:(lia) ltac:(lia) ltac:(lia)).
  specialize (Ey' 0 0 0 ltac:(lia) ltac:(lia) ltac:(lia)).
  rewrite Ey in Ey'. unfold Formula.output in Ey'.
  rewrite (output_attn2_x_one (fun s => s) (-2)) in Ey' by auto.
  rewrite (output_attn2_x_one _ dim Hdim) in Ey'.
  replace (0 / sqrt (INR 2))%R with 0%R in Ey' by (unfold Rdiv; ring).
  apply ratio_inj in Ey'; try apply exp_pos.
  apply exp_inv in Ey'.
  apply sqrt2_neq_1.
  assert (Hpos : (0 < sqrt (INR 2))%R)
    by (apply sqrt_lt_R0; simpl; lra).
  apply (f_equal (fun v => (v * sqrt (INR 2))%R)) in Ey'.
  field_simplify in Ey'; lra.
Qed.

(** C1, as stated, fails: on the two channel layer [attn2] and the input
    [x_one] the layer returns a tensor, and that tensor is not the one
    scaled dot-product attention yields, whichever of the two matrix
    axes the softmax of the formula runs along. *)
Lemma SelfAttention_forward_not_scaled :
  (exists y, forward attn2 x_one = Some y) /\
  forward attn2 x_one <> scaled_dot_product_attention (-1) attn2 x_one /\
  forward attn2 x_one <> scaled_dot_product_attention (-2) attn2 x_one.
Proof.
  split; [|split].
  - rewrite forward_factor.
    destruct (attention_output_entries (fun t => t) (fun s => s) (-2)
                1 2 unit_init x_one 1 1) as (y & Hy & _); auto.
    exists y. exact Hy.
  - apply forward_differs_from_scaled. auto.
  - apply forward_differs_from_scaled. auto.
Qed.

Lemma weight_attn2_x_one :
  Formula.weight (w_init unit_init 0) (w_init unit_init 1) 1 2 1 x_one 0 0 0
    = (exp 1 / (exp 1 + 1))%R /\
  Formula.weight (w_init unit_init 0) (w_init unit_init 1) 1 2 1 x_one 0 0 1
    = (1 / 2)%R.
Proof.
  pose proof (exp_pos 1%R) as Hp.
  unfold Formula.weight, Formula.weight_with, Formula.score, Formula.proj.
  simpl; unfold get3; simpl.
  replace (0 + (0 + 1 * 1) * (0 + 1 * 1))%R with 1%R by lra.
  replace (0 + (0 + 0 * 1) * (0 + 1 * 1))%R with 0%R by lra.
  replace (0 + (0 + 1 * 1) * (0 + 0 * 1))%R with 0%R by lra.
  replace (0 + (0 + 0 * 1) * (0 + 0 * 1))%R with 0%R by lra.
  rewrite exp_0. split; field; lra.
Qed.

(** C2 at a concrete input: on [attn2] and [x_one] the weight matrix the
    layer builds has row 0 summing to [e/(e+1) + 1/2], which is not 1;
    what sums to 1 is every column, because the softmax runs along
    axis -2. *)
Theorem attention_rows_not_stochastic :
  exists A, AttentionWeights.attention_weights attn2 x_one = Some A /\
    Rsum 2 (fun j => get3 A 0 0 j) = (exp 1 / (exp 1 + 1) + 1 / 2)%R /\
    Rsum 2 (fun j => get3 A 0 0 j) <> 1%R /\
    (forall j, j < 2 -> Rsum 2 (fun i => get3 A 0 i j) = 1%R).
Proof.
  destruct (attention_weights_entries 1 2 unit_init x_one 1 1)
    as (A & HA & _ & EA); [reflexivity|lia|].
  exists A. split; [exact HA|].
  destruct weight_attn2_x_one as [W0 W1].
  assert (Hrow : Rsum 2 (fun j => get3 A 0 0 j)
                 = (exp 1 / (exp 1 + 1) + 1 / 2)%R).
  { simpl. rewrite !EA by lia. rewrite W0, W1. ring. }
  split; [exact Hrow|]. split.
  - rewrite Hrow. intros H.
    pose proof (exp_ineq1 1 ltac:(lra)) as He.
    assert (Hq : (exp 1 / (exp 1 + 1) = 1 / 2)%R) by lra.
    apply (f_equal (fun v => (v * (2 * (exp 1 + 1)))%R)) in Hq.
    field_simplify in Hq; lra.
  - intros j Hj.
    rewrite (Rsum_ext 2 _ (fun i =>
      Formula.weight (w_init unit_init 0) (w_init unit_init 1) 1 2 1
        x_one 0 i j)).
    + apply weight_columns_sum. lia.
    + intros i Hi. apply EA; lia.
Qed.

(** C3, amended: the layer applies no mask: the softmax is called on the
    scores [matmul(Q, transpose(K))] as they are.  For an input of shape
    (batch, C, L) with at least one channel and one position (and [n >= 1]
    key and output channels) the weights [A] the softmax returns have
    shape (batch, n, n), one weight for every pair of channels, the values
    [V] have shape (batch, n, L), and the output is [matmul(A, V)]: its
    entry at channel [i] and position [l] is determined by row [i] of the
    weights and the [n] value channels at that same position [l].  The
    values at other positions enter it through the weights only, which
    come from the query-key products taken over all positions. *)
Theorem SelfAttention_mixes_channels
    (C n : nat) (θ : Init) (x : Tensor) (B L : nat) :
  shape x = [B; C; L] -> 1 <= C -> 1 <= n -> 1 <= L ->
  let self := SelfAttention_init C n n θ in
  exists Q K K_t S A V y,
    (forward (conv_Q self) x = Some Q /\ forward (conv_K self) x = Some K /\
     Torch.transpose_last2 K = Some K_t /\ Torch.matmul Q K_t = Some S) /\
    (exists dim, Torch.softmax S dim = Some A) /\
    AttentionWeights.attention_weights self x = Some A /\
    forward (conv_V self) x = Some V /\
    (shape A = [B; n; n] /\ shape V = [B; n; L] /\ shape y = [B; n; L]) /\
    Torch.matmul A V = Some y /\
    forward self x = Some y /\
    mixes_channels B n L A V y.
Proof.
  intros Hs _ _ HL self.
  destruct (forward_stages C n θ x B L Hs HL)
    as (Q & K & V & K_t & S & A & y & (HQ & HK & HV) & (sQ & sK & sV)
        & [HKt _] & [HS _] & [HA sA] & [Hy sy] & Hfwd).
  exists Q, K, K_t, S, A, V, y.
  split; [auto|]. split; [exists (-2)%Z; exact HA|].
  split.
  { unfold AttentionWeights.attention_weights. fold self in HQ, HK.
    rewrite HQ, HK. cbn [mbind option_bind].
    rewrite HKt. cbn [mbind option_bind].
    rewrite HS. cbn [mbind option_bind]. exact HA. }
  split; [exact HV|]. split; [auto|]. split; [exact Hy|].
  split; [exact Hfwd|].
  apply matmul_entry_local; assumption.
Qed.

Lemma SelfAttention_mixes_channels_witness :
  exists Q K K_t S A V y,
    (forward (conv_Q attn2) x_one = Some Q /\
     forward (conv_K attn2) x_one = Some K /\
     Torch.transpose_last2 K = Some K_t /\ Torch.matmul Q K_t = Some S) /\
    (exists dim, Torch.softmax S dim = Some A) /\
    AttentionWeights.attention_weights attn2 x_one = Some A /\
    forward (conv_V attn2) x_one = Some V /\
    (shape A = [1; 2; 2] /\ shape V = [1; 2; 1] /\ shape y = [1; 2; 1]) /\
    Torch.matmul A V = Some y /\
    forward attn2 x_one = Some y /\
    mixes_channels 1 2 1 A V y.
Proof.
  apply (SelfAttention_mixes_channels 1 2 unit_init x_one 1 1);
    [reflexivity|lia|lia|lia].
Defined.

(** C3, as stated, fails: on the one channel layer [attn1] and the two
    position input [x_step] the values are [1, 0] and so is the output;
    no choice of positive weights over the positions turns the values
    into that output. *)
Lemma SelfAttention_not_over_positions :
  exists V y,
    forward (conv_V attn1) x_step = Some V /\
    forward attn1 x_step = Some y /\
    ~ attends_all_positions 1 1 2 V y.
Proof.
  set (θ := {| w_init := fun _ _ _ _ => 1%R; b_init := fun _ _ => 0%R |}).
  destruct (conv1x1_forward 1 1 (w_init θ 2) x_step 1 2)
    as (V & HV & sV & eV); [reflexivity|lia|].
  destruct (attention_weights_entries 1 1 θ x_step 1 2)
    as (A & HA & sA & eA); [reflexivity|lia|].
  exists V. eexists. split; [exact HV|].
  change attn1 with (SelfAttention_init 1 1 1 θ).
  rewrite forward_factor, HA.
  unfold SelfAttention_init at 1. cbn [conv_V]. rewrite HV.
  cbn [mbind option_bind]. rewrite (matmul_3d A V 1 1 1 2 sA sV).
  split; [reflexivity|].
  intros (w & Hw & Hy).
  specialize (Hy 0 0 1 ltac:(lia) ltac:(lia) ltac:(lia)).
  rewrite get3_build3 in Hy by lia.
  specialize (Hw 0 1 0 ltac:(lia) ltac:(lia) ltac:(lia)).
  simpl in Hy.
  rewrite (eV 0 0 1) in Hy by lia. rewrite (eV 0 0 0) in Hy by lia.
  unfold Formula.proj in Hy. simpl in Hy. unfold get3 in Hy. simpl in Hy.
  lra.
Qed.

End AttentionClaims.

(** ** Notebook 04: shapes of the regression networks *)

#[global] Instance SelfAttention_ShapeSound : ShapeSound Attention.SelfAttention.
Proof.
  intros m x.
  unfold forward at 1, Attention.SelfAttention_forward,
    out_shape, SelfAttention_ShapeRule.
  rewrite <- !(shape_sound (M := Torch.Conv1d)).
  destruct (forward (Attention.conv_Q m) x) as [Q|]; [|reflexivity].
  destruct (forward (Attention.conv_K m) x) as [K|]; [|reflexivity].
  destruct (forward (Attention.conv_V m) x) as [V|]; [|reflexivity].
  cbn [mbind option_bind fmap option_fmap option_map].
  rewrite <- transpose_last2_sound.
  destruct (Torch.transpose_last2 K) as [K_t|]; [|reflexivity].
  cbn [mbind option_bind fmap option_fmap option_map].
  rewrite <- matmul_sound.
  destruct (Torch.matmul Q K_t) as [A_|]; [|reflexivity].
  cbn [mbind option_bind fmap option_fmap option_map].
  rewrite <- softmax_sound.
  destruct (Torch.softmax A_ (-2)) as [A|]; [|reflexivity].
  cbn [mbind option_bind fmap option_fmap option_map].
  apply matmul_sound.
Qed.

#[global] Instance Attn_Layer_ShapeSound : ShapeSound Attention.Layer.
Proof.
  intros [m| |m] x; simpl.
  - apply (shape_sound m).
  - reflexivity.
  - apply (shape_sound m).
Qed.

#[global] Instance RegressionFCN_ShapeSound : ShapeSound Attention.RegressionFCN.
Proof. intros m x. apply (shape_sound (Attention.fcn_layers m)). Qed.

#[global] Instance CustomAttn_ShapeSound : ShapeSound Attention.CustomAttn.
Proof. intros m x. apply (shape_sound (Attention.attn_layers m)). Qed.

Section RegressionShapes.
Import Attention.

Lemma chain_app fs gs s :
  Shape.chain (fs ++ gs) s = Shape.chain fs s ≫= Shape.chain gs.
Proof.
  unfold Shape.chain. rewrite fold_left_app.
  destruct (fold_left _ fs (Some s)) as [s'|]; simpl; [reflexivity|].
  apply chain_none.
Qed.

Lemma chain_cons f fs s :
  Shape.chain (f :: fs) s = f s ≫= Shape.chain fs.
Proof.
  unfold Shape.chain. simpl. destruct (f s); simpl; [reflexivity|].
  apply chain_none.
Qed.

(** A stride 1 convolution with an odd kernel and padding [ksize // 2]
    keeps the length of a non-empty sequence. *)
Lemma same_conv_shape (cin cout ksize : nat) w b (B L : nat) :
  Nat.Odd ksize -> 1 <= L ->
  out_shape (Torch.mkConv1d cin cout ksize 1 (ksize / 2) w b) [B; cin; L]
    = Some [B; cout; L].
Proof.
  intros [q Hq] HL.
  assert (Hhalf : ksize / 2 = q).
  { subst ksize. rewrite Nat.add_comm, Nat.mul_comm, Nat.div_add by lia.
    reflexivity. }
  unfold out_shape, Conv1d_ShapeRule, Shape.batched, Shape.conv1d3,
    Torch.conv1d_ok, Torch.conv_out_len.
  cbn [Torch.in_channels Torch.out_channels Torch.kernel_size Torch.stride
       Torch.padding].
  rewrite Hhalf, Nat.eqb_refl, Nat.div_1_r.
  replace (1 <=? ksize) with true by (symmetry; apply Nat.leb_le; lia).
  replace (ksize <=? L + 2 * q) with true by (symmetry; apply Nat.leb_le; lia).
  simpl. replace (L + (q + (q + 0)) - ksize + 1) with L by lia. reflexivity.
Qed.

Lemma pointwise_conv_shape (cin cout : nat) w b (B L : nat) :
  1 <= L ->
  out_shape (Torch.mkConv1d cin cout 1 1 0 w b) [B; cin; L]
    = Some [B; cout; L].
Proof.
  intros HL.
  apply (same_conv_shape cin cout 1 w b B L); [exists 0; lia|exact HL].
Qed.

Lemma SelfAttention_shape (n : nat) (θ : Init) (B L : nat) :
  1 <= L ->
  out_shape (SelfAttention_init n n n θ) [B; n; L] = Some [B; n; L].
Proof.
  intros HL. unfold out_shape at 1, SelfAttention_ShapeRule, SelfAttention_init.
  cbn [conv_Q conv_K conv_V].
  rewrite !pointwise_conv_shape by exact HL.
  cbn [mbind option_bind]. simpl.
  rewrite !Nat.eqb_refl. simpl. rewrite !Nat.eqb_refl. reflexivity.
Qed.

Lemma layer_conv_shape (m : Torch.Conv1d) (s : list nat) :
  out_shape (Conv1d m) s = out_shape m s.
Proof. reflexivity. Qed.

Lemma layer_relu_shape (s : list nat) : out_shape ReLU s = Some s.
Proof. reflexivity. Qed.

Lemma layer_attn_shape (m : SelfAttention) (s : list nat) :
  out_shape (Attn m) s = out_shape m s.
Proof. reflexivity. Qed.

Lemma RegressionFCN_rule (m : RegressionFCN) (s : list nat) :
  out_shape m s = Shape.chain (map out_shape (fcn_layers m)) s.
Proof. reflexivity. Qed.

Lemma CustomAttn_rule (m : CustomAttn) (s : list nat) :
  out_shape m s = Shape.chain (map out_shape (attn_layers m)) s.
Proof. reflexivity. Qed.

Ltac step_chain :=
  repeat first
    [ rewrite chain_cons | rewrite layer_relu_shape
    | rewrite layer_conv_shape | rewrite layer_attn_shape
    | progress cbn [mbind option_bind] ].

(** The hidden blocks of [RegressionFCN] from the second on. *)
Lemma hidden_blocks_shape (nc ksize : nat) (θ : Init) (B L : nat)
    (c0 start count : nat) :
  Nat.Odd ksize -> 1 <= L -> 1 <= start ->
  Shape.chain
    (map out_shape
       (flat_map (fun i =>
          [ Conv1d (Torch.mkConv1d (if i =? 0 then c0 else nc) nc ksize 1
                      (ksize / 2) (w_init θ i) (Some (b_init θ i)));
            ReLU ]) (seq start count)))
    [B; nc; L] = Some [B; nc; L].
Proof.
  intros Hodd HL. revert start.
  induction count as [|count IH]; intros start Hstart; [reflexivity|].
  cbn [seq flat_map map app]. cbv zeta.
  destruct (start =? 0) eqn:E; [apply Nat.eqb_eq in E; lia|].
  step_chain. rewrite same_conv_shape by assumption.
  step_chain. apply IH. lia.
Qed.

Lemma RegressionFCN_shape (c0 : nat) (rest : list nat)
    (nc ksize num_layers : nat) (θ : Init) (B L : nat) :
  Nat.Odd ksize -> 1 <= num_layers -> 1 <= L ->
  exists m, RegressionFCN_init (c0 :: rest) nc ksize num_layers θ = Some m /\
            out_shape m [B; c0; L] = Some [B; c0; L].
Proof.
  intros Hodd Hn HL. eexists. split; [reflexivity|].
  rewrite RegressionFCN_rule. cbn [fcn_layers]. rewrite map_app, chain_app.
  destruct num_layers as [|k]; [lia|].
  cbn [seq flat_map map app]. cbv zeta. cbn [Nat.eqb].
  step_chain. rewrite same_conv_shape by assumption.
  step_chain.
  rewrite (hidden_blocks_shape nc ksize θ B L c0 1 k) by (assumption || lia).
  step_chain. rewrite pointwise_conv_shape by assumption. reflexivity.
Qed.

Lemma CustomAttn_shape (c0 : nat) (rest : list nat)
    (nc ksize : nat) (θ : Init) (B L : nat) :
  Nat.Odd ksize -> 1 <= L ->
  exists m, CustomAttn_init (c0 :: rest) nc ksize θ = Some m /\
            out_shape m [B; c0; L] = Some [B; c0; L].
Proof.
  intros Hodd HL. eexists. split; [reflexivity|].
  rewrite CustomAttn_rule. cbn [attn_layers map].
  step_chain. rewrite same_conv_shape by assumption.
  step_chain. rewrite SelfAttention_shape by assumption.
  step_chain. rewrite same_conv_shape by assumption.
  step_chain. rewrite pointwise_conv_shape by assumption. reflexivity.
Qed.

End RegressionShapes.

Section RegressionClaims.
Import Attention.

Lemma forward_shape_None {M} `{ShapeSound M} (m : M) x :
  out_shape m (shape x) = None -> forward m x = None.
Proof.
  intros Hs. pose proof (shape_sound m x) as Hm. rewrite Hs in Hm.
  destruct (forward m x); [discriminate|reflexivity].
Qed.

(** C4, as stated, fails: a batch of shape (1, 1, 0) is a tensor of shape
    (batch, C, L) with C the configured channel count, and on it both
    networks, built with their defaults, raise instead of returning a
    tensor: the kernel of the first convolution does not fit into the
    padded input. *)
Lemma regression_networks_reject_empty :
  (exists m, default_fcn = Some m /\ forward m x_empty = None) /\
  (exists m, default_attn = Some m /\ forward m x_empty = None).
Proof.
  split; eexists; (split; [reflexivity|]);
    apply forward_shape_None; reflexivity.
Qed.

(** C4, amended: for every odd kernel size (the default 5 is one), every
    positive channel count, at least one hidden layer, and every input of
    shape (batch, C, L) with C = inshape[0] >= 1 and at least one position,
    [RegressionFCN.forward] and [CustomAttn.forward] return a tensor of
    the shape (batch, C, L) of the input. *)
Theorem regression_networks_keep_shape
    (c0 : nat) (rest : list nat) (num_channels ksize num_layers : nat)
    (θ : Init) (B L : nat) (d : list R) :
  Nat.Odd ksize -> 1 <= num_layers -> 1 <= num_channels ->
  1 <= c0 -> 1 <= L ->
  (exists m y,
      RegressionFCN_init (c0 :: rest) num_channels ksize num_layers θ = Some m /\
      forward m (mkTensor [B; c0; L] d) = Some y /\ shape y = [B; c0; L]) /\
  (exists m y,
      CustomAttn_init (c0 :: rest) num_channels ksize θ = Some m /\
      forward m (mkTensor [B; c0; L] d) = Some y /\ shape y = [B; c0; L]).
Proof.
  intros Hodd Hn _ _ HL. split.
  - destruct (RegressionFCN_shape c0 rest num_channels ksize num_layers θ B L
                Hodd Hn HL) as (m & Hm & Hs).
    destruct (forward_shape_Some m (mkTensor [B; c0; L] d) _ Hs)
      as (y & Hy & Hsy).
    exists m, y. auto.
  - destruct (CustomAttn_shape c0 rest num_channels ksize θ B L Hodd HL)
      as (m & Hm & Hs).
    destruct (forward_shape_Some m (mkTensor [B; c0; L] d) _ Hs)
      as (y & Hy & Hsy).
    exists m, y. auto.
Qed.

(** Why the kernel size has to be odd: with [ksize = 4] the padding
    [ksize // 2 = 2] makes every hidden convolution one position longer,
    and four of them turn 64 positions into 68. *)
Lemma RegressionFCN_even_kernel_grows (B : nat) (d : list R) :
  exists m y,
    RegressionFCN_init [1; 64] default_num_channels 4 default_num_layers
      zero_init = Some m /\
    forward m (mkTensor [B; 1; 64] d) = Some y /\ shape y = [B; 1; 68].
Proof.
  eexists.
  edestruct (forward_shape_Some (M := RegressionFCN)) as (y & Hy & Hs);
    [|exists y; split; [reflexivity|split; [exact Hy|exact Hs]]].
  reflexivity.
Qed.

(** Why key and output channel counts have to agree: the weight matrix is
    square of size [key_channels] and multiplies a value tensor with
    [out_channels] rows. *)
Lemma SelfAttention_channel_mismatch :
  forward (SelfAttention_init 1 1 2 unit_init) x_one = None.
Proof. apply forward_shape_None. reflexivity. Qed.

Lemma regression_networks_keep_shape_witness :
  (exists m y,
      RegressionFCN_init [1; 64] default_num_channels default_ksize
        default_num_layers zero_init = Some m /\
      forward m (mkTensor [64; 1; 64] (replicate 4096 0%R)) = Some y /\ shape y = [64; 1; 64]) /\
  (exists m y,
      CustomAttn_init [1; 64] default_num_channels default_ksize zero_init
        = Some m /\
      forward m (mkTensor [64; 1; 64] (replicate 4096 0%R)) = Some y /\ shape y = [64; 1; 64]).
Proof.
  apply (regression_networks_keep_shape 1 [64] default_num_channels
           default_ksize default_num_layers zero_init 64 64 (replicate 4096 0%R)).
  - exists 2. reflexivity.
  - unfold default_num_layers. lia.
  - unfold default_num_channels. lia.
  - lia.
  - lia.
Defined.

End RegressionClaims.

(** ** The training loops *)

Section LoopFacts.
Context {State : Type}.
Variables (model : Model State) (opt : Optimizer State) (crit : Criterion).

Lemma set_item_Some (buf buf' : list R) (idx : nat) (v : R) :
  set_item buf idx v = Some buf' ->
  idx < length buf /\ buf' = <[idx := v]> buf.
Proof.
  unfold set_item. destruct (idx <? length buf) eqn:E; [|discriminate].
  intros [= <-]. apply Nat.ltb_lt in E. auto.
Qed.

(** The training pass writes the losses of its batches, in order, into the
    buffer from [idx] on and leaves the rest of the buffer alone. *)
Lemma fit_batches_spec (target : Tensor * Tensor -> Tensor)
    (bs : list (Tensor * Tensor)) :
  forall (idx : nat) (σ σ' : State) (buf buf' : list R),
    fit_batches model opt crit target idx bs σ buf = Some (σ', buf') ->
    exists ls,
      fit_losses model opt crit target bs σ = Some (ls, σ') /\
      length ls = length bs /\
      length buf' = length buf /\
      (forall k, k < length bs -> buf' !! (idx + k) = ls !! k) /\
      (forall k, k < idx \/ idx + length bs <= k -> buf' !! k = buf !! k).
Proof.
  induction bs as [|Xy rest IH]; intros idx σ σ' buf buf' Hrun.
  - simpl in Hrun. inversion Hrun; subst. exists []. simpl.
    repeat split; auto; try lia; intros; simpl in *; lia.
  - simpl in Hrun. unfold fit_losses; fold (fit_losses model opt crit).
    unfold fit_step.
    destruct (call model σ Xy.1) as [y_hat|];
      cbn [mbind option_bind] in Hrun |- *; [|discriminate].
    destruct (crit y_hat (target Xy)) as [loss|];
      cbn [mbind option_bind] in Hrun |- *; [|discriminate].
    destruct (set_item buf idx loss) as [buf1|] eqn:Eset;
      cbn [mbind option_bind] in Hrun; [|discriminate].
    apply set_item_Some in Eset as [Hidx ->].
    destruct (IH _ _ _ _ _ Hrun) as (ls & Hls & Hlen & Hbuf & Hin & Hout).
    rewrite length_insert in Hbuf. rewrite Hls. cbn [mbind option_bind].
    exists (loss :: ls). simpl length.
    repeat split; auto; try lia.
    + intros [|k] Hk.
      * rewrite Nat.add_0_r, Hout by lia.
        apply list_lookup_insert_eq. exact Hidx.
      * replace (idx + S k) with (S idx + k) by lia. apply Hin. lia.
    + intros k Hk. rewrite Hout by lia. apply list_lookup_insert_ne. lia.
Qed.

(** A buffer as long as the loader is overwritten completely. *)
Lemma fit_batches_full (target : Tensor * Tensor -> Tensor)
    (bs : list (Tensor * Tensor)) (σ σ' : State) (buf buf' : list R) :
  length buf = length bs ->
  fit_batches model opt crit target 0 bs σ buf = Some (σ', buf') ->
  fit_losses model opt crit target bs σ = Some (buf', σ').
Proof.
  intros Hlen Hrun.
  destruct (fit_batches_spec target bs 0 σ σ' buf buf' Hrun)
    as (ls & Hls & Hl & Hb & Hin & _).
  assert (buf' = ls) as ->; [|exact Hls].
  apply list_eq. intros k. destruct (decide (k < length bs)) as [Hk|Hk].
  - apply (Hin k Hk).
  - rewrite !lookup_ge_None_2 by lia. reflexivity.
Qed.

Lemma eval_batches_spec (bs : list (Tensor * Tensor)) :
  forall (idx : nat) (σ : State) (buf buf' : list R),
    eval_batches model crit idx bs σ buf = Some buf' ->
    exists ls,
      eval_losses model crit bs σ = Some ls /\
      length ls = length bs /\
      length buf' = length buf /\
      (forall k, k < length bs -> buf' !! (idx + k) = ls !! k) /\
      (forall k, k < idx \/ idx + length bs <= k -> buf' !! k = buf !! k).
Proof.
  induction bs as [|[X_test y_test] rest IH]; intros idx σ buf buf' Hrun.
  - simpl in Hrun. inversion Hrun; subst. exists []. simpl.
    repeat split; auto; try lia; intros; simpl in *; lia.
  - simpl in Hrun. unfold eval_losses; fold (eval_losses model crit).
    unfold eval_step. cbn [fst].
    destruct (call model σ X_test) as [X'|];
      cbn [mbind option_bind] in Hrun |- *; [|discriminate].
    destruct (crit X' X_test) as [loss|];
      cbn [mbind option_bind] in Hrun |- *; [|discriminate].
    destruct (set_item buf idx loss) as [buf1|] eqn:Eset;
      cbn [mbind option_bind] in Hrun; [|discriminate].
    apply set_item_Some in Eset as [Hidx ->].
    destruct (IH _ _ _ _ Hrun) as (ls & Hls & Hlen & Hbuf & Hin & Hout).
    rewrite length_insert in Hbuf.
    rewrite Hls. cbn [mbind option_bind].
    exists (loss :: ls). simpl length.
    repeat split; auto; try lia.
    + intros [|k] Hk.
      * rewrite Nat.add_0_r, Hout by lia.
        apply list_lookup_insert_eq. exact Hidx.
      * replace (idx + S k) with (S idx + k) by lia. apply Hin. lia.
    + intros k Hk. rewrite Hout by lia. apply list_lookup_insert_ne. lia.
Qed.

Lemma eval_batches_full (bs : list (Tensor * Tensor)) (σ : State)
    (buf buf' : list R) :
  length buf = length bs ->
  eval_batches model crit 0 bs σ buf = Some buf' ->
  eval_losses model crit bs σ = Some buf'.
Proof.
  intros Hlen Hrun.
  destruct (eval_batches_spec bs 0 σ buf buf' Hrun)
    as (ls & Hls & Hl & Hb & Hin & _).
  assert (buf' = ls) as ->; [|exact Hls].
  apply list_eq. intros k. destruct (decide (k < length bs)) as [Hk|Hk].
  - apply (Hin k Hk).
  - rewrite !lookup_ge_None_2 by lia. reflexivity.
Qed.

End LoopFacts.

Section EpochFacts.
Context {State : Type}.
Variables (model : Model State) (opt : Optimizer State) (crit : Criterion).

Lemma dict_append_spec (k : string) (v : R) (d d' : gmap string (list R)) :
  dict_append k v d = Some d' ->
  exists l, d !! k = Some l /\ d' = <[k := l ++ [v]]> d.
Proof.
  unfold dict_append. destruct (d !! k) as [l|]; [|discriminate].
  intros [= <-]. exists l. auto.
Qed.

Lemma record_epoch_spec (max_epochs log_every epoch : nat)
    (st st' : Loop State) (tl vl : list R) :
  record_epoch max_epochs log_every epoch st = Some st' ->
  results st !! "train_losses" = Some tl ->
  results st !! "test_losses" = Some vl ->
  results st' !! "train_losses" = Some (tl ++ [mean (train_loss st)]) /\
  results st' !! "test_losses" = Some (vl ++ [mean (test_loss st)]) /\
  world st' = world st /\ train_loss st' = train_loss st /\
  test_loss st' = test_loss st /\ log_every <> 0.
Proof.
  unfold record_epoch. intros Hrec Htl Hvl.
  destruct (dict_append "train_losses" _ _) as [r1|] eqn:E1;
    cbn [mbind option_bind] in Hrec; [|discriminate].
  destruct (dict_append "test_losses" _ r1) as [r2|] eqn:E2;
    cbn [mbind option_bind] in Hrec; [|discriminate].
  destruct (log_every =? 0) eqn:E0; [discriminate|].
  apply Nat.eqb_neq in E0.
  apply dict_append_spec in E1 as (l1 & Hl1 & ->).
  apply dict_append_spec in E2 as (l2 & Hl2 & ->).
  rewrite Htl in Hl1. injection Hl1 as <-.
  rewrite lookup_insert_ne in Hl2 by discriminate.
  rewrite Hvl in Hl2. injection Hl2 as <-.
  injection Hrec as <-. cbn [results world train_loss test_loss].
  repeat split; auto.
  - rewrite lookup_insert_ne by discriminate. apply lookup_insert_eq.
  - apply lookup_insert_eq.
Qed.

(** One epoch of either loop, against the losses of that epoch. *)
Lemma generic_epoch_spec (pre post : State -> State)
    (target : Tensor * Tensor -> Tensor)
    (train_dataloader test_dataloader : DataLoader)
    (max_epochs log_every epoch : nat) (st st' : Loop State)
    (tl vl : list R) :
  generic_epoch model opt crit pre post target train_dataloader
    test_dataloader max_epochs log_every epoch st = Some st' ->
  length (train_loss st) = length (dl_batches train_dataloader epoch) ->
  length (test_loss st) = length (dl_batches test_dataloader epoch) ->
  results st !! "train_losses" = Some tl ->
  results st !! "test_losses" = Some vl ->
  exists ls ls',
    epoch_losses model opt crit pre post target train_dataloader
      test_dataloader epoch (world st) = Some (ls, ls', world st') /\
    train_loss st' = ls /\ test_loss st' = ls' /\
    length ls = length (train_loss st) /\
    length ls' = length (test_loss st) /\
    results st' !! "train_losses" = Some (tl ++ [mean ls]) /\
    results st' !! "test_losses" = Some (vl ++ [mean ls']).
Proof.
  unfold generic_epoch, epoch_losses. intros Hrun Htr Hte Htl Hvl.
  destruct (fit_batches _ _ _ _ _ _ _ _) as [[σ tr]|] eqn:Efit;
    cbn [mbind option_bind] in Hrun; [|discriminate].
  destruct (eval_batches _ _ _ _ _ _) as [te|] eqn:Eev;
    cbn [mbind option_bind] in Hrun; [|discriminate].
  pose proof (fit_batches_spec model opt crit _ _ _ _ _ _ _ Efit)
    as (ls0 & _ & _ & Hlen1 & _).
  pose proof (eval_batches_spec model crit _ _ _ _ _ Eev)
    as (ls1 & _ & _ & Hlen2 & _).
  apply (fit_batches_full model opt crit) in Efit; [|exact Htr].
  apply (eval_batches_full model crit) in Eev; [|exact Hte].
  rewrite Efit. cbn [mbind option_bind]. rewrite Eev. cbn [mbind option_bind].
  destruct (record_epoch_spec _ _ _ _ _ tl vl Hrun Htl Hvl)
    as (H1 & H2 & H3 & H4 & H5 & _).
  cbn [world train_loss test_loss results] in *.
  exists tr, te. rewrite H3. repeat split; auto.
Qed.

Lemma run_spec (pre post : State -> State)
    (target : Tensor * Tensor -> Tensor)
    (train_dataloader test_dataloader : DataLoader)
    (max_epochs log_every : nat) (epochs : list nat) :
  dl_wf train_dataloader -> dl_wf test_dataloader ->
  forall (st st' : Loop State) (tl vl : list R),
    for_each (generic_epoch model opt crit pre post target train_dataloader
                test_dataloader max_epochs log_every) epochs st = Some st' ->
    length (train_loss st) = dl_len train_dataloader ->
    length (test_loss st) = dl_len test_dataloader ->
    results st !! "train_losses" = Some tl ->
    results st !! "test_losses" = Some vl ->
    exists rs,
      run_losses model opt crit pre post target train_dataloader
        test_dataloader epochs (world st) = Some (rs, world st') /\
      length rs = length epochs /\
      results st' !! "train_losses" = Some (tl ++ map (fun r => mean r.1) rs) /\
      results st' !! "test_losses" = Some (vl ++ map (fun r => mean r.2) rs).
Proof.
  intros Hwf1 Hwf2.
  induction epochs as [|e rest IH]; intros st st' tl vl Hrun Htr Hte Htl Hvl.
  - simpl in Hrun. injection Hrun as <-. exists []. simpl.
    rewrite !app_nil_r. auto.
  - simpl in Hrun.
    destruct (generic_epoch _ _ _ _ _ _ _ _ _ _ e st) as [st1|] eqn:E1;
      cbn [mbind option_bind] in Hrun; [|discriminate].
    destruct (generic_epoch_spec _ _ _ _ _ _ _ _ _ _ tl vl E1)
      as (ls & ls' & Hep & Hb1 & Hb2 & Hl1 & Hl2 & Hr1 & Hr2); auto.
    { rewrite Htr. symmetry. apply Hwf1. }
    { rewrite Hte. symmetry. apply Hwf2. }
    destruct (IH st1 st' (tl ++ [mean ls]) (vl ++ [mean ls']) Hrun)
      as (rs & Hrs & Hlen & Hr1' & Hr2'); auto.
    { rewrite Hb1, Hl1. exact Htr. }
    { rewrite Hb2, Hl2. exact Hte. }
    exists ((ls, ls') :: rs). simpl run_losses. rewrite Hep.
    cbn [mbind option_bind]. rewrite Hrs. cbn [mbind option_bind].
    simpl. rewrite <- !app_assoc in Hr1', Hr2'. auto.
Qed.

End EpochFacts.

Section LoopClaims.
Context {State : Type}.
Variables (model : Model State) (opt : Optimizer State) (crit : Criterion).

Lemma init_loop_results (train_dataloader test_dataloader : DataLoader)
    (σ : State) :
  results (init_loop train_dataloader test_dataloader σ) !! "train_losses"
    = Some [] /\
  results (init_loop train_dataloader test_dataloader σ) !! "test_losses"
    = Some [].
Proof.
  unfold init_loop. cbn [results]. split.
  - apply lookup_insert_eq.
  - rewrite lookup_insert_ne by discriminate. apply lookup_insert_eq.
Qed.

Lemma run_from_init (pre post : State -> State)
    (target : Tensor * Tensor -> Tensor)
    (train_dataloader test_dataloader : DataLoader)
    (max_epochs log_every : nat) (σ : State) (out : Loop State) :
  dl_wf train_dataloader -> dl_wf test_dataloader ->
  for_each (generic_epoch model opt crit pre post target train_dataloader
              test_dataloader max_epochs log_every)
    (seq 0 max_epochs) (init_loop train_dataloader test_dataloader σ)
    = Some out ->
  exists rs tl vl,
    run_losses model opt crit pre post target train_dataloader
      test_dataloader (seq 0 max_epochs) σ = Some (rs, world out) /\
    results out !! "train_losses" = Some tl /\
    results out !! "test_losses" = Some vl /\
    length tl = max_epochs /\ length vl = max_epochs /\
    tl = map (fun r => mean r.1) rs /\
    vl = map (fun r => mean r.2) rs.
Proof.
  intros Hwf1 Hwf2 Hrun.
  destruct (init_loop_results train_dataloader test_dataloader σ) as [Htl Hvl].
  destruct (run_spec model opt crit pre post target train_dataloader
              test_dataloader max_epochs log_every (seq 0 max_epochs)
              Hwf1 Hwf2 _ _ [] [] Hrun) as (rs & Hrs & Hlen & H1 & H2); auto.
  - apply length_replicate.
  - apply length_replicate.
  - rewrite length_seq in Hlen. simpl in H1, H2.
    exists rs, (map (fun r => mean r.1) rs), (map (fun r => mean r.2) rs).
    rewrite !length_map. repeat split; auto.
Qed.

(** C7, amended: on loaders each of whose traversals yields exactly
    [len(loader)] batches, a run of either loop that returns has, under
    each of the two keys of its results, exactly [max_epochs] entries, and
    the entry of an epoch is the mean of the losses of the batches of that
    epoch, in the order of the epochs. *)
Theorem losses_accumulated_per_epoch
    (train_dataloader test_dataloader : DataLoader)
    (max_epochs log_every : nat) (σ : State) :
  dl_wf train_dataloader -> dl_wf test_dataloader ->
  (forall out,
      train_autoencoder model opt crit train_dataloader test_dataloader
        max_epochs log_every σ = Some out ->
      exists rs tl vl,
        run_losses model opt crit (fun s => s) (fun s => s) fst
          train_dataloader test_dataloader (seq 0 max_epochs) σ
          = Some (rs, world out) /\
        results out !! "train_losses" = Some tl /\
        results out !! "test_losses" = Some vl /\
        length tl = max_epochs /\ length vl = max_epochs /\
        tl = map (fun r => mean r.1) rs /\
        vl = map (fun r => mean r.2) rs) /\
  (forall out,
      train_regression model opt crit train_dataloader test_dataloader
        max_epochs log_every σ = Some out ->
      exists rs tl vl,
        run_losses model opt crit (set_training model true)
          (set_training model false) snd
          train_dataloader test_dataloader (seq 0 max_epochs) σ
          = Some (rs, world out) /\
        results out !! "train_losses" = Some tl /\
        results out !! "test_losses" = Some vl /\
        length tl = max_epochs /\ length vl = max_epochs /\
        tl = map (fun r => mean r.1) rs /\
        vl = map (fun r => mean r.2) rs).
Proof.
  intros Hwf1 Hwf2. split; intros out Hrun.
  - apply (run_from_init (fun s => s) (fun s => s) fst train_dataloader
             test_dataloader max_epochs log_every σ out Hwf1 Hwf2).
    exact Hrun.
  - apply (run_from_init (set_training model true) (set_training model false)
             snd train_dataloader test_dataloader max_epochs log_every σ out
             Hwf1 Hwf2).
    exact Hrun.
Qed.

End LoopClaims.

(** *** The loops return

    When neither the model nor the criterion raises, the loaders yield
    [len] batches per traversal and [log_every] is not 0, both loops run to
    the end. *)

Section LoopsReturn.
Context {State : Type}.
Variables (model : Model State) (opt : Optimizer State) (crit : Criterion).
Hypothesis call_total : forall σ X, is_Some (call model σ X).
Hypothesis crit_total : forall a b, is_Some (crit a b).

Lemma fit_batches_total (target : Tensor * Tensor -> Tensor)
    (bs : list (Tensor * Tensor)) :
  forall (idx : nat) (σ : State) (buf : list R),
    idx + length bs <= length buf ->
    exists σ' buf',
      fit_batches model opt crit target idx bs σ buf = Some (σ', buf') /\
      length buf' = length buf.
Proof.
  induction bs as [|Xy rest IH]; intros idx σ buf Hlen.
  - exists σ, buf. auto.
  - simpl in Hlen. simpl.
    destruct (call_total σ Xy.1) as [y_hat ->]. cbn [mbind option_bind].
    destruct (crit_total y_hat (target Xy)) as [loss ->]. cbn [mbind option_bind].
    unfold set_item.
    replace (idx <? length buf) with true by (symmetry; apply Nat.ltb_lt; lia).
    cbn [mbind option_bind].
    destruct (IH (S idx)
                (zero_grad opt (step opt (backward model σ Xy.1 (target Xy))))
                (<[idx := loss]> buf)) as (σ' & buf' & Hrun & Hl).
    { rewrite length_insert. lia. }
    exists σ', buf'. rewrite length_insert in Hl. auto.
Qed.

Lemma eval_batches_total (bs : list (Tensor * Tensor)) :
  forall (idx : nat) (σ : State) (buf : list R),
    idx + length bs <= length buf ->
    exists buf',
      eval_batches model crit idx bs σ buf = Some buf' /\
      length buf' = length buf.
Proof.
  induction bs as [|[X y] rest IH]; intros idx σ buf Hlen.
  - exists buf. auto.
  - simpl in Hlen. simpl.
    destruct (call_total σ X) as [X' ->]. cbn [mbind option_bind].
    destruct (crit_total X' X) as [loss ->]. cbn [mbind option_bind].
    unfold set_item.
    replace (idx <? length buf) with true by (symmetry; apply Nat.ltb_lt; lia).
    cbn [mbind option_bind].
    destruct (IH (S idx) σ (<[idx := loss]> buf)) as (buf' & Hrun & Hl).
    { rewrite length_insert. lia. }
    exists buf'. rewrite length_insert in Hl. auto.
Qed.

Lemma generic_epoch_total (pre post : State -> State)
    (target : Tensor * Tensor -> Tensor)
    (train_dataloader test_dataloader : DataLoader)
    (max_epochs log_every epoch : nat) (st : Loop State) :
  dl_wf train_dataloader -> dl_wf test_dataloader -> log_every <> 0 ->
  loop_ready train_dataloader test_dataloader st ->
  exists st',
    generic_epoch model opt crit pre post target train_dataloader
      test_dataloader max_epochs log_every epoch st = Some st' /\
    loop_ready train_dataloader test_dataloader st'.
Proof.
  intros Hwf1 Hwf2 Hlog (Htr & Hte & [tl Htl] & [vl Hvl]).
  unfold generic_epoch.
  destruct (fit_batches_total target (dl_batches train_dataloader epoch) 0
              (pre (world st)) (train_loss st)) as (σ & tr & -> & Hl1).
  { rewrite Hwf1, Htr. lia. }
  cbn [mbind option_bind].
  destruct (eval_batches_total (dl_batches test_dataloader epoch) 0 (post σ)
              (test_loss st)) as (te & -> & Hl2).
  { rewrite Hwf2, Hte. lia. }
  cbn [mbind option_bind]. unfold record_epoch, dict_append.
  cbn [results train_loss test_loss world printed].
  rewrite Htl. cbn [mbind option_bind].
  rewrite lookup_insert_ne by discriminate. rewrite Hvl.
  cbn [mbind option_bind].
  destruct (log_every =? 0) eqn:E; [apply Nat.eqb_eq in E; contradiction|].
  eexists. split; [reflexivity|]. unfold loop_ready.
  cbn [results train_loss test_loss].
  repeat split; try congruence.
  - rewrite lookup_insert_ne by discriminate. rewrite lookup_insert_eq. eauto.
  - rewrite lookup_insert_eq. eauto.
Qed.

Lemma generic_run_total (pre post : State -> State)
    (target : Tensor * Tensor -> Tensor)
    (train_dataloader test_dataloader : DataLoader)
    (max_epochs log_every : nat) (epochs : list nat) :
  dl_wf train_dataloader -> dl_wf test_dataloader -> log_every <> 0 ->
  forall st, loop_ready train_dataloader test_dataloader st ->
    is_Some (for_each (generic_epoch model opt crit pre post target
                         train_dataloader test_dataloader max_epochs log_every)
               epochs st).
Proof.
  intros Hwf1 Hwf2 Hlog.
  induction epochs as [|e rest IH]; intros st Hst; [simpl; eauto|].
  simpl.
  destruct (generic_epoch_total pre post target train_dataloader test_dataloader
              max_epochs log_every e st Hwf1 Hwf2 Hlog Hst) as (st' & -> & Hst').
  cbn [mbind option_bind]. apply IH. exact Hst'.
Qed.

Lemma training_returns (train_dataloader test_dataloader : DataLoader)
    (max_epochs log_every : nat) (σ : State) :
  dl_wf train_dataloader -> dl_wf test_dataloader -> log_every <> 0 ->
  is_Some (train_autoencoder model opt crit train_dataloader test_dataloader
             max_epochs log_every σ) /\
  is_Some (train_regression model opt crit train_dataloader test_dataloader
             max_epochs log_every σ).
Proof.
  intros Hwf1 Hwf2 Hlog.
  assert (Hinit : loop_ready train_dataloader test_dataloader
                    (init_loop train_dataloader test_dataloader σ)).
  { destruct (init_loop_results train_dataloader test_dataloader σ) as [H1 H2].
    unfold loop_ready. rewrite H1, H2. unfold init_loop.
    cbn [train_loss test_loss]. rewrite !length_replicate.
    repeat split; eauto. }
  split.
  - apply (generic_run_total (fun s => s) (fun s => s) fst train_dataloader
             test_dataloader max_epochs log_every (seq 0 max_epochs)
             Hwf1 Hwf2 Hlog _ Hinit).
  - apply (generic_run_total (set_training model true)
             (set_training model false) snd train_dataloader test_dataloader
             max_epochs log_every (seq 0 max_epochs) Hwf1 Hwf2 Hlog _ Hinit).
Qed.

End LoopsReturn.

Lemma toy_loaders_wf : dl_wf toy_train /\ dl_wf toy_test /\ dl_wf toy_test'.
Proof. repeat split; intros k; reflexivity. Qed.

Lemma losses_accumulated_per_epoch_witness :
  dl_wf toy_train /\ dl_wf toy_test /\
  (exists out,
      train_autoencoder toy_model toy_opt toy_crit toy_train toy_test 2 1 0
        = Some out /\
      exists rs tl vl,
        run_losses toy_model toy_opt toy_crit (fun s => s) (fun s => s) fst
          toy_train toy_test (seq 0 2) 0 = Some (rs, world out) /\
        results out !! "train_losses" = Some tl /\
        results out !! "test_losses" = Some vl /\
        length tl = 2 /\ length vl = 2 /\
        tl = map (fun r => mean r.1) rs /\
        vl = map (fun r => mean r.2) rs) /\
  (exists out,
      train_regression toy_model toy_opt toy_crit toy_train toy_test 2 1 0
        = Some out /\
      exists rs tl vl,
        run_losses toy_model toy_opt toy_crit (set_training toy_model true)
          (set_training toy_model false) snd
          toy_train toy_test (seq 0 2) 0 = Some (rs, world out) /\
        results out !! "train_losses" = Some tl /\
        results out !! "test_losses" = Some vl /\
        length tl = 2 /\ length vl = 2 /\
        tl = map (fun r => mean r.1) rs /\
        vl = map (fun r => mean r.2) rs).
Proof.
  destruct toy_loaders_wf as (Hwf1 & Hwf2 & _).
  split; [exact Hwf1|]. split; [exact Hwf2|].
  destruct (losses_accumulated_per_epoch toy_model toy_opt toy_crit
              toy_train toy_test 2 1 0 Hwf1 Hwf2) as [Ha Hr].
  split.
  - eexists. split; [vm_compute; reflexivity|]. apply Ha. vm_compute. reflexivity.
  - eexists. split; [vm_compute; reflexivity|]. apply Hr. vm_compute. reflexivity.
Defined.

(** C7, as stated, fails: the loss buffers are allocated once, with
    [len(loader)] slots, and the mean is taken over the buffer.  On
    [toy_short], whose traversal yields two batches though its length is
    three, one epoch of [train_autoencoder] returns; the losses recorded in
    the epoch are 2 and 6, and the entry appended for the epoch is the mean
    of the buffer [2, 6, 0], the slot no batch has written included: 8/3,
    not the mean 4 of the two losses. *)
Lemma losses_not_epoch_means :
  ~ dl_wf toy_short /\
  exists out,
    train_autoencoder toy_model toy_opt toy_crit toy_short toy_test 1 1 0
      = Some out /\
    run_losses toy_model toy_opt toy_crit (fun s => s) (fun s => s) fst
      toy_short toy_test (seq 0 1) 0
      = Some ([([(1 + 1)%R; (3 + 3)%R], [(5 + 5)%R])], world out) /\
    results out !! "train_losses"
      = Some [mean [(1 + 1)%R; (3 + 3)%R; 0%R]] /\
    mean [(1 + 1)%R; (3 + 3)%R; 0%R] <> mean [(1 + 1)%R; (3 + 3)%R].
Proof.
  split.
  { intros Hwf. specialize (Hwf 0). simpl in Hwf. discriminate. }
  eexists. split; [vm_compute; reflexivity|].
  split; [vm_compute; reflexivity|].
  split; [vm_compute; reflexivity|].
  unfold mean. simpl. intros H.
  apply (f_equal (fun v => (v * 6)%R)) in H.
  field_simplify in H. lra.
Qed.

Section TestLossClaims.
Context {State : Type}.
Variables (model : Model State) (opt : Optimizer State) (crit : Criterion).

Lemma record_epoch_frame (max_epochs log_every epoch : nat)
    (st st' : Loop State) :
  record_epoch max_epochs log_every epoch st = Some st' ->
  world st' = world st /\ train_loss st' = train_loss st /\
  test_loss st' = test_loss st.
Proof.
  unfold record_epoch. intros Hrec.
  destruct (dict_append "train_losses" _ _) as [r1|];
    cbn [mbind option_bind] in Hrec; [|discriminate].
  destruct (dict_append "test_losses" _ r1) as [r2|];
    cbn [mbind option_bind] in Hrec; [|discriminate].
  destruct (log_every =? 0); [discriminate|].
  injection Hrec as <-. auto.
Qed.





End TestLossClaims.


(** ** Parameters on the heap *)

Section LoopInvariant.
Context {State : Type}.
Variables (model : Model State) (opt : Optimizer State) (crit : Criterion).
Variable I : State -> Prop.
Hypothesis I_backward : forall σ X t, I σ -> I (backward model σ X t).
Hypothesis I_step : forall σ, I σ -> I (step opt σ).
Hypothesis I_zero_grad : forall σ, I σ -> I (zero_grad opt σ).
Hypothesis I_set_training : forall b σ, I σ -> I (set_training model b σ).

Lemma fit_batches_invariant (target : Tensor * Tensor -> Tensor)
    (bs : list (Tensor * Tensor)) :
  forall (idx : nat) (σ σ' : State) (buf buf' : list R),
    fit_batches model opt crit target idx bs σ buf = Some (σ', buf') ->
    I σ -> I σ'.
Proof.
  induction bs as [|Xy rest IH]; intros idx σ σ' buf buf' Hrun Hσ.
  - simpl in Hrun. inversion Hrun; subst. exact Hσ.
  - simpl in Hrun.
    destruct (call model σ Xy.1) as [y_hat|];
      cbn [mbind option_bind] in Hrun; [|discriminate].
    destruct (crit y_hat (target Xy)) as [loss|];
      cbn [mbind option_bind] in Hrun; [|discriminate].
    destruct (set_item buf idx loss) as [buf1|];
      cbn [mbind option_bind] in Hrun; [|discriminate].
    apply (IH _ _ _ _ _ Hrun). auto.
Qed.

Lemma for_each_invariant {A S : Type} (J : S -> Prop)
    (body : A -> S -> option S) (xs : list A) :
  (forall x s s', body x s = Some s' -> J s -> J s') ->
  forall s s', for_each body xs s = Some s' -> J s -> J s'.
Proof.
  intros Hbody. induction xs as [|x xs IH]; intros s s' Hrun Hs.
  - simpl in Hrun. injection Hrun as <-. exact Hs.
  - simpl in Hrun. destruct (body x s) as [s1|] eqn:E;
      cbn [mbind option_bind] in Hrun; [|discriminate].
    apply (IH s1 s' Hrun). apply (Hbody x s s1 E Hs).
Qed.

(** A property of the world that the operations of model and optimizer
    preserve holds after [train_regression] if it held before. *)
Lemma train_regression_invariant
    (train_dataloader test_dataloader : DataLoader)
    (max_epochs log_every : nat) (σ : State) (out : Loop State) :
  train_regression model opt crit train_dataloader test_dataloader
    max_epochs log_every σ = Some out ->
  I σ -> I (world out).
Proof.
  unfold train_regression. intros Hrun Hσ.
  refine (for_each_invariant (fun st => I (world st)) _ _ _ _ _ Hrun Hσ).
  intros epoch st st' Hep Hst. unfold regression_epoch in Hep.
  destruct (fit_batches _ _ _ _ _ _ _ _) as [[σ1 tr]|] eqn:Efit;
    cbn [mbind option_bind] in Hep; [|discriminate].
  destruct (eval_batches _ _ _ _ _ _) as [te|];
    cbn [mbind option_bind] in Hep; [|discriminate].
  apply record_epoch_frame in Hep as (Hw & _). rewrite Hw. cbn [world].
  apply I_set_training.
  apply (fit_batches_invariant _ _ _ _ _ _ _ Efit).
  apply I_set_training. exact Hst.
Qed.

End LoopInvariant.

Section StoreFacts.
Import Store.
Context {O : Type}.
Variables (rule : O -> nat -> Tensor -> Tensor -> Tensor * O) (fresh : O).

Lemma alter_keeps_value (f : Param -> Param) (k a : nat) (h : gmap nat Param) :
  (forall p, value (f p) = value p) ->
  value <$> alter f k h !! a = value <$> h !! a.
Proof.
  intros Hf. destruct (decide (k = a)) as [->|Hne].
  - rewrite lookup_alter_eq. destruct (h !! a) as [p|]; simpl; [|reflexivity].
    rewrite Hf. reflexivity.
  - rewrite lookup_alter_ne by exact Hne. reflexivity.
Qed.

Lemma set_training_frame (net : Net) (b : bool) (σ : World O) (a : nat) :
  value_at (net_set_training net b σ) a = value_at σ a.
Proof. reflexivity. Qed.

Lemma accumulate_all_frame (ags : list (nat * Tensor)) :
  forall (h : gmap nat Param) (a : nat),
    value <$> fold_left (fun h ag => alter (accumulate ag.2) ag.1 h) ags h !! a
    = value <$> h !! a.
Proof.
  induction ags as [|ag ags IH]; intros h a; [reflexivity|].
  simpl. rewrite IH. apply alter_keeps_value. reflexivity.
Qed.

(** [loss.backward()] writes gradients and no values. *)
Lemma backward_frame (net : Net) (σ : World O) (X target : Tensor) (a : nat) :
  value_at (net_backward net σ X target) a = value_at σ a.
Proof.
  unfold net_backward, value_at.
  destruct (values σ (parameters net)) as [vals|]; [|reflexivity].
  cbn [heap]. apply accumulate_all_frame.
Qed.

(** [opt.zero_grad()] resets gradients and no values. *)
Lemma zero_grad_frame (opt : AdamW) (σ : World O) (a : nat) :
  value_at (adamw_zero_grad opt σ) a = value_at σ a.
Proof.
  unfold adamw_zero_grad, value_at. cbn [heap].
  generalize (heap σ). induction (param_group opt) as [|p ps IH]; intros h;
    [reflexivity|].
  simpl. rewrite IH. apply alter_keeps_value. reflexivity.
Qed.

Lemma step_param_frame (hs : gmap nat Param * O) (p a : nat) :
  p <> a -> (step_param rule hs p).1 !! a = hs.1 !! a.
Proof.
  intros Hne. unfold step_param.
  destruct (hs.1 !! p) as [[v [g|]]|]; try reflexivity.
  destruct (rule hs.2 p v g) as [v' s']. cbn [fst].
  apply lookup_insert_ne. exact Hne.
Qed.

Lemma step_params_frame (ps : list nat) (a : nat) :
  a ∉ ps ->
  forall hs : gmap nat Param * O,
    (fold_left (step_param rule) ps hs).1 !! a = hs.1 !! a.
Proof.
  induction ps as [|p ps IH]; intros Ha hs; [reflexivity|].
  simpl. rewrite IH.
  - apply step_param_frame. intros ->. apply Ha. left.
  - intros Hin. apply Ha. right. exact Hin.
Qed.

(** [opt.step()] leaves every parameter outside its own list as it is. *)
Lemma step_frame (opt : AdamW) (σ : World O) (a : nat) :
  a ∉ param_group opt ->
  heap (adamw_step rule fresh opt σ) !! a = heap σ !! a.
Proof.
  intros Ha. unfold adamw_step. cbn [heap].
  apply (step_params_frame (param_group opt) a Ha).
Qed.

End StoreFacts.

Section OptimizerClaims.
Import Store.
Context {O : Type}.
Variables (rule : O -> nat -> Tensor -> Tensor -> Tensor * O) (fresh : O).

(** Parameters created now are none of the parameters already on the
    heap. *)
Lemma new_parameters_fresh (vals : list Tensor) (σ : World O) (a : nat) :
  a ∈ (new_parameters vals σ).1 -> heap σ !! a = None.
Proof.
  unfold new_parameters. cbn [fst]. intros Ha.
  apply fresh_list_is_fresh in Ha. apply not_elem_of_dom. exact Ha.
Qed.

(** C10: an optimizer constructed from [plainfcn.parameters()] holds the
    parameters of [plainfcn] and no others, so its [step] leaves every
    other parameter object as it is; when [train_regression] runs on a
    model none of whose parameters belongs to [plainfcn] with that
    optimizer, no operation of the loop changes the value of a parameter
    of the model, and the values at the end of the run are the values at
    its start. *)
Theorem foreign_optimizer_trains_nothing
    (plainfcn attmodel : Net) (id : nat) (crit : Criterion)
    (train_dataloader test_dataloader : DataLoader)
    (max_epochs log_every : nat) (σ : World O) :
  (forall a, a ∈ parameters attmodel -> a ∉ parameters plainfcn) ->
  let attoptim := AdamW_init id (parameters plainfcn) in
  param_group attoptim = parameters plainfcn /\
  (forall σ' a, a ∉ parameters plainfcn ->
     heap (adamw_step rule fresh attoptim σ') !! a = heap σ' !! a) /\
  (forall σ' a, a ∈ parameters attmodel ->
     value_at (adamw_step rule fresh attoptim σ') a = value_at σ' a /\
     value_at (adamw_zero_grad attoptim σ') a = value_at σ' a /\
     (forall X y, value_at (net_backward attmodel σ' X y) a = value_at σ' a) /\
     (forall b, value_at (net_set_training attmodel b σ') a = value_at σ' a)) /\
  (forall out,
     train_regression (model_of attmodel) (optimizer_of rule fresh attoptim)
       crit train_dataloader test_dataloader max_epochs log_every σ
       = Some out ->
     forall a, a ∈ parameters attmodel ->
       value_at (world out) a = value_at σ a).
Proof.
  intros Hdisj attoptim.
  assert (Hstep : forall σ' a, a ∉ parameters plainfcn ->
            heap (adamw_step rule fresh attoptim σ') !! a = heap σ' !! a).
  { intros σ' a Ha. apply step_frame. exact Ha. }
  split; [reflexivity|]. split; [exact Hstep|]. split.
  - intros σ' a Ha. repeat split.
    + unfold value_at. rewrite Hstep by (apply Hdisj; exact Ha). reflexivity.
    + apply zero_grad_frame.
    + intros X y. apply backward_frame.
  - intros out Hrun a Ha.
    apply (train_regression_invariant (model_of attmodel)
             (optimizer_of rule fresh attoptim) crit
             (fun σ' => value_at σ' a = value_at σ a)) with (5 := Hrun).
    + intros σ' X t Hσ'. cbn [backward model_of].
      rewrite backward_frame. exact Hσ'.
    + intros σ' Hσ'. cbn [step optimizer_of]. unfold value_at.
      rewrite Hstep by (apply Hdisj; exact Ha). exact Hσ'.
    + intros σ' Hσ'. cbn [zero_grad optimizer_of].
      rewrite zero_grad_frame. exact Hσ'.
    + intros b σ' Hσ'. exact Hσ'.
    + reflexivity.
Qed.

End OptimizerClaims.

Lemma foreign_optimizer_trains_nothing_witness :
  (forall a, a ∈ Store.parameters toy_attmodel ->
             a ∉ Store.parameters toy_plainfcn) /\
  exists out,
    train_regression (Store.model_of toy_attmodel)
      (Store.optimizer_of toy_rule tt toy_attoptim) toy_crit toy_train
      toy_test 2 1 world_attmodel.2 = Some out /\
    forall a, a ∈ Store.parameters toy_attmodel ->
      Store.value_at (world out) a = Store.value_at world_attmodel.2 a.
Proof.
  assert (Hdisj : forall a, a ∈ Store.parameters toy_attmodel ->
                            a ∉ Store.parameters toy_plainfcn).
  { intros a Ha Hp. apply new_parameters_fresh in Ha.
    vm_compute in Hp. apply list_elem_of_In in Hp.
    destruct Hp as [<- | []]. vm_compute in Ha. discriminate. }
  split; [exact Hdisj|].
  eexists. split; [vm_compute; reflexivity|].
  apply (foreign_optimizer_trains_nothing toy_rule tt toy_plainfcn toy_attmodel
           2 toy_crit toy_train toy_test 2 1 world_attmodel.2 Hdisj).
  vm_compute. reflexivity.
Defined.

(** * Properties of the further code *)

(** ** Notebook 03: widths for any number of layers *)

Section AutoencoderWidths.
Import Autoencoders.

Lemma ae_conv_shape (m : Torch.Conv1d) (s : list nat) :
  out_shape (Conv1d m) s = out_shape m s.
Proof. reflexivity. Qed.

Lemma ae_convT_shape (m : Torch.ConvTranspose1d) (s : list nat) :
  out_shape (ConvTranspose1d m) s = out_shape m s.
Proof. reflexivity. Qed.

Lemma ae_relu_shape (s : list nat) : out_shape ReLU s = Some s.
Proof. reflexivity. Qed.

Lemma ae_flatten_shape (s : list nat) : out_shape Flatten s = Shape.flatten s.
Proof. reflexivity. Qed.

Ltac step_ae :=
  repeat first
    [ rewrite chain_cons | rewrite ae_relu_shape | rewrite ae_conv_shape
    | rewrite ae_convT_shape | rewrite ae_flatten_shape
    | progress cbn [mbind option_bind] ].

(** A convolution of kernel 5, stride 2 and padding 2 halves a non-empty
    sequence, rounding up. *)
Lemma strided_conv_shape (cin cout : nat) w b (B L : nat) :
  1 <= L ->
  out_shape (Torch.mkConv1d cin cout 5 2 2 w b) [B; cin; L]
    = Some [B; cout; (L + 1) / 2].
Proof.
  intros HL.
  unfold out_shape, Conv1d_ShapeRule, Shape.batched, Shape.conv1d3,
    Torch.conv1d_ok, Torch.conv_out_len.
  cbn [Torch.in_channels Torch.out_channels Torch.kernel_size Torch.stride
       Torch.padding].
  rewrite Nat.eqb_refl.
  replace (5 <=? L + 2 * 2) with true by (symmetry; apply Nat.leb_le; lia).
  cbn [andb Nat.leb].
  replace (L + 2 * 2 - 5) with (L - 1) by lia.
  replace (L + 1) with (L - 1 + 1 * 2) by lia.
  rewrite Nat.div_add by lia. reflexivity.
Qed.

(** A transposed convolution of kernel 5, stride 2, padding 2 and output
    padding 1 doubles a non-empty sequence. *)
Lemma doubling_conv_shape (cin cout : nat) w b (B L : nat) :
  1 <= L ->
  out_shape (Torch.mkConvTranspose1d cin cout 5 2 2 1 w b) [B; cin; L]
    = Some [B; cout; 2 * L].
Proof.
  intros HL.
  unfold out_shape, ConvTranspose1d_ShapeRule, Shape.batched,
    Shape.conv_transpose1d3, Torch.conv_transpose1d_ok, Torch.convT_out_len.
  cbn [Torch.t_in_channels Torch.t_out_channels Torch.t_kernel_size
       Torch.t_stride Torch.t_padding Torch.t_output_padding].
  rewrite Nat.eqb_refl.
  replace (1 <=? L) with true by (symmetry; apply Nat.leb_le; lia).
  replace (2 * 2 <? (L - 1) * 2 + (5 - 1) + 1 + 1) with true
    by (symmetry; apply Nat.ltb_lt; lia).
  cbn [andb Nat.leb Nat.ltb].
  replace ((L - 1) * 2 + (5 - 1) + 1 + 1 - 2 * 2) with (2 * L) by lia.
  reflexivity.
Qed.

Lemma halved_0 (L : nat) : halved 0 L = L.
Proof. unfold halved. rewrite Nat.pow_0_r, Nat.div_1_r. lia. Qed.

Lemma halved_S (k L : nat) : halved (S k) L = (halved k L + 1) / 2.
Proof.
  unfold halved. assert (Hp : 2 ^ k <> 0) by (apply Nat.pow_nonzero; lia).
  rewrite Nat.pow_succ_r', (Nat.mul_comm 2), <- Nat.Div0.div_div.
  replace (L + 2 ^ k * 2 - 1) with (L + 2 ^ k - 1 + 1 * 2 ^ k) by lia.
  rewrite Nat.div_add by exact Hp. reflexivity.
Qed.

Lemma halved_pos (k L : nat) : 1 <= L -> 1 <= halved k L.
Proof.
  intros HL. unfold halved.
  assert (Hp : 2 ^ k <> 0) by (apply Nat.pow_nonzero; lia).
  apply Nat.div_le_lower_bound; lia.
Qed.

Lemma halved_1 (L : nat) : halved 1 L = (L + 1) / 2.
Proof. rewrite halved_S, halved_0. reflexivity. Qed.

Lemma halved_inner (k L : nat) : halved k ((L + 1) / 2) = halved (S k) L.
Proof.
  induction k as [|k IH].
  - rewrite halved_0, halved_1. reflexivity.
  - rewrite halved_S, IH, <- halved_S. reflexivity.
Qed.

(** The rounded-up quotient times the divisor gives the number back
    exactly for the multiples of the divisor. *)
Lemma halved_exact (k L : nat) :
  halved k L * 2 ^ k = L <-> (2 ^ k | L).
Proof.
  assert (Hp : 2 ^ k <> 0) by (apply Nat.pow_nonzero; lia).
  unfold halved. split.
  - intros H. exists ((L + 2 ^ k - 1) / 2 ^ k). lia.
  - intros [m ->].
    replace (m * 2 ^ k + 2 ^ k - 1) with (2 ^ k - 1 + m * 2 ^ k) by lia.
    rewrite Nat.div_add by exact Hp.
    rewrite Nat.div_small by lia. lia.
Qed.

Lemma halved_ge (k L : nat) : L <= halved k L * 2 ^ k.
Proof.
  assert (Hp : 2 ^ k <> 0) by (apply Nat.pow_nonzero; lia).
  unfold halved.
  pose proof (Nat.div_mod_eq (L + 2 ^ k - 1) (2 ^ k)) as Hd.
  pose proof (Nat.mod_upper_bound (L + 2 ^ k - 1) (2 ^ k) Hp) as Hm.
  nia.
Qed.

Lemma final_conv_shape (cin cout : nat) w b (B L : nat) :
  1 <= L ->
  out_shape (Torch.mkConv1d cin cout 3 1 1 w b) [B; cin; L]
    = Some [B; cout; L].
Proof.
  intros HL.
  exact (same_conv_shape cin cout 3 w b B L (ex_intro _ 1 eq_refl) HL).
Qed.

Lemma flatten_one_channel (B W : nat) :
  Shape.flatten [B; 1; W] = Some [B; W].
Proof. unfold Shape.flatten. simpl. do 3 f_equal. lia. Qed.

Lemma MyEncoder_rule (m : MyEncoder) (s : list nat) :
  out_shape m s
  = add_channel_dim_shape s ≫= Shape.chain (map out_shape (enc_layers m)).
Proof. reflexivity. Qed.

Lemma MyDecoder_rule (m : MyDecoder) (s : list nat) :
  out_shape m s
  = add_channel_dim_shape s ≫= Shape.chain (map out_shape (dec_layers m)).
Proof. reflexivity. Qed.

(** The strided blocks of the encoder from the second on. *)
Lemma enc_blocks_shape (c : nat) (θ : Init) (B : nat) (count : nat) :
  forall (start L : nat), 1 <= L -> 1 <= start ->
    Shape.chain
      (map out_shape
         (flat_map (fun i =>
            [ Conv1d (Torch.mkConv1d (if i =? 0 then 1 else c) c 5 2 2
                        (w_init θ i) (Some (b_init θ i)));
              ReLU ]) (seq start count)))
      [B; c; L] = Some [B; c; halved count L].
Proof.
  induction count as [|count IH]; intros start L HL Hstart.
  - rewrite halved_0. reflexivity.
  - cbn [seq flat_map map app].
    destruct (start =? 0) eqn:E; [apply Nat.eqb_eq in E; lia|].
    step_ae. rewrite strided_conv_shape by exact HL.
    step_ae. rewrite IH.
    + rewrite halved_inner. reflexivity.
    + apply Nat.div_le_lower_bound; lia.
    + lia.
Qed.

Lemma dec_blocks_shape (c : nat) (θ : Init) (B : nat) (count : nat) :
  forall (start L : nat), 1 <= L -> 1 <= start ->
    Shape.chain
      (map out_shape
         (flat_map (fun i =>
            [ ConvTranspose1d
                (Torch.mkConvTranspose1d (if i =? 0 then 1 else c) c 5 2 2 1
                   (w_init θ i) (Some (b_init θ i)));
              ReLU ]) (seq start count)))
      [B; c; L] = Some [B; c; L * 2 ^ count].
Proof.
  induction count as [|count IH]; intros start L HL Hstart.
  - rewrite Nat.pow_0_r, Nat.mul_1_r. reflexivity.
  - cbn [seq flat_map map app].
    destruct (start =? 0) eqn:E; [apply Nat.eqb_eq in E; lia|].
    step_ae. rewrite doubling_conv_shape by exact HL.
    step_ae. rewrite IH by lia.
    rewrite Nat.pow_succ_r'.
    replace (2 * L * 2 ^ count) with (L * (2 * 2 ^ count)) by ring.
    reflexivity.
Qed.

(** The encoder on a 3-d input with one channel. *)
Lemma MyEncoder_shape_3d (nlayers nchannels : nat) (θ : Init) (B L : nat) :
  2 <= nlayers -> 1 <= L ->
  out_shape (MyEncoder_init nlayers nchannels θ) [B; 1; L]
    = Some [B; halved (nlayers - 1) L].
Proof.
  intros Hn HL. destruct nlayers as [|[|k]]; try lia.
  replace (S (S k) - 1) with (S k) by lia.
  rewrite MyEncoder_rule. unfold MyEncoder_init. cbn [enc_layers].
  replace (S (S k) - 1) with (S k) by lia.
  change (add_channel_dim_shape [B; 1; L]) with (Some [B; 1; L]).
  cbn [mbind option_bind]. rewrite map_app, chain_app.
  cbn [seq flat_map map app]. cbv zeta. cbn [Nat.eqb].
  step_ae. rewrite strided_conv_shape by exact HL.
  step_ae.
  rewrite (enc_blocks_shape nchannels θ B k 1 ((L + 1) / 2))
    by (try lia; apply Nat.div_le_lower_bound; lia).
  step_ae. rewrite halved_inner.
  rewrite final_conv_shape by (apply halved_pos; exact HL).
  step_ae. apply flatten_one_channel.
Qed.

Lemma MyDecoder_shape_3d (nlayers nchannels : nat) (θ : Init) (B L : nat) :
  2 <= nlayers -> 1 <= L ->
  out_shape (MyDecoder_init nlayers nchannels θ) [B; 1; L]
    = Some [B; 1; L * 2 ^ (nlayers - 1)].
Proof.
  intros Hn HL. destruct nlayers as [|[|k]]; try lia.
  replace (S (S k) - 1) with (S k) by lia.
  rewrite MyDecoder_rule. unfold MyDecoder_init. cbn [dec_layers].
  replace (S (S k) - 1) with (S k) by lia.
  change (add_channel_dim_shape [B; 1; L]) with (Some [B; 1; L]).
  cbn [mbind option_bind]. rewrite map_app, chain_app.
  cbn [seq flat_map map app]. cbv zeta. cbn [Nat.eqb].
  step_ae. rewrite doubling_conv_shape by exact HL.
  step_ae.
  rewrite (dec_blocks_shape nchannels θ B k 1 (2 * L)) by lia.
  step_ae.
  assert (Hpos : 1 <= 2 * L * 2 ^ k).
  { assert (2 ^ k <> 0) by (apply Nat.pow_nonzero; lia). nia. }
  rewrite final_conv_shape by exact Hpos.
  rewrite Nat.pow_succ_r'.
  replace (2 * L * 2 ^ k) with (L * (2 * 2 ^ k)) by ring.
  reflexivity.
Qed.

(** A 2-d input gets its channel axis first. *)
Lemma add_channel_2d_shape (m : MyEncoder) (m' : MyDecoder) (B L : nat) :
  out_shape m [B; L] = out_shape m [B; 1; L] /\
  out_shape m' [B; L] = out_shape m' [B; 1; L].
Proof. split; reflexivity. Qed.

End AutoencoderWidths.

Section AutoencoderWidthClaims.
Import Autoencoders.

(** X1: with at least two layers, [MyEncoder] maps a non-empty input of
    width [L], with or without channel axis, to a latent tensor of shape
    (batch, ceil(L / 2^(nlayers-1))): every strided convolution halves the
    width, rounding up. *)
Theorem MyEncoder_latent_width
    (nlayers nchannels : nat) (θ : Init) (B L : nat) (d : list R) :
  2 <= nlayers -> 1 <= nchannels -> 1 <= L ->
  let e := MyEncoder_init nlayers nchannels θ in
  (exists h, forward e (mkTensor [B; 1; L] d) = Some h /\
             shape h = [B; halved (nlayers - 1) L]) /\
  (exists h, forward e (mkTensor [B; L] d) = Some h /\
             shape h = [B; halved (nlayers - 1) L]).
Proof.
  intros Hn _ HL e.
  pose proof (MyEncoder_shape_3d nlayers nchannels θ B L Hn HL) as Hs.
  split; apply (forward_shape_Some e); exact Hs.
Qed.

Lemma MyEncoder_latent_width_witness :
  let e := MyEncoder_init 4 16 zero_init in
  (exists h, forward e (mkTensor [8; 1; 41] (replicate 328 0%R)) = Some h /\
             shape h = [8; 6]) /\
  (exists h, forward e (mkTensor [8; 41] (replicate 328 0%R)) = Some h /\
             shape h = [8; 6]).
Proof.
  apply (MyEncoder_latent_width 4 16 zero_init 8 41 (replicate 328 0%R)); lia.
Defined.

(** X2: with at least two layers, [MyDecoder] maps a non-empty latent
    tensor of width [w], with or without channel axis, to a tensor of shape
    (batch, 1, w * 2^(nlayers-1)): every transposed convolution doubles the
    width, and the output keeps its channel axis. *)
Theorem MyDecoder_output_width
    (nlayers nchannels : nat) (θ : Init) (B w : nat) (d : list R) :
  2 <= nlayers -> 1 <= nchannels -> 1 <= w ->
  let dc := MyDecoder_init nlayers nchannels θ in
  (exists y, forward dc (mkTensor [B; 1; w] d) = Some y /\
             shape y = [B; 1; w * 2 ^ (nlayers - 1)]) /\
  (exists y, forward dc (mkTensor [B; w] d) = Some y /\
             shape y = [B; 1; w * 2 ^ (nlayers - 1)]).
Proof.
  intros Hn _ Hw dc.
  pose proof (MyDecoder_shape_3d nlayers nchannels θ B w Hn Hw) as Hs.
  split; apply (forward_shape_Some dc); exact Hs.
Qed.

Lemma MyDecoder_output_width_witness :
  let dc := MyDecoder_init 3 16 zero_init in
  (exists y, forward dc (mkTensor [16; 1; 10] (replicate 160 0%R)) = Some y /\
             shape y = [16; 1; 40]) /\
  (exists y, forward dc (mkTensor [16; 10] (replicate 160 0%R)) = Some y /\
             shape y = [16; 1; 40]).
Proof.
  apply (MyDecoder_output_width 3 16 zero_init 16 10 (replicate 160 0%R)); lia.
Defined.

Lemma MyAutoencoder_rule (m : MyAutoencoder) (s : list nat) :
  out_shape m s = out_shape (enc m) s ≫= out_shape (dec m).
Proof. reflexivity. Qed.

(** X3: with at least two layers the autoencoder returns, for a non-empty
    input of width [L], a tensor of width [ceil(L / 2^k) * 2^k] with
    [k = nlayers - 1].  That width is never below [L], and it is [L], so
    that the shape of the input comes back, exactly when [2^k] divides
    [L]. *)
Theorem MyAutoencoder_width_round_trip
    (nlayers nchannels : nat) (θe θd : Init) (B L : nat) (d : list R) :
  2 <= nlayers -> 1 <= nchannels -> 1 <= L ->
  exists y,
    forward (MyAutoencoder_init nlayers nchannels θe θd) (mkTensor [B; 1; L] d)
      = Some y /\
    shape y = [B; 1; halved (nlayers - 1) L * 2 ^ (nlayers - 1)] /\
    L <= halved (nlayers - 1) L * 2 ^ (nlayers - 1) /\
    (shape y = [B; 1; L] <-> (2 ^ (nlayers - 1) | L)).
Proof.
  intros Hn _ HL.
  destruct (forward_shape_Some (MyAutoencoder_init nlayers nchannels θe θd)
              (mkTensor [B; 1; L] d)
              [B; 1; halved (nlayers - 1) L * 2 ^ (nlayers - 1)])
    as (y & Hy & Hs).
  { rewrite MyAutoencoder_rule. cbn [shape MyAutoencoder_init enc dec].
    rewrite MyEncoder_shape_3d by assumption. cbn [mbind option_bind].
    destruct (add_channel_2d_shape (MyEncoder_init nlayers nchannels θe)
                (MyDecoder_init nlayers nchannels θd) B
                (halved (nlayers - 1) L)) as [_ ->].
    apply MyDecoder_shape_3d; [exact Hn|apply halved_pos; exact HL]. }
  exists y. split; [exact Hy|]. split; [exact Hs|].
  split; [apply halved_ge|]. rewrite Hs. split.
  - intros H. apply halved_exact. congruence.
  - intros H. apply halved_exact in H. rewrite H. reflexivity.
Qed.

Lemma MyAutoencoder_width_round_trip_witness :
  exists y,
    forward (MyAutoencoder_init 5 16 zero_init zero_init)
      (mkTensor [8; 1; 40] (replicate 320 0%R)) = Some y /\
    shape y = [8; 1; halved 4 40 * 2 ^ 4] /\
    40 <= halved 4 40 * 2 ^ 4 /\
    (shape y = [8; 1; 40] <-> (2 ^ 4 | 40)).
Proof.
  apply (MyAutoencoder_width_round_trip 5 16 zero_init zero_init 8 40
           (replicate 320 0%R)); lia.
Defined.

(** X4: built with fewer than two layers and a channel count other than
    1, encoder and decoder consist of the final convolution alone, which
    expects [nchannels] input channels; on a one channel input, with or
    without channel axis, both raise, and so does the autoencoder. *)
Theorem single_layer_rejects_input
    (nlayers nchannels : nat) (θe θd : Init) (B L : nat) (d : list R) :
  nlayers <= 1 -> nchannels <> 1 ->
  forall x, x = mkTensor [B; 1; L] d \/ x = mkTensor [B; L] d ->
    forward (MyEncoder_init nlayers nchannels θe) x = None /\
    forward (MyDecoder_init nlayers nchannels θd) x = None /\
    forward (MyAutoencoder_init nlayers nchannels θe θd) x = None.
Proof.
  intros Hn Hc x Hx.
  assert (Hk : nlayers - 1 = 0) by lia.
  assert (He : out_shape (MyEncoder_init nlayers nchannels θe) (shape x) = None).
  { rewrite MyEncoder_rule. unfold MyEncoder_init. cbn [enc_layers].
    rewrite Hk. cbn [seq flat_map app map].
    assert (Hs : add_channel_dim_shape (shape x) = Some [B; 1; L])
      by (destruct Hx as [-> | ->]; reflexivity).
    rewrite Hs. cbn [mbind option_bind]. rewrite chain_cons.
    unfold out_shape at 1, AE_Layer_ShapeRule, out_shape, Conv1d_ShapeRule,
      Shape.batched, Shape.conv1d3, Torch.conv1d_ok.
    cbn [Torch.in_channels].
    destruct (1 =? nchannels) eqn:E; [apply Nat.eqb_eq in E; lia|].
    reflexivity. }
  assert (Hd : out_shape (MyDecoder_init nlayers nchannels θd) (shape x) = None).
  { rewrite MyDecoder_rule. unfold MyDecoder_init. cbn [dec_layers].
    rewrite Hk. cbn [seq flat_map app map].
    assert (Hs : add_channel_dim_shape (shape x) = Some [B; 1; L])
      by (destruct Hx as [-> | ->]; reflexivity).
    rewrite Hs. cbn [mbind option_bind]. rewrite chain_cons.
    unfold out_shape at 1, AE_Layer_ShapeRule, out_shape, Conv1d_ShapeRule,
      Shape.batched, Shape.conv1d3, Torch.conv1d_ok.
    cbn [Torch.in_channels].
    destruct (1 =? nchannels) eqn:E; [apply Nat.eqb_eq in E; lia|].
    reflexivity. }
  split; [apply forward_shape_None; exact He|].
  split; [apply forward_shape_None; exact Hd|].
  apply forward_shape_None. rewrite MyAutoencoder_rule.
  cbn [MyAutoencoder_init enc dec]. rewrite He. reflexivity.
Qed.

Lemma single_layer_rejects_input_witness :
  forward (MyEncoder_init 1 16 zero_init) Xtest = None /\
  forward (MyDecoder_init 1 16 zero_init) Xtest = None /\
  forward (MyAutoencoder_init 1 16 zero_init zero_init) Xtest = None.
Proof.
  apply (single_layer_rejects_input 1 16 zero_init zero_init 8 40
           (replicate 320 0%R)); [lia|lia|].
  right. reflexivity.
Defined.

End AutoencoderWidthClaims.

(** ** Notebook 03: the linear autoencoder *)

#[global] Instance Linear_ShapeSound : ShapeSound LinearAE.Linear.
Proof.
  intros m x. unfold forward, LinearAE.Linear_Module, LinearAE.linear,
    out_shape, LinearAE.Linear_ShapeRule, LinearAE.linear_shape.
  destruct (last (shape x)) as [w|]; [|reflexivity].
  destruct (w =? LinearAE.in_features m); reflexivity.
Qed.

#[global] Instance Linear_Layer_ShapeSound : ShapeSound LinearAE.Layer.
Proof.
  intros [m|] x; simpl.
  - apply (shape_sound m).
  - reflexivity.
Qed.

#[global] Instance MyLinearEncoder_ShapeSound
  : ShapeSound LinearAE.MyLinearEncoder.
Proof. intros m x. apply (shape_sound (LinearAE.lenc_layers m)). Qed.

#[global] Instance MyLinearDecoder_ShapeSound
  : ShapeSound LinearAE.MyLinearDecoder.
Proof. intros m x. apply (shape_sound (LinearAE.ldec_layers m)). Qed.

#[global] Instance MyLinearAutoencoder_ShapeSound
  : ShapeSound LinearAE.MyLinearAutoencoder.
Proof.
  intros m x.
  apply (bind_sound (forward (LinearAE.enc m)) (forward (LinearAE.dec m))
           (out_shape (LinearAE.enc m)) (out_shape (LinearAE.dec m)));
    apply shape_sound.
Qed.

Section LinearWidths.
Import LinearAE.

Lemma linear_layer_shape (m : Linear) (pre : list nat) (w : nat) :
  out_shape (Lin m) (pre ++ [w])
  = if w =? in_features m then Some (pre ++ [out_features m]) else None.
Proof.
  unfold out_shape, Layer_ShapeRule, out_shape, Linear_ShapeRule, linear_shape.
  rewrite last_snoc, removelast_last. reflexivity.
Qed.

Lemma linear_relu_shape (s : list nat) : out_shape ReLU s = Some s.
Proof. reflexivity. Qed.

(** A stack fed the width its first layer expects. *)
Lemma stack_shape (next : nat -> nat) (nlayers : nat) (θ : Init)
    (pre : list nat) (todo : nat) :
  forall i indim outdim,
    Shape.chain
      (map out_shape (linear_stack next nlayers θ todo i indim outdim))
      (pre ++ [indim])
    = Some (pre ++ [stack_width next todo indim outdim]).
Proof.
  induction todo as [|todo IH]; intros i indim outdim; [reflexivity|].
  cbn [linear_stack stack_width map]. rewrite chain_cons, linear_layer_shape.
  cbn [in_features out_features]. rewrite Nat.eqb_refl.
  cbn [mbind option_bind]. rewrite map_app, chain_app.
  destruct (i =? nlayers - 2).
  - cbn [map]. unfold Shape.chain at 1. cbn [fold_left mbind option_bind].
    apply IH.
  - cbn [map]. rewrite chain_cons, linear_relu_shape.
    cbn [mbind option_bind].
    unfold Shape.chain at 1. cbn [fold_left mbind option_bind]. apply IH.
Qed.

(** A non-empty stack fed another width raises in its first layer. *)
Lemma stack_wrong_width (next : nat -> nat) (nlayers : nat) (θ : Init)
    (pre : list nat) (todo i indim outdim w : nat) :
  1 <= todo -> w <> indim ->
  Shape.chain
    (map out_shape (linear_stack next nlayers θ todo i indim outdim))
    (pre ++ [w]) = None.
Proof.
  intros Htodo Hw. destruct todo as [|todo]; [lia|].
  cbn [linear_stack map]. rewrite chain_cons, linear_layer_shape.
  cbn [in_features].
  destruct (w =? indim) eqn:E; [apply Nat.eqb_eq in E; contradiction|].
  reflexivity.
Qed.

Lemma halving_width (k d : nat) :
  stack_width (fun indim => indim / 2) k d (d / 2) = d / 2 ^ k.
Proof.
  revert d. induction k as [|k IH]; intros d.
  - cbn [stack_width]. rewrite Nat.pow_0_r, Nat.div_1_r. reflexivity.
  - cbn [stack_width]. rewrite IH, Nat.pow_succ_r', Nat.Div0.div_div.
    reflexivity.
Qed.

Lemma doubling_width (k d : nat) :
  stack_width (fun indim => indim * 2) k d (d * 2) = d * 2 ^ k.
Proof.
  revert d. induction k as [|k IH]; intros d.
  - cbn [stack_width]. rewrite Nat.pow_0_r. lia.
  - cbn [stack_width]. rewrite IH, Nat.pow_succ_r'. ring.
Qed.

Lemma MyLinearEncoder_rule (nlayers nchannels inputdim : nat) (θ : Init)
    (s : list nat) :
  out_shape (MyLinearEncoder_init nlayers nchannels inputdim θ) s
  = Shape.chain
      (map out_shape
         (linear_stack (fun indim => indim / 2) nlayers θ (nlayers - 1) 0
            inputdim (inputdim / 2))) s.
Proof. reflexivity. Qed.

Lemma MyLinearDecoder_rule (nlayers nchannels inputdim : nat) (θ : Init)
    (s : list nat) :
  out_shape (MyLinearDecoder_init nlayers nchannels inputdim θ) s
  = Shape.chain
      (map out_shape
         (linear_stack (fun indim => indim * 2) nlayers θ (nlayers - 1) 0
            inputdim (inputdim * 2))) s.
Proof. reflexivity. Qed.

Lemma MyLinearEncoder_shape (nlayers nchannels inputdim : nat) (θ : Init)
    (pre : list nat) :
  out_shape (MyLinearEncoder_init nlayers nchannels inputdim θ)
    (pre ++ [inputdim])
  = Some (pre ++ [inputdim / 2 ^ (nlayers - 1)]).
Proof. rewrite MyLinearEncoder_rule, stack_shape, halving_width. reflexivity. Qed.

Lemma MyLinearDecoder_shape (nlayers nchannels inputdim : nat) (θ : Init)
    (pre : list nat) :
  out_shape (MyLinearDecoder_init nlayers nchannels inputdim θ)
    (pre ++ [inputdim])
  = Some (pre ++ [inputdim * 2 ^ (nlayers - 1)]).
Proof. rewrite MyLinearDecoder_rule, stack_shape, doubling_width. reflexivity. Qed.

(** X5: on an input whose last axis has the configured width [inputdim],
    [MyLinearEncoder] returns the same leading axes with a last axis of
    width [inputdim // 2^(nlayers-1)] (as long as that is not 0), and
    [MyLinearDecoder] one of width [inputdim * 2^(nlayers-1)]. *)
Theorem linear_coder_widths
    (nlayers nchannels inputdim : nat) (θ : Init) (pre : list nat)
    (d : list R) :
  1 <= inputdim / 2 ^ (nlayers - 1) ->
  (exists h,
      forward (MyLinearEncoder_init nlayers nchannels inputdim θ)
        (mkTensor (pre ++ [inputdim]) d) = Some h /\
      shape h = pre ++ [inputdim / 2 ^ (nlayers - 1)]) /\
  (exists y,
      forward (MyLinearDecoder_init nlayers nchannels inputdim θ)
        (mkTensor (pre ++ [inputdim]) d) = Some y /\
      shape y = pre ++ [inputdim * 2 ^ (nlayers - 1)]).
Proof.
  intros _. split.
  - apply (forward_shape_Some (MyLinearEncoder_init nlayers nchannels inputdim θ)).
    apply MyLinearEncoder_shape.
  - apply (forward_shape_Some (MyLinearDecoder_init nlayers nchannels inputdim θ)).
    apply MyLinearDecoder_shape.
Qed.

Lemma linear_coder_widths_witness :
  (exists h,
      forward (MyLinearEncoder_init 3 16 40 zero_init) Xtest = Some h /\
      shape h = [8; 10]) /\
  (exists y,
      forward (MyLinearDecoder_init 3 16 40 zero_init) Xtest = Some y /\
      shape y = [8; 160]).
Proof.
  apply (linear_coder_widths 3 16 40 zero_init [8] (replicate 320 0%R)).
  vm_compute. lia.
Defined.

(** X6: with at least two layers, [MyLinearEncoder] and [MyLinearDecoder]
    raise on every input whose last axis has another width than the
    configured [inputdim]. *)
Theorem linear_coder_rejects_width
    (nlayers nchannels inputdim : nat) (θ : Init) (pre : list nat) (w : nat)
    (d : list R) :
  2 <= nlayers -> w <> inputdim ->
  forward (MyLinearEncoder_init nlayers nchannels inputdim θ)
    (mkTensor (pre ++ [w]) d) = None /\
  forward (MyLinearDecoder_init nlayers nchannels inputdim θ)
    (mkTensor (pre ++ [w]) d) = None.
Proof.
  intros Hn Hw. split; apply forward_shape_None; cbn [shape].
  - rewrite MyLinearEncoder_rule. apply stack_wrong_width; [lia|exact Hw].
  - rewrite MyLinearDecoder_rule. apply stack_wrong_width; [lia|exact Hw].
Qed.

Lemma linear_coder_rejects_width_witness :
  forward (MyLinearEncoder_init 3 16 10 zero_init) Xtest = None /\
  forward (MyLinearDecoder_init 3 16 10 zero_init) Xtest = None.
Proof.
  apply (linear_coder_rejects_width 3 16 10 zero_init [8] 40
           (replicate 320 0%R)); lia.
Defined.

Lemma MyLinearAutoencoder_rule (m : MyLinearAutoencoder) (s : list nat) :
  out_shape m s = out_shape (enc m) s ≫= out_shape (dec m).
Proof. reflexivity. Qed.

(** X7: [MyLinearAutoencoder] builds its encoder for width 40 and its
    decoder for width 10 whatever [nlayers] is.  On an input of shape
    (batch, 40) it therefore returns the input itself for [nlayers <= 1]
    (both stacks are empty), a tensor of the input shape for [nlayers = 3],
    and raises for every other [nlayers]: the latent width is then
    [40 // 2^(nlayers-1)], not the 10 the decoder expects. *)
Theorem MyLinearAutoencoder_layer_counts
    (nlayers nchannels : nat) (θe θd : Init) (B : nat) (d : list R) :
  let m := MyLinearAutoencoder_init nlayers nchannels θe θd in
  let x := mkTensor [B; 40] d in
  (nlayers <= 1 -> forward m x = Some x) /\
  (nlayers = 3 -> exists y, forward m x = Some y /\ shape y = [B; 40]) /\
  (nlayers = 2 \/ 4 <= nlayers -> forward m x = None).
Proof.
  intros m x. split; [|split].
  - intros Hn. unfold m, MyLinearAutoencoder_init.
    unfold forward at 1, MyLinearAutoencoder_forward. cbn [enc dec].
    unfold MyLinearEncoder_init, MyLinearDecoder_init.
    replace (nlayers - 1) with 0 by lia. reflexivity.
  - intros ->. apply (forward_shape_Some m). reflexivity.
  - intros Hn. apply forward_shape_None. unfold m, x. cbn [shape].
    rewrite MyLinearAutoencoder_rule. cbn [MyLinearAutoencoder_init enc dec].
    change [B; 40] with ([B] ++ [default_encoder_inputdim]).
    rewrite (MyLinearEncoder_shape nlayers nchannels default_encoder_inputdim
               θe [B]).
    cbn [mbind option_bind]. rewrite MyLinearDecoder_rule.
    apply stack_wrong_width; [lia|].
    unfold default_encoder_inputdim, default_decoder_inputdim.
    destruct Hn as [-> | Hn]; [cbn; lia|].
    assert (H8 : 2 ^ 3 <= 2 ^ (nlayers - 1))
      by (apply Nat.pow_le_mono_r; lia).
    assert (H5 : 40 / 2 ^ (nlayers - 1) <= 40 / 2 ^ 3)
      by (apply Nat.div_le_compat_l; split; [cbn; lia|exact H8]).
    change (40 / 2 ^ 3) with 5 in H5. lia.
Qed.

Lemma MyLinearAutoencoder_layer_counts_witness :
  (exists y,
      forward (MyLinearAutoencoder_init 3 16 zero_init zero_init) Xtest
        = Some y /\ shape y = [8; 40]) /\
  forward (MyLinearAutoencoder_init 1 16 zero_init zero_init) Xtest
    = Some Xtest /\
  forward (MyLinearAutoencoder_init 2 16 zero_init zero_init) Xtest = None /\
  forward (MyLinearAutoencoder_init 4 16 zero_init zero_init) Xtest = None.
Proof.
  split; [|split; [|split]].
  - apply (MyLinearAutoencoder_layer_counts 3 16 zero_init zero_init 8
             (replicate 320 0%R)). reflexivity.
  - apply (MyLinearAutoencoder_layer_counts 1 16 zero_init zero_init 8
             (replicate 320 0%R)). lia.
  - apply (MyLinearAutoencoder_layer_counts 2 16 zero_init zero_init 8
             (replicate 320 0%R)). lia.
  - apply (MyLinearAutoencoder_layer_counts 4 16 zero_init zero_init 8
             (replicate 320 0%R)). lia.
Defined.

End LinearWidths.

(** ** Notebook 04: normalisation *)

Section NormaliseClaims.
Import Normalise.

(** X10 (notebook 04, normalisation cell).  The cell raises exactly when
    the training inputs or the training targets have no entry; empty test
    arrays are accepted. *)
Theorem normalise_raises_iff
  (train_input train_targets test_input test_targets : Tensor) :
  normalise train_input train_targets test_input test_targets = None <->
  data train_input = [] \/ data train_targets = [].
Proof.
  unfold normalise, amin, amax.
  destruct (data train_input) as [|a l], (data train_targets) as [|b l'];
    cbn [mbind option_bind]; split; intros H;
    try reflexivity; try discriminate; auto.
  destruct H as [H|H]; discriminate.
Qed.

End NormaliseClaims.

(** ** Notebook 04: the regression networks on other kernels and ranks *)

Ltac step_layers :=
  repeat first
    [ rewrite chain_cons | rewrite layer_relu_shape
    | rewrite layer_conv_shape | rewrite layer_attn_shape
    | progress cbn [mbind option_bind] ].

Section RegressionVariants.
Import Attention.

(** With an even kernel the padding [ksize // 2] is one position too much:
    a stride 1 convolution returns one position more than it receives. *)
Lemma even_conv_shape (cin cout ksize : nat) w b (B L : nat) :
  Nat.Even ksize -> 1 <= ksize ->
  out_shape (Torch.mkConv1d cin cout ksize 1 (ksize / 2) w b) [B; cin; L]
    = Some [B; cout; L + 1].
Proof.
  intros [q Hq] Hk.
  assert (Hhalf : ksize / 2 = q).
  { subst ksize. rewrite Nat.mul_comm, Nat.div_mul by lia. reflexivity. }
  unfold out_shape, Conv1d_ShapeRule, Shape.batched, Shape.conv1d3,
    Torch.conv1d_ok, Torch.conv_out_len.
  cbn [Torch.in_channels Torch.out_channels Torch.kernel_size Torch.stride
       Torch.padding].
  rewrite Hhalf, Nat.eqb_refl, Nat.div_1_r.
  replace (1 <=? ksize) with true by (symmetry; apply Nat.leb_le; lia).
  replace (ksize <=? L + 2 * q) with true by (symmetry; apply Nat.leb_le; lia).
  simpl. replace (L + (q + (q + 0)) - ksize + 1) with (L + 1) by lia.
  reflexivity.
Qed.

Lemma even_hidden_blocks_shape (nc ksize : nat) (θ : Init) (B : nat)
    (c0 start count L : nat) :
  Nat.Even ksize -> 1 <= ksize -> 1 <= start ->
  Shape.chain
    (map out_shape
       (flat_map (fun i =>
          [ Conv1d (Torch.mkConv1d (if i =? 0 then c0 else nc) nc ksize 1
                      (ksize / 2) (w_init θ i) (Some (b_init θ i)));
            ReLU ]) (seq start count)))
    [B; nc; L] = Some [B; nc; L + count].
Proof.
  intros Heven Hk. revert start L.
  induction count as [|count IH]; intros start L Hstart.
  - rewrite Nat.add_0_r. reflexivity.
  - cbn [seq flat_map map app]. cbv zeta.
    destruct (start =? 0) eqn:E; [apply Nat.eqb_eq in E; lia|].
    step_layers. rewrite even_conv_shape by assumption.
    step_layers. rewrite IH by lia. do 4 f_equal. lia.
Qed.

Lemma even_RegressionFCN_shape (c0 : nat) (rest : list nat)
    (nc ksize num_layers : nat) (θ : Init) (B L : nat) :
  Nat.Even ksize -> 1 <= ksize -> 1 <= num_layers ->
  exists m, RegressionFCN_init (c0 :: rest) nc ksize num_layers θ = Some m /\
            out_shape m [B; c0; L] = Some [B; c0; L + num_layers].
Proof.
  intros Heven Hk Hn. eexists. split; [reflexivity|].
  rewrite RegressionFCN_rule. cbn [fcn_layers]. rewrite map_app, chain_app.
  destruct num_layers as [|k]; [lia|].
  cbn [seq flat_map map app]. cbv zeta. cbn [Nat.eqb].
  step_layers. rewrite even_conv_shape by assumption.
  step_layers.
  rewrite (even_hidden_blocks_shape nc ksize θ B c0 1 k) by (assumption || lia).
  step_layers. rewrite pointwise_conv_shape by lia.
  replace (L + S k) with (L + 1 + k) by lia. reflexivity.
Qed.

Lemma even_CustomAttn_shape (c0 : nat) (rest : list nat)
    (nc ksize : nat) (θ : Init) (B L : nat) :
  Nat.Even ksize -> 1 <= ksize ->
  exists m, CustomAttn_init (c0 :: rest) nc ksize θ = Some m /\
            out_shape m [B; c0; L] = Some [B; c0; L + 2].
Proof.
  intros Heven Hk. eexists. split; [reflexivity|].
  rewrite CustomAttn_rule. cbn [attn_layers map].
  step_layers. rewrite even_conv_shape by assumption.
  step_layers. rewrite SelfAttention_shape by lia.
  step_layers. rewrite even_conv_shape by assumption.
  step_layers. rewrite pointwise_conv_shape by lia.
  replace (L + 2) with (L + 1 + 1) by lia. reflexivity.
Qed.

(** The unbatched layout: a convolution treats a (C, L) sample as a batch
    of one and drops the batch axis again. *)
Lemma conv_shape_2d (m : Torch.Conv1d) (C L : nat) :
  out_shape m [C; L] = tail <$> out_shape m [1; C; L].
Proof. reflexivity. Qed.

Lemma same_conv_shape_2d (cin cout ksize : nat) w b (L : nat) :
  Nat.Odd ksize -> 1 <= L ->
  out_shape (Torch.mkConv1d cin cout ksize 1 (ksize / 2) w b) [cin; L]
    = Some [cout; L].
Proof.
  intros Hodd HL. rewrite conv_shape_2d, same_conv_shape by assumption.
  reflexivity.
Qed.

Lemma pointwise_conv_shape_2d (cin cout : nat) w b (L : nat) :
  1 <= L ->
  out_shape (Torch.mkConv1d cin cout 1 1 0 w b) [cin; L] = Some [cout; L].
Proof.
  intros HL.
  apply (same_conv_shape_2d cin cout 1 w b L); [exists 0; lia|exact HL].
Qed.

Lemma SelfAttention_shape_2d (n : nat) (θ : Init) (L : nat) :
  1 <= L ->
  out_shape (SelfAttention_init n n n θ) [n; L] = Some [n; L].
Proof.
  intros HL. unfold out_shape at 1, SelfAttention_ShapeRule, SelfAttention_init.
  cbn [conv_Q conv_K conv_V].
  rewrite !pointwise_conv_shape_2d by exact HL.
  cbn [mbind option_bind]. simpl.
  rewrite !Nat.eqb_refl. simpl. rewrite !Nat.eqb_refl. reflexivity.
Qed.

Lemma hidden_blocks_shape_2d (nc ksize : nat) (θ : Init) (L : nat)
    (c0 start count : nat) :
  Nat.Odd ksize -> 1 <= L -> 1 <= start ->
  Shape.chain
    (map out_shape
       (flat_map (fun i =>
          [ Conv1d (Torch.mkConv1d (if i =? 0 then c0 else nc) nc ksize 1
                      (ksize / 2) (w_init θ i) (Some (b_init θ i)));
            ReLU ]) (seq start count)))
    [nc; L] = Some [nc; L].
Proof.
  intros Hodd HL. revert start.
  induction count as [|count IH]; intros start Hstart; [reflexivity|].
  cbn [seq flat_map map app]. cbv zeta.
  destruct (start =? 0) eqn:E; [apply Nat.eqb_eq in E; lia|].
  step_layers. rewrite same_conv_shape_2d by assumption.
  step_layers. apply IH. lia.
Qed.

Lemma RegressionFCN_shape_2d (c0 : nat) (rest : list nat)
    (nc ksize num_layers : nat) (θ : Init) (L : nat) :
  Nat.Odd ksize -> 1 <= num_layers -> 1 <= L ->
  exists m, RegressionFCN_init (c0 :: rest) nc ksize num_layers θ = Some m /\
            out_shape m [c0; L] = Some [c0; L].
Proof.
  intros Hodd Hn HL. eexists. split; [reflexivity|].
  rewrite RegressionFCN_rule. cbn [fcn_layers]. rewrite map_app, chain_app.
  destruct num_layers as [|k]; [lia|].
  cbn [seq flat_map map app]. cbv zeta. cbn [Nat.eqb].
  step_layers. rewrite same_conv_shape_2d by assumption.
  step_layers.
  rewrite (hidden_blocks_shape_2d nc ksize θ L c0 1 k) by (assumption || lia).
  step_layers. rewrite pointwise_conv_shape_2d by assumption. reflexivity.
Qed.

Lemma CustomAttn_shape_2d (c0 : nat) (rest : list nat)
    (nc ksize : nat) (θ : Init) (L : nat) :
  Nat.Odd ksize -> 1 <= L ->
  exists m, CustomAttn_init (c0 :: rest) nc ksize θ = Some m /\
            out_shape m [c0; L] = Some [c0; L].
Proof.
  intros Hodd HL. eexists. split; [reflexivity|].
  rewrite CustomAttn_rule. cbn [attn_layers map].
  step_layers. rewrite same_conv_shape_2d by assumption.
  step_layers. rewrite SelfAttention_shape_2d by assumption.
  step_layers. rewrite same_conv_shape_2d by assumption.
  step_layers. rewrite pointwise_conv_shape_2d by assumption. reflexivity.
Qed.

(** The shape the attention layer returns, for any three channel counts. *)
Lemma SelfAttention_general_shape (cin cout ckey : nat) (θ : Init) (B L : nat) :
  1 <= L ->
  out_shape (SelfAttention_init cin cout ckey θ) [B; cin; L]
    = if ckey =? cout then Some [B; ckey; L] else None.
Proof.
  intros HL. unfold out_shape at 1, SelfAttention_ShapeRule, SelfAttention_init.
  cbn [conv_Q conv_K conv_V].
  rewrite !pointwise_conv_shape by exact HL.
  cbn [mbind option_bind]. simpl.
  rewrite !Nat.eqb_refl. simpl.
  destruct (ckey =? cout); simpl; rewrite ?Nat.eqb_refl; reflexivity.
Qed.

End RegressionVariants.

Section RegressionVariantClaims.
Import Attention.

(** X11 (notebook 04, [RegressionFCN] and [CustomAttn]).  With an even
    kernel size the networks do not keep the length of the sequence: every
    padded convolution adds one position, so [RegressionFCN] returns
    [L + num_layers] positions and [CustomAttn] returns [L + 2]. *)
Theorem even_kernel_lengthens
    (c0 : nat) (rest : list nat) (num_channels ksize num_layers : nat)
    (θ : Init) (B L : nat) (d : list R) :
  Nat.Even ksize -> 1 <= ksize -> 1 <= num_layers -> 1 <= num_channels ->
  1 <= c0 -> 1 <= L ->
  (exists m y,
      RegressionFCN_init (c0 :: rest) num_channels ksize num_layers θ = Some m /\
      forward m (mkTensor [B; c0; L] d) = Some y /\
      shape y = [B; c0; L + num_layers]) /\
  (exists m y,
      CustomAttn_init (c0 :: rest) num_channels ksize θ = Some m /\
      forward m (mkTensor [B; c0; L] d) = Some y /\
      shape y = [B; c0; L + 2]).
Proof.
  intros Heven Hk Hn _ _ _. split.
  - destruct (even_RegressionFCN_shape c0 rest num_channels ksize num_layers
                θ B L Heven Hk Hn) as (m & Hm & Hs).
    destruct (forward_shape_Some m (mkTensor [B; c0; L] d) _ Hs)
      as (y & Hy & Hsy).
    exists m, y. auto.
  - destruct (even_CustomAttn_shape c0 rest num_channels ksize θ B L Heven Hk)
      as (m & Hm & Hs).
    destruct (forward_shape_Some m (mkTensor [B; c0; L] d) _ Hs)
      as (y & Hy & Hsy).
    exists m, y. auto.
Qed.

Lemma even_kernel_lengthens_witness :
  (exists m y,
      RegressionFCN_init [1; 64] default_num_channels 6 3 zero_init = Some m /\
      forward m (mkTensor [2; 1; 64] (replicate 128 0%R)) = Some y /\
      shape y = [2; 1; 64 + 3]) /\
  (exists m y,
      CustomAttn_init [1; 64] default_num_channels 6 zero_init = Some m /\
      forward m (mkTensor [2; 1; 64] (replicate 128 0%R)) = Some y /\
      shape y = [2; 1; 64 + 2]).
Proof.
  apply (even_kernel_lengthens 1 [64] default_num_channels 6 3 zero_init
           2 64 (replicate 128 0%R)).
  - exists 3. reflexivity.
  - lia.
  - lia.
  - unfold default_num_channels. lia.
  - lia.
  - lia.
Defined.

(** X12 (notebook 04, [RegressionFCN] and [CustomAttn]).  Both networks
    also take a single unbatched sample of shape (C, L), for an odd kernel
    size, and return a tensor of that shape. *)
Theorem regression_networks_unbatched
    (c0 : nat) (rest : list nat) (num_channels ksize num_layers : nat)
    (θ : Init) (L : nat) (d : list R) :
  Nat.Odd ksize -> 1 <= num_layers -> 1 <= num_channels ->
  1 <= c0 -> 1 <= L ->
  (exists m y,
      RegressionFCN_init (c0 :: rest) num_channels ksize num_layers θ = Some m /\
      forward m (mkTensor [c0; L] d) = Some y /\ shape y = [c0; L]) /\
  (exists m y,
      CustomAttn_init (c0 :: rest) num_channels ksize θ = Some m /\
      forward m (mkTensor [c0; L] d) = Some y /\ shape y = [c0; L]).
Proof.
  intros Hodd Hn _ _ HL. split.
  - destruct (RegressionFCN_shape_2d c0 rest num_channels ksize num_layers θ L
                Hodd Hn HL) as (m & Hm & Hs).
    destruct (forward_shape_Some m (mkTensor [c0; L] d) _ Hs)
      as (y & Hy & Hsy).
    exists m, y. auto.
  - destruct (CustomAttn_shape_2d c0 rest num_channels ksize θ L Hodd HL)
      as (m & Hm & Hs).
    destruct (forward_shape_Some m (mkTensor [c0; L] d) _ Hs)
      as (y & Hy & Hsy).
    exists m, y. auto.
Qed.

Lemma regression_networks_unbatched_witness :
  (exists m y,
      RegressionFCN_init [1; 64] default_num_channels default_ksize
        default_num_layers zero_init = Some m /\
      forward m (mkTensor [1; 64] (replicate 64 0%R)) = Some y /\
      shape y = [1; 64]) /\
  (exists m y,
      CustomAttn_init [1; 64] default_num_channels default_ksize zero_init
        = Some m /\
      forward m (mkTensor [1; 64] (replicate 64 0%R)) = Some y /\
      shape y = [1; 64]).
Proof.
  apply (regression_networks_unbatched 1 [64] default_num_channels
           default_ksize default_num_layers zero_init 64 (replicate 64 0%R)).
  - exists 2. reflexivity.
  - unfold default_num_layers. lia.
  - unfold default_num_channels. lia.
  - lia.
  - lia.
Defined.

(** X13 (notebook 04, [SelfAttention]).  On a batch of shape
    (batch, in_channels, L) with at least one position the layer returns a
    tensor exactly when [key_channels = out_channels], and the result then
    has shape (batch, out_channels, L); with different counts the product
    of the weights with the values raises. *)
Theorem SelfAttention_needs_equal_channels
    (in_channels out_channels key_channels : nat) (θ : Init)
    (B L : nat) (d : list R) :
  1 <= in_channels -> 1 <= out_channels -> 1 <= key_channels -> 1 <= L ->
  match forward (SelfAttention_init in_channels out_channels key_channels θ)
          (mkTensor [B; in_channels; L] d) with
  | Some y => key_channels = out_channels /\ shape y = [B; out_channels; L]
  | None => key_channels <> out_channels
  end.
Proof.
  intros _ _ _ HL.
  pose proof (SelfAttention_general_shape in_channels out_channels
                key_channels θ B L HL) as Hs.
  destruct (key_channels =? out_channels) eqn:Hk.
  - apply Nat.eqb_eq in Hk. subst key_channels.
    destruct (forward_shape_Some _ (mkTensor [B; in_channels; L] d) _ Hs)
      as (y & Hy & Hsy).
    rewrite Hy. split; [reflexivity|exact Hsy].
  - apply Nat.eqb_neq in Hk.
    rewrite (forward_shape_None _ (mkTensor [B; in_channels; L] d) Hs).
    exact Hk.
Qed.

Lemma SelfAttention_needs_equal_channels_witness :
  match forward (SelfAttention_init 2 3 4 unit_init)
          (mkTensor [1; 2; 2] [1; 0; 0; 1]%R) with
  | Some y => 4 = 3 /\ shape y = [1; 3; 2]
  | None => 4 <> 3
  end.
Proof.
  apply (SelfAttention_needs_equal_channels 2 3 4 unit_init 1 2
           [1; 0; 0; 1]%R); lia.
Defined.

End RegressionVariantClaims.

(** ** Notebook 04: [CustomTorchAttn] *)

Section TorchAttnClaims.
Import Attention TorchAttn.

(** X16 (notebook 04, [CustomTorchAttn.forward]).  The forward pass never
    returns: whatever the attention layer computes, with
    [need_weights=False] its result is a pair whose second item is [None],
    and taking the shape of every item raises; when the head layers or the
    attention layer raise first, the call has raised already. *)
Theorem CustomTorchAttn_forward_raises
    (attend : Tensor -> Tensor -> Tensor -> option Tensor)
    (inshape : list nat) (num_channels ksize : nat) (θ : Init)
    (self : CustomTorchAttn) (x : Tensor) :
  CustomTorchAttn_init inshape num_channels ksize θ = Some self ->
  CustomTorchAttn_forward attend self x = None.
Proof.
  intros _. unfold CustomTorchAttn_forward, attn_layer.
  destruct (forward (head_layers self) x) as [Q|];
    cbn [mbind option_bind]; [|reflexivity].
  destruct (attend Q Q Q) as [attn_output|];
    cbn [mbind option_bind]; reflexivity.
Qed.

Lemma CustomTorchAttn_forward_raises_witness :
  exists self,
    CustomTorchAttn_init [1; 64] default_num_channels default_ksize zero_init
      = Some self /\
    CustomTorchAttn_forward (fun Q K V => Some V) self x_signal = None.
Proof.
  eexists. split; [reflexivity|].
  apply (CustomTorchAttn_forward_raises (fun Q K V => Some V) [1; 64]
           default_num_channels default_ksize zero_init _ x_signal).
  reflexivity.
Defined.

End TorchAttnClaims.

(** ** The training loops: where they raise *)

Section LoopEdges.
Context {State : Type}.
Variables (model : Model State) (opt : Optimizer State) (crit : Criterion).

Lemma set_item_length (buf buf' : list R) (idx : nat) (v : R) :
  set_item buf idx v = Some buf' -> idx < length buf /\ length buf' = length buf.
Proof.
  unfold set_item. destruct (idx <? length buf) eqn:E; [|discriminate].
  intros [= <-]. apply Nat.ltb_lt in E. split; [exact E|].
  apply length_insert.
Qed.

(** A traversal that yields more batches than the buffer has slots runs
    into the end of the buffer, unless it has raised before. *)
Lemma fit_batches_overflow (target : Tensor * Tensor -> Tensor)
    (bs : list (Tensor * Tensor)) :
  forall (idx : nat) (σ : State) (buf : list R),
    idx <= length buf -> length buf < idx + length bs ->
    fit_batches model opt crit target idx bs σ buf = None.
Proof.
  induction bs as [|Xy rest IH]; intros idx σ buf Hidx Hlen.
  - simpl in Hlen. lia.
  - cbn [fit_batches].
    destruct (call model σ Xy.1) as [y_hat|];
      cbn [mbind option_bind]; [|reflexivity].
    destruct (crit y_hat (target Xy)) as [loss|];
      cbn [mbind option_bind]; [|reflexivity].
    destruct (set_item buf idx loss) as [buf'|] eqn:E;
      cbn [mbind option_bind]; [|reflexivity].
    apply set_item_length in E as [Hlt Hsame].
    apply IH; rewrite Hsame; [lia|]. simpl in Hlen. lia.
Qed.

Lemma eval_batches_overflow (bs : list (Tensor * Tensor)) :
  forall (idx : nat) (σ : State) (buf : list R),
    idx <= length buf -> length buf < idx + length bs ->
    eval_batches model crit idx bs σ buf = None.
Proof.
  induction bs as [|[X_test y_test] rest IH]; intros idx σ buf Hidx Hlen.
  - simpl in Hlen. lia.
  - cbn [eval_batches].
    destruct (call model σ X_test) as [X_prime_test|];
      cbn [mbind option_bind]; [|reflexivity].
    destruct (crit X_prime_test X_test) as [loss_|];
      cbn [mbind option_bind]; [|reflexivity].
    destruct (set_item buf idx loss_) as [buf'|] eqn:E;
      cbn [mbind option_bind]; [|reflexivity].
    apply set_item_length in E as [Hlt Hsame].
    apply IH; rewrite Hsame; [lia|]. simpl in Hlen. lia.
Qed.

Lemma generic_epoch_overflow (pre post : State -> State)
    (target : Tensor * Tensor -> Tensor)
    (train_dataloader test_dataloader : DataLoader)
    (max_epochs log_every epoch : nat) (st : Loop State) :
  length (train_loss st) < length (dl_batches train_dataloader epoch) \/
  length (test_loss st) < length (dl_batches test_dataloader epoch) ->
  generic_epoch model opt crit pre post target train_dataloader
    test_dataloader max_epochs log_every epoch st = None.
Proof.
  intros Hlong. unfold generic_epoch.
  destruct (fit_batches _ _ _ _ _ _ _ _) as [[σ1 tr]|] eqn:Efit;
    cbn [mbind option_bind]; [|reflexivity].
  destruct Hlong as [Htrain|Htest].
  - rewrite fit_batches_overflow in Efit by lia. discriminate.
  - rewrite eval_batches_overflow by lia. reflexivity.
Qed.




(** The two loops as runs of the common epoch body. *)
Lemma train_autoencoder_generic (train_dataloader test_dataloader : DataLoader)
    (max_epochs log_every : nat) (σ : State) :
  train_autoencoder model opt crit train_dataloader test_dataloader
    max_epochs log_every σ
  = for_each (generic_epoch model opt crit (fun s => s) (fun s => s) fst
                train_dataloader test_dataloader max_epochs log_every)
      (seq 0 max_epochs) (init_loop train_dataloader test_dataloader σ).
Proof. reflexivity. Qed.

Lemma train_regression_generic (train_dataloader test_dataloader : DataLoader)
    (max_epochs log_every : nat) (σ : State) :
  train_regression model opt crit train_dataloader test_dataloader
    max_epochs log_every σ
  = for_each (generic_epoch model opt crit (set_training model true)
                (set_training model false) snd
                train_dataloader test_dataloader max_epochs log_every)
      (seq 0 max_epochs) (init_loop train_dataloader test_dataloader σ).
Proof. reflexivity. Qed.

Lemma for_each_first_fails {A S : Type} (body : A -> S -> option S)
    (x : A) (xs : list A) (s : S) :
  body x s = None -> for_each body (x :: xs) s = None.
Proof. intros H. simpl. rewrite H. reflexivity. Qed.

End LoopEdges.

Section LoopEdgeClaims.
Context {State : Type}.
Variables (model : Model State) (opt : Optimizer State) (crit : Criterion).



(** X19 ([train_autoencoder], [train_regression]).  The loss buffers have
    [len(dataloader)] slots: when the first traversal of a loader yields
    more batches than its length, the loops raise, whatever model,
    optimizer and criterion do. *)
Theorem loader_longer_than_len_raises
    (train_dataloader test_dataloader : DataLoader)
    (max_epochs log_every : nat) (σ : State) :
  1 <= max_epochs ->
  dl_len train_dataloader < length (dl_batches train_dataloader 0) \/
  dl_len test_dataloader < length (dl_batches test_dataloader 0) ->
  train_autoencoder model opt crit train_dataloader test_dataloader
    max_epochs log_every σ = None /\
  train_regression model opt crit train_dataloader test_dataloader
    max_epochs log_every σ = None.
Proof.
  intros Hn Hlong.
  rewrite train_autoencoder_generic, train_regression_generic.
  destruct max_epochs as [|n]; [lia|]. cbn [seq].
  split; apply for_each_first_fails; apply generic_epoch_overflow;
    unfold init_loop; cbn [train_loss test_loss];
    rewrite !length_replicate; exact Hlong.
Qed.

End LoopEdgeClaims.


Lemma loader_longer_than_len_raises_witness :
  train_autoencoder toy_model toy_opt toy_crit toy_long toy_test 2 1 0 = None /\
  train_regression toy_model toy_opt toy_crit toy_long toy_test 2 1 0 = None.
Proof.
  apply (loader_longer_than_len_raises toy_model toy_opt toy_crit toy_long
           toy_test 2 1 0).
  - lia.
  - left. simpl. lia.
Defined.

(** ** The training loops: what is printed *)

Section LoopPrints.
Context {State : Type}.
Variables (model : Model State) (opt : Optimizer State) (crit : Criterion).

Lemma record_epoch_printed (max_epochs log_every epoch : nat)
    (st st' : Loop State) :
  record_epoch max_epochs log_every epoch st = Some st' ->
  printed st' =
    printed st ++
    (if logged max_epochs log_every epoch
     then [(epoch + 1, mean (train_loss st), mean (test_loss st))]
     else []).
Proof.
  unfold record_epoch, logged. intros Hrec.
  destruct (dict_append "train_losses" _ _) as [r1|];
    cbn [mbind option_bind] in Hrec; [|discriminate].
  destruct (dict_append "test_losses" _ r1) as [r2|];
    cbn [mbind option_bind] in Hrec; [|discriminate].
  destruct (log_every =? 0); [discriminate|].
  injection Hrec as <-. cbn [printed].
  destruct ((epoch mod log_every =? 0) || (epoch + 1 =? max_epochs));
    [reflexivity|].
  rewrite app_nil_r. reflexivity.
Qed.

Lemma generic_epoch_log (pre post : State -> State)
    (target : Tensor * Tensor -> Tensor)
    (train_dataloader test_dataloader : DataLoader)
    (max_epochs log_every epoch : nat) (st st' : Loop State)
    (tl vl : list R) :
  generic_epoch model opt crit pre post target train_dataloader
    test_dataloader max_epochs log_every epoch st = Some st' ->
  results st !! "train_losses" = Some tl ->
  results st !! "test_losses" = Some vl ->
  exists m1 m2 : R,
    results st' !! "train_losses" = Some (tl ++ [m1]) /\
    results st' !! "test_losses" = Some (vl ++ [m2]) /\
    printed st' =
      printed st ++
      (if logged max_epochs log_every epoch then [(epoch + 1, m1, m2)]
       else []).
Proof.
  unfold generic_epoch. intros Hep Htl Hvl.
  destruct (fit_batches _ _ _ _ _ _ _ _) as [[σ1 tr]|];
    cbn [mbind option_bind] in Hep; [|discriminate].
  destruct (eval_batches _ _ _ _ _ _) as [te|];
    cbn [mbind option_bind] in Hep; [|discriminate].
  pose proof (record_epoch_printed _ _ _ _ _ Hep) as Hp.
  destruct (record_epoch_spec _ _ _ _ _ tl vl Hep Htl Hvl)
    as (H1 & H2 & _).
  cbn [printed train_loss test_loss] in Hp, H1, H2.
  exists (mean tr), (mean te). auto.
Qed.

Lemma run_printed (pre post : State -> State)
    (target : Tensor * Tensor -> Tensor)
    (train_dataloader test_dataloader : DataLoader)
    (max_epochs log_every : nat) (n : nat) :
  forall (a : nat) (st out : Loop State) (tl vl : list R),
    for_each (generic_epoch model opt crit pre post target train_dataloader
                test_dataloader max_epochs log_every) (seq a n) st
      = Some out ->
    results st !! "train_losses" = Some tl ->
    results st !! "test_losses" = Some vl ->
    length tl = a -> length vl = a ->
    exists tl' vl' : list R,
      results out !! "train_losses" = Some (tl ++ tl') /\
      results out !! "test_losses" = Some (vl ++ vl') /\
      printed out =
        printed st ++
        map (fun e => (e + 1, nth e (tl ++ tl') 0%R, nth e (vl ++ vl') 0%R))
          (List.filter (logged max_epochs log_every) (seq a n)).
Proof.
  induction n as [|n IH]; intros a st out tl vl Hrun Htl Hvl Hlt Hlv.
  - simpl in Hrun. injection Hrun as <-. exists [], [].
    rewrite !app_nil_r. auto.
  - cbn [seq for_each] in Hrun.
    destruct (generic_epoch _ _ _ _ _ _ _ _ _ _ a st) as [st1|] eqn:Eep;
      cbn [mbind option_bind] in Hrun; [|discriminate].
    destruct (generic_epoch_log _ _ _ _ _ _ _ _ _ _ tl vl Eep Htl Hvl)
      as (m1 & m2 & H1 & H2 & Hp).
    destruct (IH (S a) st1 out (tl ++ [m1]) (vl ++ [m2]) Hrun H1 H2)
      as (tl' & vl' & R1 & R2 & Rp).
    { rewrite length_app. simpl. lia. }
    { rewrite length_app. simpl. lia. }
    replace ((tl ++ [m1]) ++ tl') with (tl ++ m1 :: tl') in R1, Rp
      by (rewrite <- app_assoc; reflexivity).
    replace ((vl ++ [m2]) ++ vl') with (vl ++ m2 :: vl') in R2, Rp
      by (rewrite <- app_assoc; reflexivity).
    exists (m1 :: tl'), (m2 :: vl'). split; [exact R1|]. split; [exact R2|].
    rewrite Rp, Hp. cbn [seq List.filter].
    destruct (logged max_epochs log_every a).
    + cbn [map]. rewrite <- app_assoc. cbn [app].
      replace (nth a (tl ++ m1 :: tl') 0%R) with m1
        by (rewrite <- Hlt; symmetry; apply nth_middle).
      replace (nth a (vl ++ m2 :: vl') 0%R) with m2
        by (rewrite <- Hlv; symmetry; apply nth_middle).
      reflexivity.
    + rewrite app_nil_r. reflexivity.
Qed.

(** X20 ([train_autoencoder], [train_regression]).  A run that returns has
    printed one line for every epoch whose index is a multiple of
    [log_every] and one for the last epoch, and no other; the line of an
    epoch shows the epoch number counted from 1 and the two means appended
    to the results for that epoch. *)
Theorem printed_epochs
    (train_dataloader test_dataloader : DataLoader)
    (max_epochs log_every : nat) (σ : State) (out : Loop State) :
  train_autoencoder model opt crit train_dataloader test_dataloader
    max_epochs log_every σ = Some out \/
  train_regression model opt crit train_dataloader test_dataloader
    max_epochs log_every σ = Some out ->
  exists tl vl : list R,
    results out !! "train_losses" = Some tl /\
    results out !! "test_losses" = Some vl /\
    printed out =
      map (fun e => (e + 1, nth e tl 0%R, nth e vl 0%R))
        (List.filter (logged max_epochs log_every) (seq 0 max_epochs)).
Proof.
  rewrite train_autoencoder_generic, train_regression_generic.
  destruct (init_loop_results (State := State) train_dataloader
              test_dataloader σ) as [Htl Hvl].
  intros [Hrun|Hrun];
    destruct (run_printed _ _ _ _ _ _ _ _ _ _ _ [] [] Hrun Htl Hvl
                eq_refl eq_refl) as (tl & vl & R1 & R2 & Rp);
    exists tl, vl; auto.
Qed.

End LoopPrints.

Lemma printed_epochs_witness :
  exists out tl vl,
    train_regression toy_model toy_opt toy_crit toy_train toy_test 6 4 0
      = Some out /\
    results out !! "train_losses" = Some tl /\
    results out !! "test_losses" = Some vl /\
    printed out =
      map (fun e => (e + 1, nth e tl 0%R, nth e vl 0%R)) [0; 4; 5].
Proof.
  assert (Hrun : exists out,
            train_regression toy_model toy_opt toy_crit toy_train toy_test 6 4 0
              = Some out).
  { eexists. vm_compute. reflexivity. }
  destruct Hrun as [out Hrun]. exists out.
  destruct (printed_epochs toy_model toy_opt toy_crit toy_train toy_test 6 4 0
              out (or_intror Hrun)) as (tl & vl & H1 & H2 & Hp).
  exists tl, vl. auto.
Defined.

(** ** The training loops: training and evaluation mode *)

Section LoopModes.
Context {State : Type}.
Variables (model : Model State) (opt : Optimizer State) (crit : Criterion).

Lemma for_each_app {A S : Type} (body : A -> S -> option S)
    (xs ys : list A) (s : S) :
  for_each body (xs ++ ys) s = for_each body xs s ≫= for_each body ys.
Proof.
  revert s. induction xs as [|x xs IH]; intros s; [reflexivity|].
  simpl. destruct (body x s) as [s'|]; cbn [mbind option_bind];
    [apply IH|reflexivity].
Qed.

(** The world after an epoch is the world the training pass leaves, with
    the switch after the pass applied: the test pass and the bookkeeping
    change nothing. *)
Lemma generic_epoch_world (pre post : State -> State)
    (target : Tensor * Tensor -> Tensor)
    (train_dataloader test_dataloader : DataLoader)
    (max_epochs log_every epoch : nat) (st st' : Loop State) :
  generic_epoch model opt crit pre post target train_dataloader
    test_dataloader max_epochs log_every epoch st = Some st' ->
  exists σ1 tr,
    fit_batches model opt crit target 0 (dl_batches train_dataloader epoch)
      (pre (world st)) (train_loss st) = Some (σ1, tr) /\
    world st' = post σ1.
Proof.
  unfold generic_epoch. intros Hep.
  destruct (fit_batches _ _ _ _ _ _ _ _) as [[σ1 tr]|] eqn:Efit;
    cbn [mbind option_bind] in Hep; [|discriminate].
  destruct (eval_batches _ _ _ _ _ _) as [te|];
    cbn [mbind option_bind] in Hep; [|discriminate].
  apply record_epoch_frame in Hep as (Hw & _). cbn [world] in Hw.
  exists σ1, tr. split; [reflexivity|exact Hw].
Qed.

(** X21 ([train_regression]).  A run over at least one epoch that returns
    ends in evaluation mode: the world it leaves is the one [model.eval()]
    has produced in the last epoch, neither the test pass nor the
    bookkeeping after it changes it.  What [eval()] writes, to the model
    and its sub-modules, is therefore what holds at the end. *)
Theorem train_regression_ends_in_eval_mode
    (train_dataloader test_dataloader : DataLoader)
    (max_epochs log_every : nat) (σ : State) (out : Loop State) :
  1 <= max_epochs ->
  train_regression model opt crit train_dataloader test_dataloader
    max_epochs log_every σ = Some out ->
  exists σ', world out = set_training model false σ'.
Proof.
  rewrite train_regression_generic. intros Hn Hrun.
  destruct max_epochs as [|n]; [lia|].
  rewrite seq_S, for_each_app in Hrun. cbn [Nat.add] in Hrun.
  destruct (for_each _ (seq 0 n) _) as [st|];
    cbn [mbind option_bind for_each] in Hrun; [|discriminate].
  destruct (generic_epoch _ _ _ _ _ _ _ _ _ _ n st) as [st'|] eqn:Eep;
    cbn [mbind option_bind] in Hrun; [|discriminate].
  injection Hrun as <-.
  apply generic_epoch_world in Eep as (σ1 & tr & _ & Hw).
  exists σ1. exact Hw.
Qed.

(** X25 ([train_autoencoder]).  The loop calls neither [model.train()] nor
    [model.eval()]: a property of the world that [loss.backward()],
    [opt.step()] and [opt.zero_grad()] preserve, such as the training
    flags of the modules, holds after the run if it held before, whatever
    [train()] and [eval()] would do to it. *)
Theorem train_autoencoder_never_switches_mode
    (I : State -> Prop)
    (train_dataloader test_dataloader : DataLoader)
    (max_epochs log_every : nat) (σ : State) (out : Loop State) :
  (forall σ' X t, I σ' -> I (backward model σ' X t)) ->
  (forall σ', I σ' -> I (step opt σ')) ->
  (forall σ', I σ' -> I (zero_grad opt σ')) ->
  I σ ->
  train_autoencoder model opt crit train_dataloader test_dataloader
    max_epochs log_every σ = Some out ->
  I (world out).
Proof.
  rewrite train_autoencoder_generic. intros Hb Hs Hz Hσ Hrun.
  refine (for_each_invariant (fun st => I (world st)) _ _ _ _ _ Hrun Hσ).
  intros epoch st st' Hep Hst.
  apply generic_epoch_world in Hep as (σ1 & tr & Hfit & ->).
  apply (fit_batches_invariant model opt crit I Hb Hs Hz _ _ _ _ _ _ _ Hfit).
  exact Hst.
Qed.

End LoopModes.

Lemma train_regression_ends_in_eval_mode_witness :
  exists out σ',
    train_regression flag_model flag_opt toy_crit toy_train toy_test 2 1
      (0, true) = Some out /\
    world out = set_training flag_model false σ'.
Proof.
  assert (Hrun : exists out,
            train_regression flag_model flag_opt toy_crit toy_train toy_test
              2 1 (0, true) = Some out).
  { eexists. vm_compute. reflexivity. }
  destruct Hrun as [out Hrun]. exists out.
  destruct (train_regression_ends_in_eval_mode flag_model flag_opt toy_crit
              toy_train toy_test 2 1 (0, true) out ltac:(lia) Hrun)
    as [σ' Hσ'].
  exists σ'. split; [exact Hrun|exact Hσ'].
Defined.

Lemma train_autoencoder_never_switches_mode_witness :
  exists out,
    train_autoencoder flag_model flag_opt toy_crit toy_train toy_test 2 1
      (0, true) = Some out /\
    (world out).2 = true.
Proof.
  eexists. split; [vm_compute; reflexivity|].
  apply (train_autoencoder_never_switches_mode flag_model flag_opt toy_crit
           (fun s => s.2 = true) toy_train toy_test 2 1 (0, true)).
  - intros s X t Hs. exact Hs.
  - intros s Hs. exact Hs.
  - intros s Hs. exact Hs.
  - reflexivity.
  - vm_compute. reflexivity.
Defined.

(** ** The training loops on the heap: gradients *)

Section StoreGradients.
Import Store.
Context {O : Type}.
Variables (rule : O -> nat -> Tensor -> Tensor -> Tensor * O) (fresh : O).

(** [loss.backward()] writes to the parameters of its network only. *)
Lemma accumulate_zip_frame (a : nat) (ps : list nat) :
  a ∉ ps ->
  forall (gs : list Tensor) (h : gmap nat Param),
    fold_left (fun h ag => alter (accumulate ag.2) ag.1 h) (zip ps gs) h !! a
    = h !! a.
Proof.
  induction ps as [|p ps IH]; intros Ha gs h; [reflexivity|].
  destruct gs as [|g gs]; [reflexivity|]. simpl. rewrite IH.
  - apply lookup_alter_ne. intros ->. apply Ha. left.
  - intros Hin. apply Ha. right. exact Hin.
Qed.

Lemma backward_heap_frame (net : Net) (σ : World O) (X target : Tensor)
    (a : nat) :
  a ∉ parameters net ->
  heap (net_backward net σ X target) !! a = heap σ !! a.
Proof.
  intros Ha. unfold net_backward.
  destruct (values σ (parameters net)) as [vals|]; [|reflexivity].
  cbn [heap]. apply accumulate_zip_frame. exact Ha.
Qed.

(** [opt.step()] on parameters without gradients does nothing. *)
Lemma step_params_skip (ps : list nat) (h : gmap nat Param) (s : O) :
  no_grads ps h -> fold_left (step_param rule) ps (h, s) = (h, s).
Proof.
  induction ps as [|p ps IH]; intros Hno; [reflexivity|].
  simpl. unfold step_param at 2. cbn [fst snd].
  destruct (h !! p) as [[v [g|]]|] eqn:E.
  - specialize (Hno p _ ltac:(left) E). discriminate.
  - apply IH. intros a q Ha. apply Hno. right. exact Ha.
  - apply IH. intros a q Ha. apply Hno. right. exact Ha.
Qed.

Lemma step_heap_skip (opt : AdamW) (σ : World O) :
  no_grads (param_group opt) (heap σ) ->
  heap (adamw_step rule fresh opt σ) = heap σ.
Proof.
  intros Hno. unfold adamw_step. cbn [heap].
  rewrite (step_params_skip _ _ _ Hno). reflexivity.
Qed.

Lemma clear_grads (ps : list nat) (a : nat) :
  forall h : gmap nat Param,
    a ∈ ps \/ (forall q, h !! a = Some q -> grad q = None) ->
    forall q,
      fold_left (fun h a => alter (fun p => mkParam (value p) None) a h) ps h
        !! a = Some q ->
      grad q = None.
Proof.
  induction ps as [|p ps IH]; intros h Hcase q Hq.
  - simpl in Hq. destruct Hcase as [Hin|Hh]; [|exact (Hh q Hq)].
    apply elem_of_nil in Hin. destruct Hin.
  - simpl in Hq. revert Hq. apply IH.
    destruct (decide (a = p)) as [->|Hne].
    + right. intros q'. rewrite lookup_alter_eq.
      destruct (h !! p) as [p0|]; simpl; [|discriminate].
      intros [= <-]. reflexivity.
    + destruct Hcase as [Hin|Hh].
      * left. apply elem_of_cons in Hin as [->|Hin]; [contradiction|exact Hin].
      * right. intros q'. rewrite lookup_alter_ne by (intros ->; apply Hne;
          reflexivity). apply Hh.
Qed.

Lemma zero_grad_no_grads (opt : AdamW) (σ : World O) :
  no_grads (param_group opt) (heap (adamw_zero_grad opt σ)).
Proof.
  intros a q Ha. unfold adamw_zero_grad. cbn [heap].
  apply clear_grads. left. exact Ha.
Qed.

End StoreGradients.

Section StoreGradientClaims.
Import Store.
Context {O : Type}.
Variables (rule : O -> nat -> Tensor -> Tensor -> Tensor * O) (fresh : O).

(** X22 ([attoptim], [tattoptim] and [train_regression], on the heap
    model).  When the parameters of [plainfcn] hold no gradient at the
    start, as [zero_grad] leaves them after the training of [plainfcn], a
    run of [train_regression] on another model with an optimizer built from
    [plainfcn.parameters()] changes the value of no parameter at all: the
    model is not in the optimizer, and the parameters in the optimizer never
    receive a gradient. *)
Theorem foreign_optimizer_changes_no_value
    (plainfcn attmodel : Net) (id : nat) (crit : Criterion)
    (train_dataloader test_dataloader : DataLoader)
    (max_epochs log_every : nat) (σ : World O) (out : Loop (World O)) :
  (forall a, a ∈ parameters attmodel -> a ∉ parameters plainfcn) ->
  no_grads (parameters plainfcn) (heap σ) ->
  train_regression (model_of attmodel)
    (optimizer_of rule fresh (AdamW_init id (parameters plainfcn)))
    crit train_dataloader test_dataloader max_epochs log_every σ = Some out ->
  (forall a, value_at (world out) a = value_at σ a) /\
  no_grads (parameters plainfcn) (heap (world out)).
Proof.
  intros Hdisj Hno Hrun.
  assert (Hinv : no_grads (parameters plainfcn) (heap (world out)) /\
                 forall a, value_at (world out) a = value_at σ a).
  { apply (train_regression_invariant (model_of attmodel)
             (optimizer_of rule fresh (AdamW_init id (parameters plainfcn)))
             crit
             (fun σ' => no_grads (parameters plainfcn) (heap σ') /\
                        forall a, value_at σ' a = value_at σ a))
      with (5 := Hrun).
    - intros σ' X t [Hg Hv]. cbn [backward model_of]. split.
      + intros a q Ha. rewrite backward_heap_frame.
        * apply Hg. exact Ha.
        * intros Hin. apply (Hdisj a Hin Ha).
      + intros a. rewrite backward_frame. apply Hv.
    - intros σ' [Hg Hv]. cbn [step optimizer_of].
      assert (Hheap : heap (adamw_step rule fresh
                              (AdamW_init id (parameters plainfcn)) σ')
                      = heap σ')
        by (apply step_heap_skip; exact Hg).
      split.
      + rewrite Hheap. exact Hg.
      + intros a. unfold value_at. rewrite Hheap. apply Hv.
    - intros σ' [Hg Hv]. cbn [zero_grad optimizer_of]. split.
      + apply (zero_grad_no_grads (AdamW_init id (parameters plainfcn))).
      + intros a. rewrite zero_grad_frame. apply Hv.
    - intros b σ' Hσ'. exact Hσ'.
    - split; [exact Hno|reflexivity]. }
  destruct Hinv as [Hg Hv]. split; assumption.
Qed.

End StoreGradientClaims.

Lemma foreign_optimizer_changes_no_value_witness :
  exists out,
    train_regression (Store.model_of toy_attmodel)
      (Store.optimizer_of toy_rule tt toy_attoptim) toy_crit toy_train
      toy_test 2 1 world_attmodel.2 = Some out /\
    (forall a, Store.value_at (world out) a = Store.value_at world_attmodel.2 a) /\
    no_grads (Store.parameters toy_plainfcn) (Store.heap (world out)).
Proof.
  eexists. split; [vm_compute; reflexivity|].
  apply (foreign_optimizer_changes_no_value toy_rule tt toy_plainfcn
           toy_attmodel 2 toy_crit toy_train toy_test 2 1 world_attmodel.2).
  - intros a Ha Hp. apply new_parameters_fresh in Ha.
    vm_compute in Hp. apply list_elem_of_In in Hp.
    destruct Hp as [<- | []]. vm_compute in Ha. discriminate.
  - intros a q Ha Hq. vm_compute in Ha. apply list_elem_of_In in Ha.
    destruct Ha as [<- | []]. vm_compute in Hq. injection Hq as <-.
    reflexivity.
  - vm_compute. reflexivity.
Defined.

(** ** Inputs of other ranks *)

Section OtherRanks.

(** A convolution takes a 3-d batch or a 2-d sample and nothing else. *)
Lemma conv_rank (m : Torch.Conv1d) (s : list nat) :
  length s <> 2 -> length s <> 3 -> out_shape m s = None.
Proof.
  intros H2 H3. destruct s as [|a [|b [|c [|d s]]]]; try reflexivity.
  - exfalso. apply H2. reflexivity.
  - exfalso. apply H3. reflexivity.
Qed.

Lemma convT_rank (m : Torch.ConvTranspose1d) (s : list nat) :
  length s <> 2 -> length s <> 3 -> out_shape m s = None.
Proof.
  intros H2 H3. destruct s as [|a [|b [|c [|d s]]]]; try reflexivity.
  - exfalso. apply H2. reflexivity.
  - exfalso. apply H3. reflexivity.
Qed.

Lemma add_channel_other_rank (s : list nat) :
  length s <> 2 -> add_channel_dim_shape s = Some s.
Proof.
  intros H2. unfold add_channel_dim_shape.
  destruct (length s =? 2) eqn:E; [apply Nat.eqb_eq in E; lia|reflexivity].
Qed.

Lemma MyEncoder_other_rank (nlayers nchannels : nat) (θ : Init) (s : list nat) :
  length s <> 2 -> length s <> 3 ->
  out_shape (Autoencoders.MyEncoder_init nlayers nchannels θ) s = None.
Proof.
  intros H2 H3. rewrite MyEncoder_rule, add_channel_other_rank by exact H2.
  cbn [mbind option_bind]. unfold Autoencoders.MyEncoder_init.
  cbn [Autoencoders.enc_layers].
  destruct (nlayers - 1) as [|k]; cbn [seq flat_map app map]; cbv zeta;
    rewrite chain_cons, ae_conv_shape, conv_rank by assumption; reflexivity.
Qed.

Lemma MyDecoder_other_rank (nlayers nchannels : nat) (θ : Init) (s : list nat) :
  length s <> 2 -> length s <> 3 ->
  out_shape (Autoencoders.MyDecoder_init nlayers nchannels θ) s = None.
Proof.
  intros H2 H3. rewrite MyDecoder_rule, add_channel_other_rank by exact H2.
  cbn [mbind option_bind]. unfold Autoencoders.MyDecoder_init.
  cbn [Autoencoders.dec_layers].
  destruct (nlayers - 1) as [|k]; cbn [seq flat_map app map]; cbv zeta.
  - rewrite chain_cons, ae_conv_shape, conv_rank by assumption. reflexivity.
  - rewrite chain_cons, ae_convT_shape, convT_rank by assumption. reflexivity.
Qed.

Lemma RegressionFCN_other_rank (inshape : list nat)
    (num_channels ksize num_layers : nat) (θ : Init)
    (m : Attention.RegressionFCN) (s : list nat) :
  Attention.RegressionFCN_init inshape num_channels ksize num_layers θ
    = Some m ->
  length s <> 2 -> length s <> 3 -> out_shape m s = None.
Proof.
  unfold Attention.RegressionFCN_init. intros Hm H2 H3.
  destruct (head inshape) as [c0|]; cbn [mbind option_bind] in Hm;
    [|discriminate].
  injection Hm as <-. rewrite RegressionFCN_rule.
  cbn [Attention.fcn_layers].
  destruct num_layers as [|k]; cbn [seq flat_map app map]; cbv zeta;
    rewrite chain_cons, layer_conv_shape, conv_rank by assumption;
    reflexivity.
Qed.

Lemma CustomAttn_other_rank (inshape : list nat) (num_channels ksize : nat)
    (θ : Init) (m : Attention.CustomAttn) (s : list nat) :
  Attention.CustomAttn_init inshape num_channels ksize θ = Some m ->
  length s <> 2 -> length s <> 3 -> out_shape m s = None.
Proof.
  unfold Attention.CustomAttn_init. intros Hm H2 H3.
  destruct (head inshape) as [c0|]; cbn [mbind option_bind] in Hm;
    [|discriminate].
  injection Hm as <-. rewrite CustomAttn_rule.
  cbn [Attention.attn_layers map].
  rewrite chain_cons, layer_conv_shape, conv_rank by assumption. reflexivity.
Qed.

End OtherRanks.

Section OtherRankClaims.

(** X23 (notebook 03, [MyEncoder], [MyDecoder], [MyAutoencoder]).  The
    channel axis is inserted for a 2-d input only: an input that is neither
    2-d nor 3-d reaches the first convolution as it is and is rejected,
    for every number of layers and channels. *)
Theorem autoencoders_reject_other_ranks
    (nlayers nchannels : nat) (θe θd : Init) (x : Tensor) :
  ndim x <> 2 -> ndim x <> 3 ->
  forward (Autoencoders.MyEncoder_init nlayers nchannels θe) x = None /\
  forward (Autoencoders.MyDecoder_init nlayers nchannels θd) x = None /\
  forward (Autoencoders.MyAutoencoder_init nlayers nchannels θe θd) x = None.
Proof.
  intros H2 H3. unfold ndim in H2, H3.
  split; [|split]; apply forward_shape_None.
  - apply MyEncoder_other_rank; assumption.
  - apply MyDecoder_other_rank; assumption.
  - rewrite MyAutoencoder_rule. unfold Autoencoders.MyAutoencoder_init.
    cbn [Autoencoders.enc Autoencoders.dec].
    rewrite MyEncoder_other_rank by assumption. reflexivity.
Qed.

Lemma autoencoders_reject_other_ranks_witness :
  forward (Autoencoders.MyEncoder_init 3 16 zero_init) x_flat = None /\
  forward (Autoencoders.MyDecoder_init 3 16 zero_init) x_flat = None /\
  forward (Autoencoders.MyAutoencoder_init 3 16 zero_init zero_init) x_flat
    = None.
Proof.
  apply (autoencoders_reject_other_ranks 3 16 zero_init zero_init x_flat).
  - unfold ndim, x_flat. simpl. lia.
  - unfold ndim, x_flat. simpl. lia.
Defined.

(** X24 (notebook 04, [RegressionFCN], [CustomAttn]).  Both networks
    start with a convolution, so an input that is neither a 3-d batch nor
    a 2-d sample is rejected, for every configuration. *)
Theorem regression_networks_reject_other_ranks
    (inshape : list nat) (num_channels ksize num_layers : nat) (θ : Init)
    (fcn : Attention.RegressionFCN) (attn : Attention.CustomAttn)
    (x : Tensor) :
  Attention.RegressionFCN_init inshape num_channels ksize num_layers θ
    = Some fcn ->
  Attention.CustomAttn_init inshape num_channels ksize θ = Some attn ->
  ndim x <> 2 -> ndim x <> 3 ->
  forward fcn x = None /\ forward attn x = None.
Proof.
  intros Hfcn Hattn H2 H3. unfold ndim in H2, H3.
  split; apply forward_shape_None.
  - apply (RegressionFCN_other_rank _ _ _ _ _ _ _ Hfcn); assumption.
  - apply (CustomAttn_other_rank _ _ _ _ _ _ Hattn); assumption.
Qed.

Lemma regression_networks_reject_other_ranks_witness :
  exists fcn attn,
    Attention.RegressionFCN_init [1; 64] Attention.default_num_channels
      Attention.default_ksize Attention.default_num_layers zero_init
      = Some fcn /\
    Attention.CustomAttn_init [1; 64] Attention.default_num_channels
      Attention.default_ksize zero_init = Some attn /\
    forward fcn x_flat = None /\ forward attn x_flat = None.
Proof.
  eexists. eexists. split; [reflexivity|]. split; [reflexivity|].
  apply (regression_networks_reject_other_ranks [1; 64]
           Attention.default_num_channels Attention.default_ksize
           Attention.default_num_layers zero_init _ _ x_flat).
  - reflexivity.
  - reflexivity.
  - unfold ndim, x_flat. simpl. lia.
  - unfold ndim, x_flat. simpl. lia.
Defined.

End OtherRankClaims.
